(** * Email filter: the mail synchronisation and classification engine

    A shallow embedding of [services/gmail.js], [services/classifier.js],
    [services/emailWatcher.js] and of the watcher routes of
    [routes/api.js].  The JavaScript modules keep their state in
    module-level variables; here they are the fields of one [state] record
    that every function threads explicitly.  Calls that leave the process
    (Gmail, OpenAI, the file system, the clock, timers) go through the
    [Services] interface and are recorded, in order, in the state's
    [trace].  [async]/[await] is sequential composition: the functions are
    modelled one cycle at a time, without overlapping timer ticks.
    Calls to [logger] are not modelled. *)

From Stdlib Require Import ZArith QArith Ascii Lia.
From stdpp Require Import base option list gmap strings pretty.

Set Warnings "-register-all".
Local Open Scope Z_scope.

(** ** JavaScript values and builtins *)

Module JS.

(** [error.code]: absent, a number (HTTP status) or a string (errno). *)
Inductive errcode :=
| NoCode
| NumCode (n : Z)
| StrCode (c : string).

(** A thrown [Error]. *)
Record exn := Error { message : string; code : errcode }.

Definition mkError (msg : string) : exn := Error msg NoCode.

(** The result of running a piece of code: it returns or it throws. *)
Inductive outcome (A : Type) :=
| Ok (a : A)
| Throw (e : exn).
Arguments Ok {A} a.
Arguments Throw {A} e.

(** Numbers as [JSON.parse] produces them: a finite value or, on
    overflow of the literal, an infinity.  JSON has no literal for NaN,
    so a parsed number is never NaN. *)
Inductive jsnum :=
| JFin (q : Q)
| JPosInf
| JNegInf.

(** [a < b] on numbers. *)
Definition num_lt (a b : jsnum) : bool :=
  match a, b with
  | JFin x, JFin y => negb (Qle_bool y x)
  | JFin _, JPosInf => true
  | JNegInf, JFin _ => true
  | JNegInf, JPosInf => true
  | _, _ => false
  end.

(** Values as [JSON.parse] produces them. *)
Inductive json :=
| JNull
| JBool (b : bool)
| JNum (n : jsnum)
| JStr (s : string)
| JArr (items : list json)
| JObj (fields : list (string * json)).

(** ToBoolean. *)
Definition truthy (v : json) : bool :=
  match v with
  | JNull => false
  | JBool b => b
  | JNum (JFin q) => negb (Qeq_bool q 0)
  | JNum _ => true
  | JStr s => negb (String.eqb s "")
  | JArr _ => true
  | JObj _ => true
  end.

(** Truthiness of a string that may be [null] or [undefined]. *)
Definition truthy_str (o : option string) : bool :=
  match o with
  | Some s => negb (String.eqb s "")
  | None => false
  end.

Fixpoint assoc (k : string) (fields : list (string * json)) : option json :=
  match fields with
  | [] => None
  | (k', v) :: rest => if String.eqb k k' then Some v else assoc k rest
  end.

(** [v.k] for a property [k] that is no builtin of strings or arrays:
    a TypeError on [null], the field of an object, [undefined] ([None])
    everywhere else. *)
Definition get_prop (v : json) (k : string) : outcome (option json) :=
  match v with
  | JNull =>
      Throw (mkError ("Cannot read properties of null (reading '" +:+ k +:+ "')"))
  | JObj fields => Ok (assoc k fields)
  | _ => Ok None
  end.

(** [arr.includes(x)] on an array of strings. *)
Definition includes (x : string) (arr : list string) : bool :=
  existsb (String.eqb x) arr.

(** [arr.slice(start)]: a negative [start] counts from the end. *)
Definition slice {A} (start : Z) (arr : list A) : list A :=
  let len := Z.of_nat (length arr) in
  let k := if start <? 0 then Z.max (len + start) 0 else Z.min start len in
  drop (Z.to_nat k) arr.

(** [Set.prototype.add] on a set kept as the list of its elements in
    insertion order. *)
Definition set_add (x : string) (set : list string) : list string :=
  if includes x set then set else set ++ [x].

(** [new Set(arr)]. *)
Definition set_of_array (arr : list string) : list string :=
  foldl (fun set x => set_add x set) [] arr.

(** [s.toLowerCase()] on the ASCII letters. *)
Definition lower_ascii (c : ascii) : ascii :=
  let n := N_of_ascii c in
  if ((65 <=? n) && (n <=? 90))%N then ascii_of_N (n + 32) else c.

Fixpoint toLowerCase (s : string) : string :=
  match s with
  | EmptyString => EmptyString
  | String c rest => String (lower_ascii c) (toLowerCase rest)
  end.

(** *** Strings and their UTF-16 code units

    A JavaScript string is a sequence of UTF-16 code units.  Here it is
    the [string] of the bytes of its UTF-8 encoding: a character of the
    Basic Multilingual Plane is one code unit and one to three bytes, any
    other character is two code units, a surrogate pair, and four bytes.
    A surrogate that stands alone, which only cutting a pair produces, is
    written as the three bytes of its own value. *)

(** The bytes that follow the byte [c] in the sequence it opens. *)
Definition utf8_tail (c : ascii) : nat :=
  let n := N_of_ascii c in
  if (n <? 192)%N then 0%nat
  else if (n <? 224)%N then 1%nat
  else if (n <? 240)%N then 2%nat
  else 3%nat.

(** The code units of the character whose sequence the byte [c] opens. *)
Definition utf16_units (c : ascii) : nat :=
  if (N_of_ascii c <? 240)%N then 1%nat else 2%nat.

(** [s.length], after [tail] more bytes of a sequence already counted. *)
Fixpoint utf16_length_from (tail : nat) (s : string) : nat :=
  match s with
  | EmptyString => 0%nat
  | String c rest =>
      match tail with
      | S k => utf16_length_from k rest
      | O => (utf16_units c + utf16_length_from (utf8_tail c) rest)%nat
      end
  end.

(** [s.length] *)
Definition utf16_length (s : string) : nat := utf16_length_from 0 s.

(** The first code unit of the character written [c] followed by the
    first bytes of [rest], a four-byte sequence: its high surrogate,
    0xD7C0 plus the bits of the character above the tenth. *)
Definition high_surrogate (c : ascii) (rest : string) : string :=
  let byte (k : nat) : N :=
    match String.get k rest with
    | Some b => N.land (N_of_ascii b) 63
    | None => 0%N
    end in
  let top :=
    (N.shiftl (N.land (N_of_ascii c) 7) 8 + N.shiftl (byte 0%nat) 2
     + N.shiftr (byte 1%nat) 4)%N in
  let unit := (55232 + top)%N in
  String (ascii_of_N 237)
    (String (ascii_of_N (128 + N.land (N.shiftr unit 6) 63))
       (String (ascii_of_N (128 + N.land unit 63)) EmptyString)).

(** The first [n] code units of [s], after [tail] more bytes of a
    sequence already taken. *)
Fixpoint substring_from (n tail : nat) (s : string) : string :=
  match s with
  | EmptyString => EmptyString
  | String c rest =>
      match tail with
      | S k => String c (substring_from n k rest)
      | O =>
          if (utf16_units c <=? n)%nat then
            String c (substring_from (n - utf16_units c) (utf8_tail c) rest)
          else if (n =? 0)%nat then EmptyString
          else
            (* one code unit is left and the character is a pair *)
            high_surrogate c rest
      end
  end.

(** [s.substring(0, n)]: the first [n] code units. *)
Definition substring0 (n : nat) (s : string) : string := substring_from n 0 s.

(** *** [parseInt(s)] without a radix

    Leading white space is skipped, a sign is read, a [0x] prefix
    selects base 16, then the longest run of digits is read.  [None]
    is NaN.  The result is the exact integer: the rounding of values
    beyond 2^53 is not modelled. *)
Definition is_space (c : ascii) : bool :=
  let n := N_of_ascii c in
  ((n =? 32) || ((9 <=? n) && (n <=? 13)))%N.

Fixpoint skip_space (s : string) : string :=
  match s with
  | String c rest => if is_space c then skip_space rest else s
  | EmptyString => s
  end.

Definition digit_of (radix : Z) (c : ascii) : option Z :=
  let n := Z.of_N (N_of_ascii c) in
  let d :=
    if (48 <=? n) && (n <=? 57) then Some (n - 48)
    else if (97 <=? n) && (n <=? 122) then Some (n - 87)
    else if (65 <=? n) && (n <=? 90) then Some (n - 55)
    else None in
  match d with
  | Some v => if v <? radix then Some v else None
  | None => None
  end.

Fixpoint digits (radix : Z) (acc : option Z) (s : string) : option Z :=
  match s with
  | String c rest =>
      match digit_of radix c with
      | Some d => digits radix (Some (default 0 acc * radix + d)) rest
      | None => acc
      end
  | EmptyString => acc
  end.

Definition parseInt_string (s : string) : option Z :=
  let s := skip_space s in
  let '(sign, s) :=
    match s with
    | String "-" rest => (-1, rest)
    | String "+" rest => (1, rest)
    | _ => (1, s)
    end in
  let '(radix, s) :=
    match s with
    | String "0" (String "x" rest) => (16, rest)
    | String "0" (String "X" rest) => (16, rest)
    | _ => (10, s)
    end in
  match digits radix None s with
  | Some n => Some (sign * n)
  | None => None
  end.

(** [parseInt(v)] for [v] a string or [undefined]; [undefined] reads as
    the text "undefined", which has no digits. *)
Definition parseInt (v : option string) : option Z :=
  match v with
  | Some s => parseInt_string s
  | None => parseInt_string "undefined"
  end.

(** [n || d] for a number [n] out of [parseInt]: NaN and 0 are falsy. *)
Definition num_or (n : option Z) (d : Z) : Z :=
  match n with
  | Some v => if v =? 0 then d else v
  | None => d
  end.

End JS.
Import JS.

(** ** Data exchanged with the services *)

(** The record [parseMessage] builds from a Gmail message. *)
Module Email.
Record t := Make {
  id : string;
  threadId : string;
  labelIds : list string;
  from : string;
  to : string;
  subject : string;
  date : string;
  snippet : string;
  body : string
}.
End Email.

(** One entry of [data.history]: the ids of its [messagesAdded], when the
    entry has that field. *)
Record history_item := { messagesAdded : option (list string) }.

(** The answer of [users.history.list]: [history] is absent when nothing
    changed. *)
Record history_data := {
  history : option (list history_item);
  historyId : string
}.

(** The content of [processed.json]: what [saveProcessedIds] writes and
    what [loadProcessedIds] reads back after [JSON.parse].  A field that
    is missing or [null] is [None]. *)
Record processed_file := {
  pf_ids : option (list string);
  pf_historyId : option string;
  pf_savedAt : string
}.

(** What the classifier returns.  [reason] is whatever value ends up in
    the field. *)
Record classification_result := {
  classification : string;
  confidence : jsnum;
  reason : json
}.

(** What [applyClassification] returns. *)
Inductive applied :=
| Trashed
| Labelled (addLabels removeLabels : list string).

(** The non-null result of [processMessage]. *)
Record processed := {
  p_messageId : string;
  p_subject : string;
  p_from : string;
  p_classification : string;
  p_confidence : jsnum;
  p_reason : json
}.

(** The handle [setInterval] returns. *)
Inductive timer := Timer (intervalMs : Z).

(** The [stats] object of the watcher. *)
Record Stats := {
  totalProcessed : Z;
  important : Z;
  review : Z;
  junk : Z;
  errors : Z;
  lastRun : option string;
  isRunning : bool
}.

(** A call that leaves the process. *)
Inductive call :=
| GmailGet (id : string)
| GmailModify (id : string) (addLabelIds removeLabelIds : list string)
| GmailTrash (id : string)
| GmailList (maxResults : Z) (q : string)
| GmailHistoryList (startHistoryId : string)
| GmailGetProfile
| GmailLabelsList
| GmailLabelsCreate (name : string)
| LoadTokens
| OpenAICreate (userMessage : string)
| FsReadFile
| FsMkdir
| FsWriteFile (content : processed_file)
| SetInterval (intervalMs : Z)
| ClearInterval (handle : timer).

(** ** The outside world

    [W] is the state of everything outside the process.  Each operation
    takes the world to a new world and either returns or throws.
    - [messages_get] is [gmail.users.messages.get] followed by
      [parseMessage];
    - [messages_list] gives the ids of [data.messages], [None] when the
      field is absent;
    - [labels_list] gives [data.labels || []] as pairs of an id and a
      name, [labels_create] the id of the new label;
    - [loadTokens] tells whether stored tokens were found;
    - [completions_create] is [openai.chat.completions.create] followed
      by reading [response.choices[0].message.content] and [JSON.parse]:
      a failure of any of the three is its [Throw];
    - [fs_readFile] is [fs.readFile] followed by [JSON.parse], for a file
      of the layout [saveProcessedIds] writes;
    - [now] is [new Date().toISOString()];
    - [toString] is the text a value takes inside a template literal. *)
Class Services (W : Type) := {
  messages_get : string -> W -> outcome Email.t * W;
  messages_modify : string -> list string -> list string -> W -> outcome unit * W;
  messages_trash : string -> W -> outcome unit * W;
  messages_list : Z -> string -> W -> outcome (option (list string)) * W;
  history_list : string -> W -> outcome history_data * W;
  getProfile_historyId : W -> outcome string * W;
  labels_list : W -> outcome (list (string * string)) * W;
  labels_create : string -> W -> outcome string * W;
  loadTokens : W -> outcome bool * W;
  completions_create : string -> W -> outcome json * W;
  fs_readFile : W -> outcome processed_file * W;
  fs_mkdir : W -> outcome unit * W;
  fs_writeFile : processed_file -> W -> outcome unit * W;
  now : W -> string * W;
  toString : option json -> string
}.

(** ** The state of the process *)

Section Program.
Context {W : Type} `{SV : Services W}.

Record state := State {
  (* services/gmail.js *)
  gmail : bool;                         (* [gmail !== null] *)
  labelIds : gmap string string;
  (* services/classifier.js *)
  openai : bool;                        (* [openai !== null] *)
  (* services/emailWatcher.js *)
  watcherInterval : option timer;
  lastHistoryId : option string;
  processedIds : list string;           (* a Set, in insertion order *)
  stats : Stats;
  (* process.env *)
  OPENAI_API_KEY : option string;
  POLL_INTERVAL_MS : option string;
  (* outside *)
  world : W;
  trace : list call
}.

Definition set_gmail (v : bool) (s : state) : state :=
  State v (labelIds s) (openai s) (watcherInterval s) (lastHistoryId s)
    (processedIds s) (stats s) (OPENAI_API_KEY s) (POLL_INTERVAL_MS s)
    (world s) (trace s).

Definition set_labelIds (v : gmap string string) (s : state) : state :=
  State (gmail s) v (openai s) (watcherInterval s) (lastHistoryId s)
    (processedIds s) (stats s) (OPENAI_API_KEY s) (POLL_INTERVAL_MS s)
    (world s) (trace s).

Definition set_openai (v : bool) (s : state) : state :=
  State (gmail s) (labelIds s) v (watcherInterval s) (lastHistoryId s)
    (processedIds s) (stats s) (OPENAI_API_KEY s) (POLL_INTERVAL_MS s)
    (world s) (trace s).

Definition set_watcherInterval (v : option timer) (s : state) : state :=
  State (gmail s) (labelIds s) (openai s) v (lastHistoryId s)
    (processedIds s) (stats s) (OPENAI_API_KEY s) (POLL_INTERVAL_MS s)
    (world s) (trace s).

Definition set_lastHistoryId (v : option string) (s : state) : state :=
  State (gmail s) (labelIds s) (openai s) (watcherInterval s) v
    (processedIds s) (stats s) (OPENAI_API_KEY s) (POLL_INTERVAL_MS s)
    (world s) (trace s).

Definition set_processedIds (v : list string) (s : state) : state :=
  State (gmail s) (labelIds s) (openai s) (watcherInterval s) (lastHistoryId s)
    v (stats s) (OPENAI_API_KEY s) (POLL_INTERVAL_MS s)
    (world s) (trace s).

Definition set_stats (v : Stats) (s : state) : state :=
  State (gmail s) (labelIds s) (openai s) (watcherInterval s) (lastHistoryId s)
    (processedIds s) v (OPENAI_API_KEY s) (POLL_INTERVAL_MS s)
    (world s) (trace s).

Definition set_outside (w : W) (tr : list call) (s : state) : state :=
  State (gmail s) (labelIds s) (openai s) (watcherInterval s) (lastHistoryId s)
    (processedIds s) (stats s) (OPENAI_API_KEY s) (POLL_INTERVAL_MS s)
    w tr.

(** The calls made between [s] and a later state [s']. *)
Definition new_calls (s s' : state) : list call :=
  drop (length (trace s)) (trace s').

(** ** Code as state transformers that may throw *)

Definition M (A : Type) : Type := state -> outcome A * state.

Definition ret {A} (a : A) : M A := fun s => (Ok a, s).

Definition throw {A} (e : exn) : M A := fun s => (Throw e, s).

Definition bind {A B} (m : M A) (k : A -> M B) : M B :=
  fun s =>
    match m s with
    | (Ok a, s') => k a s'
    | (Throw e, s') => (Throw e, s')
    end.

(** [try { m } catch (error) { handler error }]. *)
Definition try_catch {A} (m : M A) (handler : exn -> M A) : M A :=
  fun s =>
    match m s with
    | (Ok a, s') => (Ok a, s')
    | (Throw e, s') => handler e s'
    end.

Definition gets {A} (f : state -> A) : M A := fun s => (Ok (f s), s).

Definition modify (f : state -> state) : M unit := fun s => (Ok tt, f s).

(** A call to the outside: the world moves on and the call is recorded. *)
Definition extern {A} (c : call) (op : W -> outcome A * W) : M A :=
  fun s =>
    let '(r, w) := op (world s) in
    (r, set_outside w (trace s ++ [c]) s).

End Program.

Arguments state W : clear implicits.
Arguments M W A : clear implicits.

Declare Scope js_scope.
Delimit Scope js_scope with js.
Notation "x <- m ;; k" := (bind m (fun x => k))
  (at level 100, m at next level, right associativity) : js_scope.
Notation "m ;;; k" := (bind m (fun _ => k))
  (at level 100, right associativity) : js_scope.

Local Open Scope js_scope.

Section Code.
Context {W : Type} `{SV : Services W}.

Definition lift {A} (r : outcome A) : M W A := fun s => (r, s).

(** [for (const x of xs) { await body(x); }] *)
Fixpoint for_each {A} (xs : list A) (body : A -> M W unit) : M W unit :=
  match xs with
  | [] => ret tt
  | x :: rest => body x;;; for_each rest body
  end.

(** [await Promise.all(ms)]: every computation is started, so every one
    runs; the result is the list of the values, or the first failure.  The
    computations run one after the other, in the order of the array. *)
Fixpoint promise_all {A} (ms : list (M W A)) : M W (list A) :=
  match ms with
  | [] => ret []
  | m :: rest =>
      fun s =>
        let '(r, s1) := m s in
        let '(rs, s2) := promise_all rest s1 in
        (match r, rs with
         | Ok a, Ok l => Ok (a :: l)
         | Throw e, _ => Throw e
         | Ok _, Throw e => Throw e
         end, s2)
  end.

(** [new Date().toISOString()]: reads the clock, no call is recorded. *)
Definition clock : M W string :=
  fun s => let '(t, w) := now (world s) in (Ok t, set_outside w (trace s) s).

(** ** services/gmail.js *)

Definition LABELS : list (string * string) :=
  [("IMPORTANT", "AI-Important"); ("REVIEW", "AI-Review"); ("JUNK", "AI-Junk")].

(** [labelIds[key] = id] *)
Definition store_labelId (key id : string) : M W unit :=
  modify (fun s => set_labelIds (<[key := id]> (labelIds s)) s).

Definition ensureLabels : M W unit :=
  ready <- gets gmail;;
  if negb ready then ret tt
  else
    try_catch
      (existingLabels <- extern GmailLabelsList labels_list;;
       for_each LABELS (fun '(key, labelName) =>
         match find (fun l => String.eqb (snd l) labelName) existingLabels with
         | Some existing => store_labelId key (fst existing)
         | None =>
             newLabel <- extern (GmailLabelsCreate labelName) (labels_create labelName);;
             store_labelId key newLabel
         end))
      (fun error => throw error).

Definition initializeGmail : M W bool :=
  tokens <- extern LoadTokens loadTokens;;
  if negb tokens then ret false
  else
    modify (set_gmail true);;;
    (* Ensure custom labels exist *)
    ensureLabels;;;
    ret true.

Definition isAuthenticated : M W bool := gets gmail.

(** [if (!gmail) throw new Error('Gmail not initialized')] *)
Definition require_gmail : M W unit :=
  ready <- gets gmail;;
  if ready then ret tt else throw (mkError "Gmail not initialized").

(** [getProfile] followed by [.historyId]. *)
Definition getHistoryId : M W string :=
  require_gmail;;;
  extern GmailGetProfile getProfile_historyId.

(** [null] ([None]) when the history id is too old (code 404). *)
Definition listHistory (startHistoryId : string) : M W (option history_data) :=
  require_gmail;;;
  try_catch
    (data <- extern (GmailHistoryList startHistoryId) (history_list startHistoryId);;
     ret (Some data))
    (fun error =>
       match code error with
       | NumCode 404 => ret None
       | _ => throw error
       end).

Definition getMessage (messageId : string) : M W Email.t :=
  require_gmail;;;
  extern (GmailGet messageId) (messages_get messageId).

Definition modifyLabels (messageId : string) (addLabelIds removeLabelIds : list string)
  : M W unit :=
  require_gmail;;;
  extern (GmailModify messageId addLabelIds removeLabelIds)
    (messages_modify messageId addLabelIds removeLabelIds).

Definition trashMessage (messageId : string) : M W unit :=
  require_gmail;;;
  extern (GmailTrash messageId) (messages_trash messageId).

(** [labelIds[classification]] is looked up among the keys [ensureLabels]
    stored; an absent or empty id is falsy. *)
Definition applyClassification (messageId classification : string) : M W applied :=
  if String.eqb classification "JUNK" then
    trashMessage messageId;;;
    ret Trashed
  else
    ids <- gets labelIds;;
    let labelId := ids !! classification in
    if negb (truthy_str labelId) then
      throw (mkError ("Unknown classification: " +:+ classification))
    else
      let addLabels := [default "" labelId] in
      let removeLabels :=
        if String.eqb classification "REVIEW" then ["INBOX"] else [] in
      modifyLabels messageId addLabels removeLabels;;;
      ret (Labelled addLabels removeLabels).

Definition getRecentMessages (maxResults : Z) : M W (list Email.t) :=
  require_gmail;;;
  data <- extern (GmailList maxResults "in:inbox") (messages_list maxResults "in:inbox");;
  match data with
  | None => ret []
  | Some ids => promise_all (map getMessage ids)
  end.

(** ** services/classifier.js *)

Definition initializeOpenAI : M W unit :=
  key <- gets OPENAI_API_KEY;;
  if negb (truthy_str key) then throw (mkError "OPENAI_API_KEY not set")
  else modify (set_openai true).

Definition newline : string := String (ascii_of_N 10) EmptyString.

Definition buildClassificationMessage (email : Email.t) : string :=
  "Classify this email:" +:+ newline +:+ newline +:+
  "FROM: " +:+ Email.from email +:+ newline +:+
  "SUBJECT: " +:+ Email.subject email +:+ newline +:+
  "DATE: " +:+ Email.date email +:+ newline +:+
  "SNIPPET: " +:+ Email.snippet email +:+ newline +:+ newline +:+
  (if negb (String.eqb (Email.body email) "")
   then "BODY PREVIEW:" +:+ newline +:+ substring0 1000 (Email.body email)
   else "").

Definition CATEGORIES : list string := ["IMPORTANT"; "REVIEW"; "JUNK"].

(** The fallback of the [catch] block. *)
Definition classification_error (error : exn) : classification_result :=
  {| classification := "REVIEW";
     confidence := JFin 0;
     reason := JStr ("Classification error: " +:+ message error) |}.

(** The body of the [try] block once [result] is parsed. *)
Definition validate_result (result : json) : M W classification_result :=
  cls <- lift (get_prop result "classification");;
  match cls with
  | Some (JStr c) =>
      if negb (includes c CATEGORIES) then
        throw (mkError ("Invalid classification: " +:+ toString cls))
      else
        conf <- lift (get_prop result "confidence");;
        let confidence :=
          match conf with
          | Some (JNum n) =>
              if num_lt n (JFin 0) || num_lt (JFin 1) n then JFin (1 # 2) else n
          | _ => JFin (1 # 2)
          end in
        rsn <- lift (get_prop result "reason");;
        let reason :=
          match rsn with
          | Some v => if truthy v then v else JStr "No reason provided"
          | None => JStr "No reason provided"
          end in
        ret {| classification := c; confidence := confidence; reason := reason |}
  | _ => throw (mkError ("Invalid classification: " +:+ toString cls))
  end.

(** The whole [try] block of [classifyEmail]: the request, then the
    validation of its parsed content. *)
Definition classify_attempt (userMessage : string) : M W classification_result :=
  result <- extern (OpenAICreate userMessage) (completions_create userMessage);;
  validate_result result.

Definition classifyEmail (email : Email.t) : M W classification_result :=
  ready <- gets openai;;
  (if negb ready then initializeOpenAI else ret tt);;;
  let userMessage := buildClassificationMessage email in
  try_catch
    (classify_attempt userMessage)
    (* Default to REVIEW on error to be safe *)
    (fun error => ret (classification_error error)).

Definition isOpenAIReady : M W bool :=
  s <- gets (fun s => s);;
  ret (openai s || truthy_str (OPENAI_API_KEY s)).

(** ** services/emailWatcher.js *)

Definition initial_stats : Stats :=
  {| totalProcessed := 0; important := 0; review := 0; junk := 0; errors := 0;
     lastRun := None; isRunning := false |}.

(** [stats.totalProcessed++] *)
Definition incr_totalProcessed (st : Stats) : Stats :=
  {| totalProcessed := totalProcessed st + 1; important := important st;
     review := review st; junk := junk st; errors := errors st;
     lastRun := lastRun st; isRunning := isRunning st |}.

(** [stats.errors++] *)
Definition incr_errors (st : Stats) : Stats :=
  {| totalProcessed := totalProcessed st; important := important st;
     review := review st; junk := junk st; errors := errors st + 1;
     lastRun := lastRun st; isRunning := isRunning st |}.

(** [stats[key]++] for a lower-case [key].  The keys [totalProcessed],
    [lastRun] and [isRunning] have a capital and are never hit; any other
    key would add a new property and leaves the seven fields alone. *)
Definition incr_key (key : string) (st : Stats) : Stats :=
  if String.eqb key "important" then
    {| totalProcessed := totalProcessed st; important := important st + 1;
       review := review st; junk := junk st; errors := errors st;
       lastRun := lastRun st; isRunning := isRunning st |}
  else if String.eqb key "review" then
    {| totalProcessed := totalProcessed st; important := important st;
       review := review st + 1; junk := junk st; errors := errors st;
       lastRun := lastRun st; isRunning := isRunning st |}
  else if String.eqb key "junk" then
    {| totalProcessed := totalProcessed st; important := important st;
       review := review st; junk := junk st + 1; errors := errors st;
       lastRun := lastRun st; isRunning := isRunning st |}
  else if String.eqb key "errors" then incr_errors st
  else st.

Definition set_lastRun (t : option string) (st : Stats) : Stats :=
  {| totalProcessed := totalProcessed st; important := important st;
     review := review st; junk := junk st; errors := errors st;
     lastRun := t; isRunning := isRunning st |}.

Definition set_isRunning (b : bool) (st : Stats) : Stats :=
  {| totalProcessed := totalProcessed st; important := important st;
     review := review st; junk := junk st; errors := errors st;
     lastRun := lastRun st; isRunning := b |}.

Definition update_stats (f : Stats -> Stats) : M W unit :=
  modify (fun s => set_stats (f (stats s)) s).

(** [processedIds.add(messageId)] *)
Definition mark_processed (messageId : string) : M W unit :=
  modify (fun s => set_processedIds (set_add messageId (processedIds s)) s).

Definition loadProcessedIds : M W unit :=
  try_catch
    (parsed <- extern FsReadFile fs_readFile;;
     modify (set_processedIds (set_of_array (default [] (pf_ids parsed))));;;
     modify (set_lastHistoryId
               (if truthy_str (pf_historyId parsed) then pf_historyId parsed else None)))
    (fun error => modify (set_processedIds [])).

Definition saveProcessedIds : M W unit :=
  extern FsMkdir fs_mkdir;;;
  (* Keep only last 10000 IDs to prevent unbounded growth *)
  idsArray <- gets processedIds;;
  (if Z.of_nat (length idsArray) >? 10000 then
     let trimmed := slice (-10000) idsArray in
     modify (set_processedIds (set_of_array trimmed))
   else ret tt);;;
  ids <- gets processedIds;;
  cursor <- gets lastHistoryId;;
  savedAt <- clock;;
  let content :=
    {| pf_ids := Some ids; pf_historyId := cursor; pf_savedAt := savedAt |} in
  extern (FsWriteFile content) (fs_writeFile content).

Definition ourLabels : list string := ["AI-Important"; "AI-Review"; "AI-Junk"].

(** The name [classifyEmail] inside [services/emailWatcher.js].  The
    module imports [isAuthenticated], [getHistoryId], [listHistory],
    [getMessage], [applyClassification] and [getRecentMessages] from
    [./gmail.js], nothing from [./classifier.js], and declares no
    [classifyEmail] of its own, so evaluating [classifyEmail(email)]
    throws a ReferenceError. *)
Definition watcher_classifyEmail (email : Email.t) : M W classification_result :=
  throw (mkError "classifyEmail is not defined").

Definition processMessage (messageId : string) : M W (option processed) :=
  seen <- gets processedIds;;
  if includes messageId seen then ret None
  else
    try_catch
      (email <- getMessage messageId;;
       (* Skip if not in inbox (already processed or archived) *)
       if negb (includes "INBOX" (Email.labelIds email)) then
         mark_processed messageId;;;
         ret None
       (* Skip if already has our labels *)
       else if existsb (fun id => includes id ourLabels) (Email.labelIds email) then
         mark_processed messageId;;;
         ret None
       else
         result <- watcher_classifyEmail email;;
         applyClassification messageId (classification result);;;
         mark_processed messageId;;;
         update_stats incr_totalProcessed;;;
         update_stats (incr_key (toLowerCase (classification result)));;;
         ret (Some {| p_messageId := messageId;
                      p_subject := Email.subject email;
                      p_from := Email.from email;
                      p_classification := classification result;
                      p_confidence := confidence result;
                      p_reason := reason result |}))
      (fun error =>
         update_stats incr_errors;;;
         ret None).

(** The ids of the [messagesAdded] of every history entry, in order. *)
Definition added_ids (items : list history_item) : list string :=
  flat_map (fun item => default [] (messagesAdded item)) items.

(** [poll], the block [if (lastHistoryId) { ... }]: incremental sync.
    Returns [messagesToProcess]. *)
Definition poll_incremental : M W (list string) :=
  cursor <- gets lastHistoryId;;
  if truthy_str cursor then
    data <- listHistory (default "" cursor);;
    match data with
    | None =>
        (* History too old, do full sync *)
        modify (set_lastHistoryId None);;;
        ret []
    | Some h =>
        match history h with
        | Some items =>
            modify (set_lastHistoryId (Some (historyId h)));;;
            ret (added_ids items)
        | None =>
            (* No new messages *)
            modify (set_lastHistoryId (Some (historyId h)));;;
            ret []
        end
    end
  else ret [].

(** The full sync proper: the body of [if (!lastHistoryId) { ... }]. *)
Definition full_sync : M W (list string) :=
  messages <- getRecentMessages 20;;
  h <- getHistoryId;;
  modify (set_lastHistoryId (Some h));;;
  ret (map Email.id messages).

(** [poll], the block [if (!lastHistoryId) { ... }]. *)
Definition poll_full (messagesToProcess : list string) : M W (list string) :=
  cursor <- gets lastHistoryId;;
  if negb (truthy_str cursor) then full_sync else ret messagesToProcess.

(** The body of the loop of [poll]: [await processMessage(messageId)]. *)
Definition process_one (messageId : string) : M W unit :=
  processMessage messageId;;; ret tt.

(** [poll], the block [if (messagesToProcess.length > 0) { ... }]. *)
Definition poll_process (messagesToProcess : list string) : M W unit :=
  if 0 <? Z.of_nat (length messagesToProcess) then
    for_each messagesToProcess process_one;;;
    saveProcessedIds
  else ret tt.

(** Which candidates a cycle resolves: the two sync blocks in a row. *)
Definition resolve_candidates : M W (list string) :=
  messagesToProcess <- poll_incremental;;
  poll_full messagesToProcess.

Definition poll : M W unit :=
  authenticated <- isAuthenticated;;
  if negb authenticated then ret tt
  else
    try_catch
      (t <- clock;;
       update_stats (set_lastRun (Some t));;;
       messagesToProcess <- resolve_candidates;;
       poll_process messagesToProcess)
      (fun error => update_stats incr_errors).

(** [setInterval(poll, intervalMs)] *)
Definition setInterval (intervalMs : Z) : M W timer :=
  extern (SetInterval intervalMs) (fun w => (Ok (Timer intervalMs), w)).

Definition clearInterval (handle : timer) : M W unit :=
  extern (ClearInterval handle) (fun w => (Ok tt, w)).

Definition startWatcher : M W bool :=
  running <- gets watcherInterval;;
  match running with
  | Some _ => ret false
  | None =>
      authenticated <- isAuthenticated;;
      if negb authenticated then throw (mkError "Not authenticated with Gmail")
      else
        loadProcessedIds;;;
        env <- gets POLL_INTERVAL_MS;;
        let intervalMs := num_or (parseInt env) 60000 in
        (* Run immediately *)
        poll;;;
        (* Then schedule periodic polls *)
        handle <- setInterval intervalMs;;
        modify (set_watcherInterval (Some handle));;;
        update_stats (set_isRunning true);;;
        ret true
  end.

Definition stopWatcher : M W bool :=
  running <- gets watcherInterval;;
  match running with
  | Some handle =>
      clearInterval handle;;;
      modify (set_watcherInterval None);;;
      update_stats (set_isRunning false);;;
      ret true
  | None => ret false
  end.

(** [{ ...stats, processedCount: processedIds.size }] *)
Definition getWatcherStatus : M W (Stats * Z) :=
  s <- gets (fun s => s);;
  ret (stats s, Z.of_nat (length (processedIds s))).

Definition isWatcherRunning : M W bool :=
  running <- gets watcherInterval;;
  ret (match running with Some _ => true | None => false end).

(** ** routes/api.js *)

(** The JSON answer of a watcher route: the HTTP status, the [success]
    field and the text of [message] or [error]. *)
Record reply := { status : Z; success : bool; text : string }.

(** [POST /watcher/start] *)
Definition route_watcher_start : M W reply :=
  try_catch
    (running <- isWatcherRunning;;
     if running then
       ret {| status := 200; success := true; text := "Watcher already running" |}
     else
       startWatcher;;;
       ret {| status := 200; success := true; text := "Watcher started" |})
    (fun error => ret {| status := 500; success := false; text := message error |}).

End Code.

(** ** A mailbox to run the code against

    A small executable world: a list of messages, the mailbox's current
    history id, a script of answers of the model, one file and a clock.
    A history id other than the current one is reported as expired; a
    message id that the mailbox does not hold is a 404. *)

Module Sim.

Record sim := {
  mailbox : list Email.t;
  cursor : string;
  replies : list (outcome json);
  file : option processed_file;
  time : string;
  tokens : bool;
  remote_labels : outcome (list (string * string))
}.

Definition not_found : exn := Error "Not Found" (NumCode 404).

Definition find_message (id : string) (w : sim) : option Email.t :=
  find (fun m => String.eqb (Email.id m) id) (mailbox w).

Definition with_mailbox (mb : list Email.t) (w : sim) : sim :=
  {| mailbox := mb; cursor := cursor w; replies := replies w; file := file w;
     time := time w; tokens := tokens w; remote_labels := remote_labels w |}.

Definition with_replies (rs : list (outcome json)) (w : sim) : sim :=
  {| mailbox := mailbox w; cursor := cursor w; replies := rs; file := file w;
     time := time w; tokens := tokens w; remote_labels := remote_labels w |}.

Definition with_file (f : option processed_file) (w : sim) : sim :=
  {| mailbox := mailbox w; cursor := cursor w; replies := replies w; file := f;
     time := time w; tokens := tokens w; remote_labels := remote_labels w |}.

Definition with_remote_labels (ls : outcome (list (string * string))) (w : sim) : sim :=
  {| mailbox := mailbox w; cursor := cursor w; replies := replies w; file := file w;
     time := time w; tokens := tokens w; remote_labels := ls |}.

Definition relabel (add remove : list string) (m : Email.t) : Email.t :=
  Email.Make (Email.id m) (Email.threadId m)
    (filter (fun l => negb (includes l remove)) (Email.labelIds m) ++ add)
    (Email.from m) (Email.to m) (Email.subject m) (Email.date m)
    (Email.snippet m) (Email.body m).

Definition sim_get (id : string) (w : sim) : outcome Email.t * sim :=
  match find_message id w with
  | Some m => (Ok m, w)
  | None => (Throw not_found, w)
  end.

Definition sim_modify (id : string) (add remove : list string) (w : sim)
  : outcome unit * sim :=
  match find_message id w with
  | Some _ =>
      (Ok tt,
       with_mailbox
         (map (fun m => if String.eqb (Email.id m) id then relabel add remove m else m)
            (mailbox w)) w)
  | None => (Throw not_found, w)
  end.

Definition sim_trash (id : string) (w : sim) : outcome unit * sim :=
  match find_message id w with
  | Some _ =>
      (Ok tt,
       with_mailbox (filter (fun m => negb (String.eqb (Email.id m) id)) (mailbox w)) w)
  | None => (Throw not_found, w)
  end.

Definition sim_list (maxResults : Z) (q : string) (w : sim)
  : outcome (option (list string)) * sim :=
  let inbox := filter (fun m => includes "INBOX" (Email.labelIds m)) (mailbox w) in
  match take (Z.to_nat maxResults) (map Email.id inbox) with
  | [] => (Ok None, w)
  | ids => (Ok (Some ids), w)
  end.

Definition sim_history (start : string) (w : sim) : outcome history_data * sim :=
  if String.eqb start (cursor w)
  then (Ok {| history := None; historyId := cursor w |}, w)
  else (Throw not_found, w).

Definition sim_create (userMessage : string) (w : sim) : outcome json * sim :=
  match replies w with
  | r :: rest => (r, with_replies rest w)
  | [] => (Throw (mkError "Connection error."), w)
  end.

Definition sim_read (w : sim) : outcome processed_file * sim :=
  match file w with
  | Some f => (Ok f, w)
  | None => (Throw (Error "ENOENT: no such file or directory" (StrCode "ENOENT")), w)
  end.

Definition sim_write (content : processed_file) (w : sim) : outcome unit * sim :=
  (Ok tt, with_file (Some content) w).

Definition sim_toString (v : option json) : string :=
  match v with
  | None => "undefined"
  | Some JNull => "null"
  | Some (JBool true) => "true"
  | Some (JBool false) => "false"
  | Some (JStr s) => s
  | Some (JNum _) => "0"
  | Some (JArr _) => ""
  | Some (JObj _) => "[object Object]"
  end.

#[global] Instance sim_services : Services sim := {
  messages_get := sim_get;
  messages_modify := sim_modify;
  messages_trash := sim_trash;
  messages_list := sim_list;
  history_list := sim_history;
  getProfile_historyId := fun w => (Ok (cursor w), w);
  labels_list := fun w => (remote_labels w, w);
  labels_create := fun name w => (Ok ("Label_" +:+ name), w);
  loadTokens := fun w => (Ok (tokens w), w);
  completions_create := sim_create;
  fs_readFile := sim_read;
  fs_mkdir := fun w => (Ok tt, w);
  fs_writeFile := sim_write;
  now := fun w => (time w, w);
  toString := sim_toString
}.

Definition message (id subject : string) (labels : list string) : Email.t :=
  Email.Make id ("t-" +:+ id) labels "alice@example.org" "me@example.org"
    subject "Mon, 2 Nov 2026 09:00:00 +0000" subject "".

(** The answer of the model as [JSON.parse] gives it. *)
Definition answer (category : string) (conf : Q) (why : json) : outcome json :=
  Ok (JObj [("classification", JStr category); ("confidence", JNum (JFin conf));
            ("reason", why)]).

(** Three inbox messages, the model says IMPORTANT, REVIEW, JUNK. *)
Definition three_messages : sim :=
  {| mailbox := [message "a" "Invoice" ["INBOX"; "UNREAD"];
                 message "b" "Newsletter" ["INBOX"];
                 message "c" "You won" ["INBOX"]];
     cursor := "1001";
     replies := [answer "IMPORTANT" (9 # 10) (JStr "bill");
                 answer "REVIEW" (7 # 10) (JStr "newsletter");
                 answer "JUNK" (99 # 100) (JStr "scam")];
     file := None;
     time := "2026-11-02T09:00:00.000Z";
     tokens := true;
     remote_labels := Ok [("Label_1", "AI-Important"); ("Label_2", "AI-Review");
                          ("Label_3", "AI-Junk")] |}.

Definition labels : gmap string string :=
  {[ "IMPORTANT" := "Label_1"; "REVIEW" := "Label_2"; "JUNK" := "Label_3" ]}.

(** The process after [initializeGmail] and [initializeOpenAI], before the
    watcher is started. *)
Definition booted (w : sim) : state sim :=
  State true labels true None None [] initial_stats (Some "sk-test") None w [].

End Sim.

(** ** Vocabulary of the properties *)

(** A well-formed classification result: a known category, a confidence
    between 0 and 1, a reason that is a non-empty string. *)
Definition known_category (r : classification_result) : Prop :=
  classification r ∈ CATEGORIES.

Definition confidence_in_range (r : classification_result) : Prop :=
  exists q, confidence r = JFin q /\ (0 <= q)%Q /\ (q <= 1)%Q.

Definition reason_is_text (r : classification_result) : Prop :=
  exists text, reason r = JStr text /\ text <> "".

Definition well_formed (r : classification_result) : Prop :=
  known_category r /\ confidence_in_range r /\ reason_is_text r.

(** An answer of the model whose [classification] is not one of the
    three category names (not a string, missing, or another string). *)
Definition invalid_answer (result : json) : Prop :=
  forall c, get_prop result "classification" = Ok (Some (JStr c)) -> c ∉ CATEGORIES.

(** The four counters of the classified messages. *)
Definition tally (st : Stats) : Z * Z * Z * Z :=
  (totalProcessed st, important st, review st, junk st).



Section Vocabulary.
Context {W : Type} `{SV : Services W}.

(** Processing [messageId] from [s] raises [e] inside the [try] block of
    [processMessage], leaving the state [sf]: the fetch raises, or the
    record is fetched, is in the inbox, carries none of [ourLabels], and
    its classification raises.  The application of the classification
    comes after the classification. *)
Inductive step_raises (messageId : string) (s : state W) (e : exn) (sf : state W)
  : Prop :=
| fetch_raises :
    getMessage messageId s = (Throw e, sf) ->
    step_raises messageId s e sf
| classification_raises email s1 :
    getMessage messageId s = (Ok email, s1) ->
    includes "INBOX" (Email.labelIds email) = true ->
    existsb (fun id => includes id ourLabels) (Email.labelIds email) = false ->
    watcher_classifyEmail email s1 = (Throw e, sf) ->
    step_raises messageId s e sf.

(** [s'] differs from [s] at most in the outside world, the trace and the
    OpenAI client: the state of the watcher and of the Gmail module is
    kept. *)
Definition kept (s s' : state W) : Prop :=
  gmail s' = gmail s /\
  labelIds s' = labelIds s /\
  watcherInterval s' = watcherInterval s /\
  lastHistoryId s' = lastHistoryId s /\
  processedIds s' = processedIds s /\
  stats s' = stats s /\
  OPENAI_API_KEY s' = OPENAI_API_KEY s /\
  POLL_INTERVAL_MS s' = POLL_INTERVAL_MS s.

(** The part of the state that processing a message never touches. *)
Definition kept_sync (s s' : state W) : Prop :=
  gmail s' = gmail s /\
  labelIds s' = labelIds s /\
  watcherInterval s' = watcherInterval s /\
  lastHistoryId s' = lastHistoryId s /\
  OPENAI_API_KEY s' = OPENAI_API_KEY s /\
  POLL_INTERVAL_MS s' = POLL_INTERVAL_MS s.

(** How [processMessage] ended: the id was in the ledger, an error was
    counted, or the message was marked without being classified. *)
Inductive ending :=
| Seen
| Failed
| Skipped.

(** The state after the error handler of [processMessage]. *)
Definition after_error (s : state W) : state W := set_stats (incr_errors (stats s)) s.

(** The state after a message is marked without being classified. *)
Definition after_skip (messageId : string) (s : state W) : state W :=
  set_processedIds (set_add messageId (processedIds s)) s.

(** [m] relates every state to the state it leaves, whether it returns
    or throws. *)
Definition preserves (R : relation (state W)) {A} (m : M W A) : Prop :=
  forall s r s', m s = (r, s') -> R s s'.

(** A relation between a state and a later one that calls to the outside
    respect. *)
Class Frame (R : relation (state W)) := {
  frame_preorder :: PreOrder R;
  frame_outside : forall s w l, R s (set_outside w (trace s ++ l) s)
}.

(** The trace only grows. *)
Definition extends (s s' : state W) : Prop :=
  exists l, trace s' = trace s ++ l.

(** The counters of classified messages are unchanged. *)
Definition same_tally (s s' : state W) : Prop :=
  tally (stats s') = tally (stats s).

(** The ledger stays a set: a list without duplicates. *)
Definition stays_set (s s' : state W) : Prop :=
  NoDup (processedIds s) -> NoDup (processedIds s').

(** The sync cursor is unchanged. *)
Definition same_cursor (s s' : state W) : Prop :=
  lastHistoryId s' = lastHistoryId s.

(** [stats.lastRun] is unchanged. *)
Definition same_lastRun (s s' : state W) : Prop :=
  lastRun (stats s') = lastRun (stats s).

(** The request a cycle opens with: the history since the cursor when
    there is one, the listing of the inbox when there is none. *)
Definition first_call (s : state W) : call :=
  if truthy_str (lastHistoryId s)
  then GmailHistoryList (default "" (lastHistoryId s))
  else GmailList 20 "in:inbox".

(** The operations of the three modules. *)
Inductive operation :=
| OpInitializeGmail
| OpGetMessage (messageId : string)
| OpClassifyEmail (email : Email.t)
| OpApplyClassification (messageId classification : string)
| OpLoadProcessedIds
| OpSaveProcessedIds
| OpProcessMessage (messageId : string)
| OpPoll
| OpStartWatcher
| OpStopWatcher
| OpGetWatcherStatus
| OpRouteWatcherStart.

(** The state an operation leaves, whether it returns or throws. *)
Definition run (op : operation) (s : state W) : state W :=
  match op with
  | OpInitializeGmail => snd (initializeGmail s)
  | OpGetMessage messageId => snd (getMessage messageId s)
  | OpClassifyEmail email => snd (classifyEmail email s)
  | OpApplyClassification messageId c => snd (applyClassification messageId c s)
  | OpLoadProcessedIds => snd (loadProcessedIds s)
  | OpSaveProcessedIds => snd (saveProcessedIds s)
  | OpProcessMessage messageId => snd (processMessage messageId s)
  | OpPoll => snd (poll s)
  | OpStartWatcher => snd (startWatcher s)
  | OpStopWatcher => snd (stopWatcher s)
  | OpGetWatcherStatus => snd (getWatcherStatus s)
  | OpRouteWatcherStart => snd (route_watcher_start s)
  end.

End Vocabulary.

(** ** States used as examples *)

Module Cases.
Import Sim.

(** The process when [OPENAI_API_KEY] is not set: [initialize] only logs
    a warning and no client is created. *)
Definition no_api_key : state sim :=
  State true labels false None None [] initial_stats None None three_messages [].

(** The model answers with a number in the place of the reason. *)
Definition numeric_reason : state sim :=
  booted (with_replies [answer "JUNK" (9 # 10) (JNum (JFin 42))] three_messages).

(** The model answers with a category the program does not know. *)
Definition odd_category : state sim :=
  booted (with_replies [answer "SPAM" (9 # 10) (JStr "spam")] three_messages).

Definition invoice : Email.t := message "a" "Invoice" ["INBOX"; "UNREAD"].

(** Message [a] is already in the ledger. *)
Definition seen_a : state sim :=
  set_processedIds ["a"] (booted three_messages).

(** The process holds the cursor "900"; the mailbox is at "1001" and
    answers 404 to a request for the history since "900". *)
Definition stale_cursor : state sim :=
  set_lastHistoryId (Some "900") (booted three_messages).

(** The process restarted over the ledger file of an earlier run, which
    holds [b] and the cursor "1001". *)
Definition restarted : state sim :=
  booted (with_file (Some {| pf_ids := Some ["b"]; pf_historyId := Some "1001";
                             pf_savedAt := "2026-11-01T09:00:00.000Z" |})
            three_messages).

(** The process once [startWatcher] has run. *)
Definition running : state sim :=
  snd (startWatcher (booted three_messages)).

(** Message [a] as the IMPORTANT action leaves it: in the inbox, with the
    label id stored for IMPORTANT; the ledger does not hold it. *)
Definition a_labelled_by_id : state sim :=
  booted (with_replies [answer "IMPORTANT" (9 # 10) (JStr "bill")]
            (with_mailbox [message "a" "Invoice" ["INBOX"; "UNREAD"; "Label_1"]]
               three_messages)).

(** A message id the mailbox does not hold (any more). *)
Definition gone : string := "zzz".

(** A ledger of 10,001 ids, ["0"] the oldest and ["10000"] the newest. *)
Definition many_ids : list string := pretty <$> seq 0 (Z.to_nat 10001).

Definition full_ledger : state sim :=
  set_processedIds many_ids (booted three_messages).

(** Message [b] still in the inbox and already carrying AI-Review. *)
Definition b_already_labelled : state sim :=
  booted (with_mailbox [message "a" "Invoice" ["INBOX"; "UNREAD"];
                        message "b" "Newsletter" ["INBOX"; "AI-Review"]]
            three_messages).

(** The process as its modules are loaded, [OPENAI_API_KEY] set. *)
Definition fresh (w : sim) : state sim :=
  State false ∅ false None None [] initial_stats (Some "sk-test") None w [].

(** [initializeGmail] when [gmail.users.labels.list] fails: the client is
    already assigned, [ensureLabels] rethrows, no label id is stored. *)
Definition no_labels : state sim :=
  snd (initializeGmail
         (fresh (with_remote_labels (Throw (mkError "socket hang up")) three_messages))).

End Cases.

(** * The rest of the modules *)

(** ** services/gmail.js: [parseMessage]

    The message as [gmail.users.messages.get] returns it.  A part of the
    payload has a MIME type, a body that may carry data, and possibly
    child parts; [None] is an absent field. *)

Inductive part :=
| Part (mimeType : string) (data : option string) (parts : option (list part)).

Record raw_message := {
  raw_id : string;
  raw_threadId : string;
  raw_labelIds : option (list string);
  raw_headers : list (string * string);     (* [payload.headers]: name, value *)
  raw_body_data : option string;            (* [payload.body?.data] *)
  raw_parts : option (list part);           (* [payload.parts] *)
  raw_snippet : string
}.

(** The loop [for (const x of xs)] of [extractBody]: the first [return]
    of the body ends it, the empty string is returned after the loop. *)
Definition first_return {A} (body : A -> option string) : list A -> string :=
  fix loop (xs : list A) : string :=
    match xs with
    | [] => ""
    | x :: rest =>
        match body x with
        | Some result => result
        | None => loop rest
        end
    end.

Section Parsing.
(** [Buffer.from(data, 'base64').toString('utf8')] *)
Variable base64_utf8 : string -> string.

(** One turn of the loop of [extractBody]: [Some] is a [return]. *)
Fixpoint extract_part (p : part) : option string :=
  match p with
  | Part mimeType data parts =>
      if String.eqb mimeType "text/plain" && truthy_str data then
        Some (base64_utf8 (default "" data))
      else
        match parts with
        | Some children =>
            let result := first_return extract_part children in
            if negb (String.eqb result "") then Some result else None
        | None => None
        end
  end.

Definition extractBody (parts : option (list part)) : string :=
  match parts with
  | None => ""
  | Some ps => first_return extract_part ps
  end.

(** [headers.find(h => h.name.toLowerCase() === name.toLowerCase())?.value || ''] *)
Definition getHeader (headers : list (string * string)) (name : string) : string :=
  match find (fun h => String.eqb (toLowerCase (fst h)) (toLowerCase name)) headers with
  | Some h => snd h
  | None => ""
  end.

Definition parseMessage (message : raw_message) : Email.t :=
  let body :=
    if truthy_str (raw_body_data message) then
      base64_utf8 (default "" (raw_body_data message))
    else extractBody (raw_parts message) in
  Email.Make (raw_id message) (raw_threadId message)
    (default [] (raw_labelIds message))
    (getHeader (raw_headers message) "From")
    (getHeader (raw_headers message) "To")
    (getHeader (raw_headers message) "Subject")
    (getHeader (raw_headers message) "Date")
    (raw_snippet message)
    body.

End Parsing.

(** The data of the text/plain parts of a tree of parts, depth first. *)
Fixpoint plain_data (p : part) : list string :=
  match p with
  | Part mimeType data parts =>
      (if String.eqb mimeType "text/plain" && truthy_str data
       then [default "" data] else [])
      ++ match parts with
         | Some children => flat_map plain_data children
         | None => []
         end
  end.

(** ** The OAuth client and the token file

    [oauth_getToken] is [client.getToken(code)] followed by [.tokens],
    [tokens_save] is [saveTokens] and [tokens_unlink] is
    [fs.unlink(TOKENS_FILE)].  The tokens are an opaque text.  These
    operations move the world on; the trace does not record them. *)
Class AuthServices (W : Type) := {
  oauth_getToken : string -> W -> outcome string * W;
  tokens_save : string -> W -> outcome unit * W;
  tokens_unlink : W -> outcome unit * W
}.

Section MoreCode.
Context {W : Type} `{SV : Services W} `{AV : AuthServices W}.

(** A call to the outside that the trace does not record. *)
Definition outside {A} (op : W -> outcome A * W) : M W A :=
  fun s =>
    let '(r, w) := op (world s) in
    (r, set_outside w (trace s) s).

(** *** services/tokenStorage.js *)

Definition clearTokens : M W unit :=
  try_catch
    (outside tokens_unlink)
    (fun error =>
       match code error with
       | StrCode "ENOENT" => ret tt
       | _ => throw error
       end).

(** *** services/gmail.js *)

(** [client.setCredentials] acts on the OAuth client only. *)
Definition handleAuthCallback (code : string) : M W string :=
  tokens <- outside (oauth_getToken code);;
  outside (tokens_save tokens);;;
  initializeGmail;;;
  ret tokens.

(** *** routes/auth.js *)

(** What [res.status(n).send(text)] sends; the HTML page of a successful
    authentication is reduced to its title. *)
Record page := { page_status : Z; page_text : string }.

(** [GET /auth/google/callback]; [code] and [error] are the two query
    parameters when they are strings, [None] when absent. *)
Definition route_auth_callback (code error : option string) : M W page :=
  if truthy_str error then
    ret {| page_status := 400;
           page_text := "Authentication error: " +:+ default "" error |}
  else if negb (truthy_str code) then
    ret {| page_status := 400; page_text := "No authorization code received" |}
  else
    try_catch
      (handleAuthCallback (default "" code);;;
       ret {| page_status := 200; page_text := "Authentication Successful" |})
      (fun err =>
         ret {| page_status := 500;
                page_text := "Authentication failed: " +:+ message err |}).

(** [POST /auth/logout] *)
Definition route_logout : M W reply :=
  try_catch
    (clearTokens;;;
     ret {| status := 200; success := true; text := "Logged out successfully" |})
    (fun error => ret {| status := 500; success := false; text := message error |}).

(** *** routes/api.js *)

(** [POST /watcher/stop] *)
Definition route_watcher_stop : M W reply :=
  try_catch
    (stopped <- stopWatcher;;
     ret {| status := 200; success := true;
            text := if stopped then "Watcher stopped" else "Watcher was not running" |})
    (fun error => ret {| status := 500; success := false; text := message error |}).

(** The name [poll] inside [routes/api.js].  The module imports
    [startWatcher], [stopWatcher], [getWatcherStatus] and
    [isWatcherRunning] from the watcher and declares no [poll] of its own,
    so evaluating [poll()] throws a ReferenceError. *)
Definition api_poll : M W unit := throw (mkError "poll is not defined").

(** [GET /watcher/poll]; the statistics of the answer are left out. *)
Definition route_watcher_poll : M W reply :=
  try_catch
    (running <- isWatcherRunning;;
     if running then
       ret {| status := 200; success := true; text := "Watcher already running" |}
     else
       api_poll;;;
       getWatcherStatus;;;
       ret {| status := 200; success := true; text := "Poll completed" |})
    (fun error => ret {| status := 500; success := false; text := message error |}).

(** [Math.min(parseInt(req.query.count) || 10, 50)]; [count] is the query
    parameter when it is a string. *)
Definition recent_count (count : option string) : Z :=
  Z.min (num_or (parseInt count) 10) 50.

(** One message in the answer of [GET /emails/recent]. *)
Record summary := {
  sum_id : string;
  sum_from : string;
  sum_subject : string;
  sum_date : string;
  sum_snippet : string;
  sum_labels : list string
}.

Definition summarize (m : Email.t) : summary :=
  {| sum_id := Email.id m; sum_from := Email.from m; sum_subject := Email.subject m;
     sum_date := Email.date m; sum_snippet := Email.snippet m;
     sum_labels := Email.labelIds m |}.

(** The answer of [GET /emails/recent]: the messages, or a status and an
    error text. *)
Inductive recent_reply :=
| RecentMessages (count : Z) (messages : list summary)
| RecentError (status : Z) (error : string).

(** [GET /emails/recent] *)
Definition route_emails_recent (count : option string) : M W recent_reply :=
  try_catch
    (authenticated <- isAuthenticated;;
     if negb authenticated then ret (RecentError 401 "Not authenticated")
     else
       messages <- getRecentMessages (recent_count count);;
       ret (RecentMessages (Z.of_nat (length messages)) (map summarize messages)))
    (fun error => ret (RecentError 500 (message error))).

(** *** index.js *)

(** [initialize]; [initialized] is the flag of the module and the result
    is its new value.  [AUTO_START_WATCHER] and [VERCEL] are the two
    environment variables.  The check of the required variables only
    logs. *)
Definition initialize (AUTO_START_WATCHER VERCEL : option string)
  (initialized : bool) : M W bool :=
  if initialized then ret true
  else
    key <- gets OPENAI_API_KEY;;
    (* Initialize OpenAI if key is present *)
    (if truthy_str key then
       try_catch initializeOpenAI (fun error => ret tt)
     else ret tt);;;
    (* Try to initialize Gmail with stored tokens *)
    try_catch
      (isReady <- initializeGmail;;
       if isReady then
         if bool_decide (AUTO_START_WATCHER = Some "true") && negb (truthy_str VERCEL)
         then startWatcher;;; ret tt
         else ret tt
       else ret tt)
      (fun error => ret tt);;;
    ret true.

End MoreCode.

(** ** The token operations on the example mailbox

    The code [denied] is refused; saving sets the [tokens] flag and
    unlinking clears it, with ENOENT when there is nothing to unlink. *)

Module SimAuth.
Import Sim.

Definition with_tokens (b : bool) (w : sim) : sim :=
  {| mailbox := mailbox w; cursor := cursor w; replies := replies w; file := file w;
     time := time w; tokens := b; remote_labels := remote_labels w |}.

Definition sim_getToken (code : string) (w : sim) : outcome string * sim :=
  if String.eqb code "denied" then (Throw (mkError "invalid_grant"), w)
  else (Ok ("tokens-for-" +:+ code), w).

Definition sim_unlink (w : sim) : outcome unit * sim :=
  if tokens w then (Ok tt, with_tokens false w)
  else (Throw (Error "ENOENT: no such file or directory" (StrCode "ENOENT")), w).

#[global] Instance sim_auth_services : AuthServices sim := {
  oauth_getToken := sim_getToken;
  tokens_save := fun _ w => (Ok tt, with_tokens true w);
  tokens_unlink := sim_unlink
}.

End SimAuth.

(** ** The example mailbox with a message that vanishes

    The mailbox of [Sim] where one message, still listed, can no longer
    be fetched: it was deleted after the listing was made. *)

Module SimGap.

Record gap := { base : Sim.sim }.

(** The id of the message that is gone. *)
Definition vanished : string := "b".

Definition on_base {A} (op : Sim.sim -> outcome A * Sim.sim) (w : gap)
  : outcome A * gap :=
  let '(r, b) := op (base w) in (r, {| base := b |}).

Definition gap_get (id : string) (w : gap) : outcome Email.t * gap :=
  if String.eqb id vanished then (Throw Sim.not_found, w)
  else on_base (Sim.sim_get id) w.

#[global] Instance gap_services : Services gap := {
  messages_get := gap_get;
  messages_modify := fun id add remove => on_base (Sim.sim_modify id add remove);
  messages_trash := fun id => on_base (Sim.sim_trash id);
  messages_list := fun n q => on_base (Sim.sim_list n q);
  history_list := fun start => on_base (Sim.sim_history start);
  getProfile_historyId := fun w => (Ok (Sim.cursor (base w)), w);
  labels_list := fun w => (Sim.remote_labels (base w), w);
  labels_create := fun name w => (Ok ("Label_" +:+ name), w);
  loadTokens := fun w => (Ok (Sim.tokens (base w)), w);
  completions_create := fun msg => on_base (Sim.sim_create msg);
  fs_readFile := on_base Sim.sim_read;
  fs_mkdir := fun w => (Ok tt, w);
  fs_writeFile := fun content => on_base (Sim.sim_write content);
  now := fun w => (Sim.time (base w), w);
  toString := Sim.sim_toString
}.

Definition booted : state gap :=
  State true Sim.labels true None None [] initial_stats (Some "sk-test") None
    {| base := Sim.three_messages |} [].

End SimGap.

(** ** The example mailbox with a scripted history

    The mailbox of [Sim] with the answer of [users.history.list] given in
    advance, to run the incremental sync. *)

Module SimFeed.

Record feed := { base : Sim.sim; changes : outcome history_data }.

Definition on_base {A} (op : Sim.sim -> outcome A * Sim.sim) (w : feed)
  : outcome A * feed :=
  let '(r, b) := op (base w) in (r, {| base := b; changes := changes w |}).

#[global] Instance feed_services : Services feed := {
  messages_get := fun id => on_base (Sim.sim_get id);
  messages_modify := fun id add remove => on_base (Sim.sim_modify id add remove);
  messages_trash := fun id => on_base (Sim.sim_trash id);
  messages_list := fun n q => on_base (Sim.sim_list n q);
  history_list := fun _ w => (changes w, w);
  getProfile_historyId := fun w => (Ok (Sim.cursor (base w)), w);
  labels_list := fun w => (Sim.remote_labels (base w), w);
  labels_create := fun name w => (Ok ("Label_" +:+ name), w);
  loadTokens := fun w => (Ok (Sim.tokens (base w)), w);
  completions_create := fun msg => on_base (Sim.sim_create msg);
  fs_readFile := on_base Sim.sim_read;
  fs_mkdir := fun w => (Ok tt, w);
  fs_writeFile := fun content => on_base (Sim.sim_write content);
  now := fun w => (Sim.time (base w), w);
  toString := Sim.sim_toString
}.

(** Two history entries that add [b] then [c] and [b] again, and one
    entry without additions; the new history id is "1002". *)
Definition two_events : history_data :=
  {| history := Some [ {| messagesAdded := Some ["b"] |};
                       {| messagesAdded := None |};
                       {| messagesAdded := Some ["c"; "b"] |} ];
     historyId := "1002" |}.

Definition booted (changes : outcome history_data) : state feed :=
  State true Sim.labels true None (Some "1001") ["a"] initial_stats (Some "sk-test")
    None {| base := Sim.three_messages; changes := changes |} [].

End SimFeed.

(** ** Vocabulary of the further properties *)

#[global] Instance errcode_eq_dec : EqDecision errcode.
Proof. solve_decision. Defined.

Section MoreVocabulary.
Context {W : Type} `{SV : Services W} `{AV : AuthServices W}.

(** The routes and functions beyond [operation]. *)
Inductive more_operation :=
| OpEnsureLabels
| OpListHistory (startHistoryId : string)
| OpGetRecentMessages (maxResults : Z)
| OpClearTokens
| OpHandleAuthCallback (code : string)
| OpRouteAuthCallback (code error : option string)
| OpRouteLogout
| OpRouteWatcherStop
| OpRouteWatcherPoll
| OpRouteEmailsRecent (count : option string)
| OpInitialize (AUTO_START_WATCHER VERCEL : option string) (initialized : bool).

Definition run_more (op : more_operation) (s : state W) : state W :=
  match op with
  | OpEnsureLabels => snd (ensureLabels s)
  | OpListHistory h => snd (listHistory h s)
  | OpGetRecentMessages n => snd (getRecentMessages n s)
  | OpClearTokens => snd (clearTokens s)
  | OpHandleAuthCallback code => snd (handleAuthCallback code s)
  | OpRouteAuthCallback code error => snd (route_auth_callback code error s)
  | OpRouteLogout => snd (route_logout s)
  | OpRouteWatcherStop => snd (route_watcher_stop s)
  | OpRouteWatcherPoll => snd (route_watcher_poll s)
  | OpRouteEmailsRecent count => snd (route_emails_recent count s)
  | OpInitialize auto vercel initialized => snd (initialize auto vercel initialized s)
  end.

(** [stats.isRunning] says what [isWatcherRunning()] says. *)
Definition running_consistent (s : state W) : Prop :=
  isRunning (stats s) = match watcherInterval s with Some _ => true | None => false end.

Definition keeps_running_consistent (s s' : state W) : Prop :=
  running_consistent s -> running_consistent s'.

(** No counter of [st'] is below the one of [st]. *)
Definition counters_le (st st' : Stats) : Prop :=
  totalProcessed st <= totalProcessed st' /\
  important st <= important st' /\
  review st <= review st' /\
  junk st <= junk st' /\
  errors st <= errors st'.

Definition counters_grow (s s' : state W) : Prop :=
  counters_le (stats s) (stats s').

(** The Gmail client, the label ids, the timer and the environment are as
    they were. *)
Definition same_setup (s s' : state W) : Prop :=
  gmail s' = gmail s /\
  labelIds s' = labelIds s /\
  watcherInterval s' = watcherInterval s /\
  OPENAI_API_KEY s' = OPENAI_API_KEY s /\
  POLL_INTERVAL_MS s' = POLL_INTERVAL_MS s.

(** The ledger and [stats] are as they were. *)
Definition same_books (s s' : state W) : Prop :=
  processedIds s' = processedIds s /\ stats s' = stats s.

(** The Gmail client is as it was. *)
Definition same_client (s s' : state W) : Prop :=
  gmail s' = gmail s.

(** The [labels.create] calls of [ensureLabels]: one for each name of
    [LABELS] that no listed label has. *)
Definition missing_labels (existing : list (string * string)) : list call :=
  flat_map
    (fun '(_, labelName) =>
       match find (fun l : string * string => String.eqb (snd l) labelName) existing with
       | Some _ => []
       | None => [GmailLabelsCreate labelName]
       end)
    LABELS.

(** The timer is as it was. *)
Definition same_timer (s s' : state W) : Prop :=
  watcherInterval s' = watcherInterval s.

(** The state after [startWatcher] armed the timer: [s2] is the state
    after the load and the first cycle. *)
Definition armed (intervalMs : Z) (s2 : state W) : state W :=
  set_stats (set_isRunning true (stats s2))
    (set_watcherInterval (Some (Timer intervalMs))
       (set_outside (world s2) (trace s2 ++ [SetInterval intervalMs]) s2)).

(** The state after [stopWatcher] cleared the timer [handle]. *)
Definition disarmed (handle : timer) (s : state W) : state W :=
  set_stats (set_isRunning false (stats s))
    (set_watcherInterval None
       (set_outside (world s) (trace s ++ [ClearInterval handle]) s)).

End MoreVocabulary.

(** ** More states used as examples *)

Module MoreCases.
Import Sim.

Definition message_with_body (body : string) : Email.t :=
  Email.Make "a" "t-a" ["INBOX"] "alice@example.org" "me@example.org"
    "Invoice" "Mon, 2 Nov 2026 09:00:00 +0000" "Invoice" body.

(** A multipart message: an HTML part first, then a nested alternative
    with the plain text. *)
Definition multipart : raw_message :=
  {| raw_id := "m1"; raw_threadId := "t1"; raw_labelIds := None;
     raw_headers := [("Subject", "Hello"); ("FROM", "bob@example.org");
                     ("from", "eve@example.org")];
     raw_body_data := None;
     raw_parts :=
       Some [Part "text/html" (Some "PGI+aGk8L2I+") None;
             Part "multipart/alternative" None
               (Some [Part "text/plain" (Some "aGk=") None;
                      Part "text/plain" (Some "Ynll") None])];
     raw_snippet := "hi" |}.

(** The euro sign, U+20AC: one code unit, the three bytes E2 82 AC. *)
Definition euro : string :=
  String (ascii_of_N 226) (String (ascii_of_N 130) (String (ascii_of_N 172) "")).

(** The grinning face, U+1F600: the surrogate pair D83D DE00, the four
    bytes F0 9F 98 80. *)
Definition grin : string :=
  String (ascii_of_N 240)
    (String (ascii_of_N 159) (String (ascii_of_N 152) (String (ascii_of_N 128) ""))).

(** [n] euro signs followed by [ending]. *)
Definition euros (n : nat) (ending : string) : string :=
  Nat.iter n (fun s => euro +:+ s) ending.

(** The mailbox whose history id is the cursor the process holds: nothing
    changed since the last cycle. *)
Definition up_to_date : state sim :=
  set_lastHistoryId (Some "1001") (booted three_messages).

(** Message [b] as the REVIEW action leaves it: out of the inbox. *)
Definition b_archived : state sim :=
  booted (with_mailbox [message "b" "Newsletter" ["Label_2"]] three_messages).

(** Gmail already has the label AI-Review and no other of the three. *)
Definition one_label : state sim :=
  set_gmail true
    (Cases.fresh (with_remote_labels (Ok [("Label_9", "AI-Review")]) three_messages)).

(** The history request fails with a server error. *)
Definition history_fails : exn := Error "Backend Error" (NumCode 500).

End MoreCases.

(** * Properties *)

(** ** Builtins *)

#[local] Arguments includes : simpl never.
#[local] Arguments num_lt : simpl never.
#[local] Arguments set_add : simpl never.
#[local] Arguments set_of_array : simpl never.
#[local] Arguments slice : simpl never.
#[local] Arguments toLowerCase : simpl never.
#[local] Arguments buildClassificationMessage : simpl never.

Lemma includes_elem_of (x : string) (l : list string) :
  includes x l = true <-> x ∈ l.
Proof.
  unfold includes. rewrite existsb_exists. split.
  - intros (y & Hy & Heq). apply String.eqb_eq in Heq. subst y.
    by apply list_elem_of_In.
  - intros Hx. exists x. split; [by apply list_elem_of_In|apply String.eqb_refl].
Qed.

Lemma includes_false (x : string) (l : list string) :
  includes x l = false <-> x ∉ l.
Proof.
  rewrite <- includes_elem_of. destruct (includes x l); split; congruence.
Qed.

Lemma set_add_elem_of (x y : string) (l : list string) :
  y ∈ set_add x l <-> y = x \/ y ∈ l.
Proof.
  unfold set_add. destruct (includes x l) eqn:E.
  - apply includes_elem_of in E. split; [auto|]. intros [->|]; auto.
  - rewrite elem_of_app, list_elem_of_singleton. tauto.
Qed.

Lemma set_add_NoDup (x : string) (l : list string) :
  NoDup l -> NoDup (set_add x l).
Proof.
  intros Hl. unfold set_add. destruct (includes x l) eqn:E; [done|].
  apply includes_false in E. apply NoDup_app. split_and!; [done| |apply NoDup_singleton].
  intros y Hy Hy'. apply list_elem_of_singleton in Hy'. by subst.
Qed.

Lemma set_of_array_from (acc l : list string) :
  NoDup (acc ++ l) ->
  foldl (fun set x => set_add x set) acc l = acc ++ l.
Proof.
  revert acc. induction l as [|x l IH]; intros acc Hnd; simpl.
  - by rewrite app_nil_r.
  - assert (set_add x acc = acc ++ [x]) as ->.
    { unfold set_add. destruct (includes x acc) eqn:E; [|done].
      apply includes_elem_of in E. apply NoDup_app in Hnd as (_ & Hd & _).
      destruct (Hd x E). by left. }
    rewrite IH; rewrite <- app_assoc; done.
Qed.

(** [new Set(arr)] keeps an array without duplicates as it is. *)
Lemma set_of_array_NoDup (l : list string) :
  NoDup l -> set_of_array l = l.
Proof. intros Hl. unfold set_of_array. by rewrite set_of_array_from. Qed.

Lemma set_of_array_is_set (l : list string) : NoDup (set_of_array l).
Proof.
  unfold set_of_array.
  assert (forall acc, NoDup acc -> NoDup (foldl (fun set x => set_add x set) acc l)) as H.
  { induction l as [|x l IH]; intros acc Hacc; simpl; [done|].
    by apply IH, set_add_NoDup. }
  apply H, NoDup_nil_2.
Qed.

Lemma slice_last {A} (n : Z) (l : list A) :
  0 < n <= Z.of_nat (length l) ->
  slice (- n) l = drop (length l - Z.to_nat n) l.
Proof.
  intros Hn. unfold slice.
  destruct (Z.ltb_spec (- n) 0); [|lia].
  f_equal. lia.
Qed.

Lemma not_404 (e : exn) {A} (a b : A) :
  code e <> NumCode 404 ->
  match code e with NumCode 404 => a | _ => b end = b.
Proof.
  intros Hne. destruct (code e) as [|n|c]; try done.
  destruct n as [|p|p]; try done.
  do 10 (try (destruct p as [p|p|]; try done)).
Qed.

Section Proofs.
Context {W : Type} `{SV : Services W}.
Implicit Types (s : state W) (email : Email.t) (messageId : string).

(** ** The classifier *)

Lemma validate_result_state (result : json) s r s' :
  validate_result result s = (r, s') -> s' = s.
Proof.
  unfold validate_result, bind, lift, ret, throw.
  destruct result; simpl; try (intros [= _ <-]; done).
  destruct (assoc "classification" fields) as [[| | |c| |]|];
    try (intros [= _ <-]; done).
  destruct (includes c CATEGORIES); simpl; intros [= _ <-]; done.
Qed.

(** Whatever [validate_result] returns has a known category and a
    confidence between 0 and 1. *)
Lemma validate_result_checked (result : json) s r s' :
  validate_result result s = (Ok r, s') ->
  known_category r /\ confidence_in_range r.
Proof.
  unfold validate_result, bind, lift, ret, throw.
  destruct result; simpl; try discriminate.
  destruct (assoc "classification" fields) as [[| | |c| |]|]; try discriminate.
  destruct (includes c CATEGORIES) eqn:Ec; simpl; [|discriminate].
  intros [= <- _]. split.
  - unfold known_category; simpl. by apply includes_elem_of.
  - unfold confidence_in_range; simpl.
    destruct (assoc "confidence" fields) as [[| |n| | |]|];
      try (exists (1 # 2)%Q; split; [done|split; discriminate]).
    destruct (num_lt n (JFin 0) || num_lt (JFin 1) n) eqn:En;
      [exists (1 # 2)%Q; split; [done|split; discriminate]|].
    apply orb_false_elim in En as [E0 E1].
    destruct n as [q| |]; unfold num_lt in E0, E1; try discriminate.
    exists q. split; [done|].
    apply negb_false_iff in E0, E1. by rewrite !Qle_bool_iff in *.
Qed.

Lemma classification_error_checked (e : exn) :
  well_formed (classification_error e).
Proof.
  split_and!.
  - unfold known_category, CATEGORIES; simpl. set_solver.
  - exists 0%Q. split; [done|split; discriminate].
  - eexists. split; [done|]. simpl. discriminate.
Qed.

(** [classifyEmail] once the client exists or can be created: the
    [try] block runs and the [catch] turns a failure into the fallback. *)
Lemma classifyEmail_configured email s :
  openai s = true \/ truthy_str (OPENAI_API_KEY s) = true ->
  classifyEmail email s =
    let s0 := if openai s then s else set_openai true s in
    match classify_attempt (buildClassificationMessage email) s0 with
    | (Ok r, s1) => (Ok r, s1)
    | (Throw e, s1) => (Ok (classification_error e), s1)
    end.
Proof.
  intros Hready. unfold classifyEmail, initializeOpenAI, bind, gets, try_catch, ret.
  destruct (openai s) eqn:Eo; simpl.
  - by destruct (classify_attempt _ s) as [[r|e] s1].
  - destruct Hready as [|Hkey]; [done|]. rewrite Hkey. simpl.
    unfold modify. by destruct (classify_attempt _ _) as [[r|e] s1].
Qed.

(** Without a client and without a key [classifyEmail] throws before it
    reaches its [try] block. *)
Lemma classifyEmail_unconfigured email s :
  openai s = false -> truthy_str (OPENAI_API_KEY s) = false ->
  classifyEmail email s = (Throw (mkError "OPENAI_API_KEY not set"), s).
Proof.
  intros Ho Hk. unfold classifyEmail, initializeOpenAI, bind, gets, throw.
  simpl. rewrite Ho. simpl. by rewrite Hk.
Qed.

(** Every result [classifyEmail] returns has a known category and a
    confidence between 0 and 1. *)
Lemma classifyEmail_checked email s r s' :
  classifyEmail email s = (Ok r, s') ->
  known_category r /\ confidence_in_range r.
Proof.
  destruct (openai s) eqn:Eo; [|destruct (truthy_str (OPENAI_API_KEY s)) eqn:Ek].
  3: { rewrite classifyEmail_unconfigured by done. discriminate. }
  all: rewrite classifyEmail_configured by auto; cbv zeta;
    unfold classify_attempt, bind, extern;
    destruct (completions_create _ _) as [[result|e] w];
    [destruct (validate_result result _) as [[r'|e] s1] eqn:Ev|];
    intros [= <- _];
    try (destruct (classification_error_checked e) as (? & ? & _); done);
    eapply validate_result_checked; eauto.
Qed.

(** An answer with an invalid category makes the validation throw. *)
Lemma validate_result_invalid (result : json) s :
  invalid_answer result ->
  exists e, validate_result result s = (Throw e, s).
Proof.
  intros Hinv. unfold validate_result, bind, lift, ret, throw.
  destruct (get_prop result "classification") as [cls|e] eqn:Eg; [|by eexists].
  destruct cls as [[| | |c| |]|]; try by eexists.
  specialize (Hinv c Eg). apply includes_false in Hinv. rewrite Hinv.
  by eexists.
Qed.

(** The reason of a validated answer is the model's own reason when that
    is truthy, whatever its type, and "No reason provided" otherwise. *)
Lemma validate_result_reason (result : json) s r s' :
  validate_result result s = (Ok r, s') ->
  truthy (reason r) = true /\
  (reason r = JStr "No reason provided" \/
   get_prop result "reason" = Ok (Some (reason r))).
Proof.
  unfold validate_result, bind, lift, ret, throw.
  destruct result; simpl; try discriminate.
  destruct (assoc "classification" fields) as [[| | |c| |]|]; try discriminate.
  destruct (includes c CATEGORIES); simpl; [|discriminate].
  intros [= <- _]. simpl.
  destruct (assoc "reason" fields) as [v|]; [|by split; [|left]].
  destruct (truthy v) eqn:Ev; [by split; [|right]|by split; [|left]].
Qed.

(** C6, amended.  When the OpenAI client exists or [OPENAI_API_KEY] is
    set, [classifyEmail] never raises: it returns a result, and whenever
    its [try] block fails (in particular when the request fails or when
    the answer has an invalid category) the result is category REVIEW,
    confidence 0 and the reason "Classification error: " followed by the
    message of the failure. *)
Theorem classifyEmail_never_raises_when_configured email s :
  openai s = true \/ truthy_str (OPENAI_API_KEY s) = true ->
  let userMessage := buildClassificationMessage email in
  exists r s',
    classifyEmail email s = (Ok r, s') /\
    (forall e s1,
       classify_attempt userMessage (if openai s then s else set_openai true s)
         = (Throw e, s1) ->
       s' = s1 /\
       classification r = "REVIEW" /\
       confidence r = JFin 0 /\
       reason r = JStr ("Classification error: " +:+ message e)) /\
    (forall e w,
       completions_create userMessage (world s) = (Throw e, w) ->
       r = classification_error e) /\
    (forall result w,
       completions_create userMessage (world s) = (Ok result, w) ->
       invalid_answer result ->
       exists e, r = classification_error e).
Proof.
  intros Hready. cbv zeta. rewrite (classifyEmail_configured email s Hready). cbv zeta.
  set (s0 := if openai s then s else set_openai true s).
  assert (world s0 = world s) as Hworld by (unfold s0; by destruct (openai s)).
  destruct (classify_attempt _ s0) as [[r|e] s1] eqn:Ea.
  - exists r, s1. split; [done|]. split_and!.
    + intros e' s2 [=].
    + intros e w Hreq. unfold classify_attempt, bind, extern in Ea.
      rewrite Hworld, Hreq in Ea. discriminate.
    + intros result w Hreq Hinv. unfold classify_attempt, bind, extern in Ea.
      rewrite Hworld, Hreq in Ea.
      destruct (validate_result_invalid result
                  (set_outside w
                     (trace s0 ++ [OpenAICreate (buildClassificationMessage email)]) s0)
                  Hinv) as [e He].
      rewrite He in Ea. discriminate.
  - exists (classification_error e), s1. split; [done|]. split_and!.
    + intros e' s2 [= <- <-]. done.
    + intros e' w Hreq. unfold classify_attempt, bind, extern in Ea.
      rewrite Hworld, Hreq in Ea. by injection Ea as <- _.
    + intros result w _ _. by exists e.
Qed.

(** The reason of every result [classifyEmail] returns is truthy. *)
Lemma classifyEmail_reason_truthy email s r s' :
  classifyEmail email s = (Ok r, s') -> truthy (reason r) = true.
Proof.
  destruct (openai s) eqn:Eo; [|destruct (truthy_str (OPENAI_API_KEY s)) eqn:Ek].
  3: { rewrite classifyEmail_unconfigured by done. discriminate. }
  all: rewrite classifyEmail_configured by auto; cbv zeta;
    unfold classify_attempt, bind, extern;
    destruct (completions_create _ _) as [[result|e] w];
    [destruct (validate_result result _) as [[r'|e] s1] eqn:Ev|];
    intros [= <- _]; try done;
    by apply validate_result_reason in Ev as [? _].
Qed.

End Proofs.

(** ** The classifier on concrete answers *)

(** C6 as stated fails: with no client and no [OPENAI_API_KEY],
    [classifyEmail] raises instead of returning the REVIEW fallback. *)
Lemma classifyEmail_raises_without_key :
  classifyEmail Cases.invoice Cases.no_api_key
    = (Throw (mkError "OPENAI_API_KEY not set"), Cases.no_api_key) /\
  ~ (exists r s', classifyEmail Cases.invoice Cases.no_api_key = (Ok r, s')).
Proof.
  assert (classifyEmail Cases.invoice Cases.no_api_key
          = (Throw (mkError "OPENAI_API_KEY not set"), Cases.no_api_key)) as H
    by (by apply classifyEmail_unconfigured).
  split; [exact H|]. intros (r & s' & Hr). rewrite H in Hr. discriminate.
Qed.

(** The theorem at an answer with the category SPAM. *)
Lemma classifyEmail_never_raises_when_configured_witness :
  exists r s',
    classifyEmail Cases.invoice Cases.odd_category = (Ok r, s') /\
    classification r = "REVIEW" /\
    confidence r = JFin 0 /\
    exists e, reason r = JStr ("Classification error: " +:+ message e).
Proof.
  destruct (classifyEmail_never_raises_when_configured Cases.invoice Cases.odd_category
              (or_introl eq_refl)) as (r & s' & Hrun & _ & _ & Hinvalid).
  exists r, s'. split; [exact Hrun|].
  destruct (Hinvalid
              (JObj [("classification", JStr "SPAM");
                     ("confidence", JNum (JFin (9 # 10))); ("reason", JStr "spam")])
              (Sim.with_replies [] Sim.three_messages) eq_refl) as [e ->].
  - intros c [= <-]. apply includes_false. reflexivity.
  - split; [reflexivity|]. split; [reflexivity|]. exists e. reflexivity.
Defined.

(** An unknown category is one of the failures the fallback absorbs. *)
Example classifyEmail_odd_category :
  fst (classifyEmail Cases.invoice Cases.odd_category)
    = Ok {| classification := "REVIEW"; confidence := JFin 0;
            reason := JStr "Classification error: Invalid classification: SPAM" |}.
Proof. reflexivity. Qed.

(** C9: the model answers [{"classification": "JUNK", "confidence": 0.9,
    "reason": 42}]; the result carries the number 42 as its reason, which
    is not a string, so the result is not well-formed. *)
Theorem classifyEmail_reason_not_text :
  exists r s',
    classifyEmail Cases.invoice Cases.numeric_reason = (Ok r, s') /\
    classification r = "JUNK" /\
    reason r = JNum (JFin 42) /\
    ~ well_formed r.
Proof.
  eexists _, _. split; [vm_compute; reflexivity|]. split_and!; [done..|].
  intros (_ & _ & text & Htext & _). discriminate Htext.
Qed.

(** ** The classification action *)

Section Action.
Context {W : Type} `{SV : Services W}.
Implicit Types (s : state W) (messageId : string).

Lemma new_calls_refl s : new_calls s s = [].
Proof. unfold new_calls. by rewrite drop_all. Qed.

Lemma new_calls_app s s' (l : list call) :
  trace s' = trace s ++ l -> new_calls s s' = l.
Proof. unfold new_calls. intros ->. by rewrite drop_app_length. Qed.

(** IMPORTANT and REVIEW with a label id stored for the category: one
    call to [messages.modify]. *)
Lemma applyClassification_label s messageId (category labelId : string) :
  gmail s = true ->
  category <> "JUNK" ->
  labelIds s !! category = Some labelId ->
  labelId <> "" ->
  let removeLabels := if String.eqb category "REVIEW" then ["INBOX"] else [] in
  let '(r, w) := messages_modify messageId [labelId] removeLabels (world s) in
  applyClassification messageId category s =
    (match r with
     | Ok _ => Ok (Labelled [labelId] removeLabels)
     | Throw e => Throw e
     end,
     set_outside w (trace s ++ [GmailModify messageId [labelId] removeLabels]) s).
Proof.
  intros Hg Hc Hl Hne. cbv zeta.
  destruct (messages_modify _ _ _ _) as [r w] eqn:Em.
  unfold applyClassification.
  apply String.eqb_neq in Hc. rewrite Hc.
  unfold bind, gets. simpl. rewrite Hl. simpl.
  apply String.eqb_neq in Hne. rewrite Hne. simpl.
  unfold modifyLabels, require_gmail, bind, gets, extern, ret. simpl.
  rewrite Hg, Em. by destruct r.
Qed.

(** JUNK: one call to [messages.trash]. *)
Lemma applyClassification_junk s messageId :
  gmail s = true ->
  let '(r, w) := messages_trash messageId (world s) in
  applyClassification messageId "JUNK" s =
    (match r with Ok _ => Ok Trashed | Throw e => Throw e end,
     set_outside w (trace s ++ [GmailTrash messageId]) s).
Proof.
  intros Hg. destruct (messages_trash _ _) as [r w] eqn:Et.
  unfold applyClassification, trashMessage, require_gmail, bind, gets, extern, ret.
  simpl. rewrite Hg, Et. by destruct r.
Qed.

(** The guard [if (!labelId)]: with no label id stored for the category,
    nothing is sent to the Mail Service. *)
Lemma applyClassification_unknown s messageId (category : string) :
  category <> "JUNK" ->
  truthy_str (labelIds s !! category) = false ->
  applyClassification messageId category s
    = (Throw (mkError ("Unknown classification: " +:+ category)), s).
Proof.
  intros Hc Hl. unfold applyClassification.
  apply String.eqb_neq in Hc. rewrite Hc.
  unfold bind, gets, throw. simpl. by rewrite Hl.
Qed.

(** C2, amended.  With the Gmail client initialised: for IMPORTANT, when a
    label id is stored for the category, the calls are exactly one label
    modification that adds that id and removes nothing; for REVIEW, when a
    label id is stored, exactly one modification that adds that id and
    removes INBOX; for JUNK exactly one call that trashes the message and
    no label modification. *)
Theorem applyClassification_mapping s messageId :
  gmail s = true ->
  (forall labelId,
     labelIds s !! "IMPORTANT" = Some labelId -> labelId <> "" ->
     new_calls s (snd (applyClassification messageId "IMPORTANT" s))
       = [GmailModify messageId [labelId] []]) /\
  (forall labelId,
     labelIds s !! "REVIEW" = Some labelId -> labelId <> "" ->
     new_calls s (snd (applyClassification messageId "REVIEW" s))
       = [GmailModify messageId [labelId] ["INBOX"]]) /\
  new_calls s (snd (applyClassification messageId "JUNK" s))
    = [GmailTrash messageId].
Proof.
  intros Hg. split_and!.
  - intros labelId Hl Hne.
    pose proof (applyClassification_label s messageId "IMPORTANT" labelId Hg
                  ltac:(discriminate) Hl Hne) as H.
    cbv zeta in H. destruct (messages_modify _ _ _ _) as [r w].
    rewrite H. by apply new_calls_app.
  - intros labelId Hl Hne.
    pose proof (applyClassification_label s messageId "REVIEW" labelId Hg
                  ltac:(discriminate) Hl Hne) as H.
    cbv zeta in H. simpl in H. destruct (messages_modify _ _ _ _) as [r w].
    rewrite H. by apply new_calls_app.
  - pose proof (applyClassification_junk s messageId Hg) as H.
    destruct (messages_trash _ _) as [r w]. rewrite H. by apply new_calls_app.
Qed.

End Action.

(** [initializeGmail] on the example mailbox stores the three label ids. *)
Example initializeGmail_labels :
  let s := snd (initializeGmail (Cases.fresh Sim.three_messages)) in
  gmail s = true /\ labelIds s = Sim.labels.
Proof. split; vm_compute; reflexivity. Qed.

(** When listing the labels fails, the client stays assigned and no label
    id is stored. *)
Example initializeGmail_without_labels :
  gmail Cases.no_labels = true /\ labelIds Cases.no_labels = ∅.
Proof. split; vm_compute; reflexivity. Qed.

(** C2 as stated fails: after [initializeGmail] failed while listing the
    labels, applying IMPORTANT makes no label addition at all, it raises
    "Unknown classification"; and before the Gmail client is created,
    applying JUNK deletes nothing, it raises "Gmail not initialized". *)
Lemma applyClassification_important_without_label :
  (applyClassification "a" "IMPORTANT" Cases.no_labels
     = (Throw (mkError "Unknown classification: IMPORTANT"), Cases.no_labels) /\
   new_calls Cases.no_labels (snd (applyClassification "a" "IMPORTANT" Cases.no_labels))
     = [] /\
   ~ (exists labelId,
        new_calls Cases.no_labels
          (snd (applyClassification "a" "IMPORTANT" Cases.no_labels))
        = [GmailModify "a" [labelId] []])) /\
  (applyClassification "c" "JUNK" (Cases.fresh Sim.three_messages)
     = (Throw (mkError "Gmail not initialized"), Cases.fresh Sim.three_messages) /\
   new_calls (Cases.fresh Sim.three_messages)
     (snd (applyClassification "c" "JUNK" (Cases.fresh Sim.three_messages)))
     <> [GmailTrash "c"]).
Proof.
  assert (applyClassification "a" "IMPORTANT" Cases.no_labels
          = (Throw (mkError "Unknown classification: IMPORTANT"), Cases.no_labels)) as H.
  { apply applyClassification_unknown; [discriminate|vm_compute; reflexivity]. }
  split.
  - rewrite H. simpl. rewrite new_calls_refl. split_and!; [done..|].
    intros (labelId & Habs). discriminate Habs.
  - split; [reflexivity|]. vm_compute. discriminate.
Qed.

(** The mapping on the example mailbox, with the label ids it stores. *)
Lemma applyClassification_mapping_witness :
  let s := Sim.booted Sim.three_messages in
  new_calls s (snd (applyClassification "a" "IMPORTANT" s))
    = [GmailModify "a" ["Label_1"] []] /\
  new_calls s (snd (applyClassification "a" "REVIEW" s))
    = [GmailModify "a" ["Label_2"] ["INBOX"]] /\
  new_calls s (snd (applyClassification "a" "JUNK" s)) = [GmailTrash "a"].
Proof.
  destruct (applyClassification_mapping (Sim.booted Sim.three_messages) "a" eq_refl)
    as (Himportant & Hreview & Hjunk).
  split_and!.
  - apply Himportant; [vm_compute; reflexivity|discriminate].
  - apply Hreview; [vm_compute; reflexivity|discriminate].
  - exact Hjunk.
Defined.

(** ** The message processor *)

Section Processor.
Context {W : Type} `{SV : Services W}.
Implicit Types (s : state W) (email : Email.t) (messageId : string).

Lemma kept_refl s : kept s s.
Proof. by repeat split. Qed.

Lemma kept_trans s1 s2 s3 : kept s1 s2 -> kept s2 s3 -> kept s1 s3.
Proof.
  intros (?&?&?&?&?&?&?&?) (?&?&?&?&?&?&?&?). repeat split; congruence.
Qed.

Lemma kept_outside s (w : W) (tr : list call) : kept s (set_outside w tr s).
Proof. by repeat split. Qed.

Lemma kept_openai s (b : bool) : kept s (set_openai b s).
Proof. by repeat split. Qed.

Lemma getMessage_kept messageId s r s' :
  getMessage messageId s = (r, s') -> kept s s'.
Proof.
  unfold getMessage, require_gmail, bind, gets, extern, ret, throw. simpl.
  destruct (gmail s); simpl.
  - destruct (messages_get _ _) as [r' w]. intros [= _ <-]. apply kept_outside.
  - intros [= _ <-]. apply kept_refl.
Qed.

(** A fetch that returns made exactly one call. *)
Lemma getMessage_ok messageId s email s' :
  getMessage messageId s = (Ok email, s') ->
  exists w, s' = set_outside w (trace s ++ [GmailGet messageId]) s.
Proof.
  unfold getMessage, require_gmail, bind, gets, extern, ret, throw. simpl.
  destruct (gmail s); simpl; [|discriminate].
  destruct (messages_get _ _) as [r' w]. intros [= _ <-]. by exists w.
Qed.

Lemma classify_attempt_kept (userMessage : string) s r s' :
  classify_attempt userMessage s = (r, s') -> kept s s'.
Proof.
  unfold classify_attempt, bind, extern.
  destruct (completions_create _ _) as [[result|e] w].
  - intros Hv. destruct (validate_result _ _) as [r' s1] eqn:Ev.
    apply validate_result_state in Ev. injection Hv as _ <-. subst s1.
    apply kept_outside.
  - intros [= _ <-]. apply kept_outside.
Qed.

Lemma classifyEmail_kept email s r s' :
  classifyEmail email s = (r, s') -> kept s s'.
Proof.
  destruct (openai s) eqn:Eo; [|destruct (truthy_str (OPENAI_API_KEY s)) eqn:Ek].
  3: { rewrite classifyEmail_unconfigured by done. intros [= _ <-]. apply kept_refl. }
  all: rewrite classifyEmail_configured by auto; cbv zeta; rewrite Eo;
    destruct (classify_attempt _ _) as [[r'|e] s1] eqn:Ea;
    apply classify_attempt_kept in Ea; intros [= _ <-]; try done.
  all: eapply kept_trans; [apply kept_openai|exact Ea].
Qed.

Lemma applyClassification_kept messageId (c : string) s r s' :
  applyClassification messageId c s = (r, s') -> kept s s'.
Proof.
  unfold applyClassification, trashMessage, modifyLabels, require_gmail,
    bind, gets, extern, ret, throw.
  destruct (String.eqb c "JUNK"); simpl.
  - destruct (gmail s); simpl; [|intros [= _ <-]; apply kept_refl].
    destruct (messages_trash _ _) as [[[]|e] w]; intros [= _ <-]; apply kept_outside.
  - destruct (truthy_str (labelIds s !! c)); simpl; [|intros [= _ <-]; apply kept_refl].
    destruct (gmail s); simpl; [|intros [= _ <-]; apply kept_refl].
    destruct (messages_modify _ _ _ _) as [[[]|e] w]; intros [= _ <-]; apply kept_outside.
Qed.

(** [processMessage] on an id already in the ledger. *)
Lemma processMessage_seen s messageId :
  includes messageId (processedIds s) = true ->
  processMessage messageId s = (Ok None, s).
Proof. intros H. unfold processMessage, bind, gets, ret. simpl. by rewrite H. Qed.

(** What a fetch does to the trace: one call when the client is set, none
    when it is not. *)
Lemma getMessage_run messageId s :
  gmail s = true ->
  getMessage messageId s =
    let '(r, w) := messages_get messageId (world s) in
    (r, set_outside w (trace s ++ [GmailGet messageId]) s).
Proof.
  intros Hg. unfold getMessage, require_gmail, bind, gets, extern, ret. simpl.
  rewrite Hg. simpl. by destruct (messages_get _ _) as [[m|e] w].
Qed.

Lemma getMessage_unauthenticated messageId s :
  gmail s = false ->
  getMessage messageId s = (Throw (mkError "Gmail not initialized"), s).
Proof.
  intros Hg. unfold getMessage, require_gmail, bind, gets, throw. simpl.
  by rewrite Hg.
Qed.

Lemma getMessage_trace messageId s r s' :
  getMessage messageId s = (r, s') ->
  trace s' = trace s ++ (if gmail s then [GmailGet messageId] else []).
Proof.
  destruct (gmail s) eqn:Hg.
  - rewrite getMessage_run by done.
    destruct (messages_get _ _) as [r' w]. by intros [= _ <-].
  - rewrite getMessage_unauthenticated by done. intros [= _ <-].
    by rewrite app_nil_r.
Qed.

(** [processMessage] on an id not in the ledger, path by path.  The name
    [classifyEmail] is unbound in the module, so a record that passes the
    two guards ends in the error handler. *)
Lemma processMessage_unseen s messageId :
  includes messageId (processedIds s) = false ->
  processMessage messageId s =
    match getMessage messageId s with
    | (Throw e, s1) => (Ok None, after_error s1)
    | (Ok email, s1) =>
        if negb (includes "INBOX" (Email.labelIds email))
           || existsb (fun id => includes id ourLabels) (Email.labelIds email)
        then (Ok None, after_skip messageId s1)
        else (Ok None, after_error s1)
    end.
Proof.
  intros H. unfold processMessage. unfold bind at 1. unfold gets at 1. simpl.
  rewrite H. unfold try_catch, bind.
  destruct (getMessage messageId s) as [[email|e] s1]; [|done].
  destruct (includes "INBOX" (Email.labelIds email)); simpl; [|done].
  destruct (existsb _ _); simpl; done.
Qed.

Lemma kept_kept_sync s s' : kept s s' -> kept_sync s s'.
Proof. intros (?&?&?&?&?&?&?&?). by repeat split. Qed.

Lemma kept_sync_refl s : kept_sync s s.
Proof. by repeat split. Qed.

Lemma kept_sync_trans s1 s2 s3 : kept_sync s1 s2 -> kept_sync s2 s3 -> kept_sync s1 s3.
Proof. intros (?&?&?&?&?&?) (?&?&?&?&?&?). repeat split; congruence. Qed.

(** Every run of [processMessage] returns [null], in one of three ways,
    after at most one call, the fetch. *)
Lemma processMessage_summary s messageId :
  exists s' (how : ending),
    processMessage messageId s = (Ok None, s') /\
    kept_sync s s' /\
    match how with
    | Seen => s' = s /\ messageId ∈ processedIds s
    | Failed =>
        processedIds s' = processedIds s /\
        stats s' = incr_errors (stats s) /\
        (messageId ∉ processedIds s) /\
        trace s' = trace s ++ (if gmail s then [GmailGet messageId] else [])
    | Skipped =>
        processedIds s' = set_add messageId (processedIds s) /\
        stats s' = stats s /\
        (messageId ∉ processedIds s) /\
        gmail s = true /\
        trace s' = trace s ++ [GmailGet messageId]
    end.
Proof.
  destruct (includes messageId (processedIds s)) eqn:Hseen.
  { exists s, Seen. rewrite processMessage_seen by done.
    apply includes_elem_of in Hseen. split_and!; auto using kept_sync_refl. }
  pose proof Hseen as Hnotin. apply includes_false in Hnotin.
  rewrite processMessage_unseen by done.
  destruct (getMessage messageId s) as [[email|e] s1] eqn:Eg;
    pose proof (getMessage_trace _ _ _ _ Eg) as Htr;
    pose proof Eg as Hk; apply getMessage_kept in Hk;
    destruct Hk as (?&?&?&?&?&?&?&?).
  2: { exists (after_error s1), Failed. split_and!; try done; simpl; congruence. }
  assert (gmail s = true) as Hg.
  { destruct (gmail s) eqn:Hg; [done|].
    by rewrite getMessage_unauthenticated in Eg. }
  rewrite Hg in Htr.
  destruct (negb _ || existsb _ _).
  - exists (after_skip messageId s1), Skipped.
    split_and!; try done; simpl; congruence.
  - exists (after_error s1), Failed. rewrite Hg.
    split_and!; try done; simpl; congruence.
Qed.

(** [processMessage] never returns a record. *)
Lemma processMessage_returns_null s messageId :
  fst (processMessage messageId s) = Ok None.
Proof.
  destruct (processMessage_summary s messageId) as (s' & how & -> & _). done.
Qed.

(** The calls of [processMessage]: the fetch, unless the id is in the
    ledger or the client is missing. *)
Lemma processMessage_calls s messageId :
  new_calls s (snd (processMessage messageId s)) =
    if includes messageId (processedIds s) || negb (gmail s) then []
    else [GmailGet messageId].
Proof.
  destruct (processMessage_summary s messageId) as (s' & how & -> & _ & Hhow).
  simpl. destruct how.
  - destruct Hhow as (-> & Hin). apply includes_elem_of in Hin. rewrite Hin.
    apply new_calls_refl.
  - destruct Hhow as (_ & _ & Hnotin & Htr). apply includes_false in Hnotin.
    rewrite Hnotin. apply new_calls_app. rewrite Htr. by destruct (gmail s).
  - destruct Hhow as (_ & _ & Hnotin & Hg & Htr). apply includes_false in Hnotin.
    rewrite Hnotin, Hg. by apply new_calls_app.
Qed.

Lemma tally_incr_errors (st : Stats) : tally (incr_errors st) = tally st.
Proof. done. Qed.


Lemma processMessage_same_tally_run s messageId :
  tally (stats (snd (processMessage messageId s))) = tally (stats s).
Proof.
  destruct (processMessage_summary s messageId) as (s' & how & -> & _ & Hhow).
  simpl. destruct how.
  - by destruct Hhow as (-> & _).
  - destruct Hhow as (_ & -> & _). apply tally_incr_errors.
  - by destruct Hhow as (_ & -> & _).
Qed.

(** C1.  An id already in the ledger makes [processMessage] a no-op: it
    returns [null] and the whole state is as before (no fetch, no call to
    the classifier, no mailbox mutation, no counter changed).  So when the
    same id is processed twice in a row and the first run left it in the
    ledger, the second run changes nothing, and in any case the counters
    of classified messages change in at most one of the two runs. *)
Theorem processMessage_idempotent s messageId :
  let s1 := snd (processMessage messageId s) in
  let s2 := snd (processMessage messageId s1) in
  (messageId ∈ processedIds s ->
   processMessage messageId s = (Ok None, s) /\ new_calls s s1 = []) /\
  (messageId ∈ processedIds s1 ->
   processMessage messageId s1 = (Ok None, s1) /\ new_calls s1 s2 = []) /\
  (tally (stats s1) = tally (stats s) \/ stats s2 = stats s1).
Proof.
  assert (forall s0, messageId ∈ processedIds s0 ->
            processMessage messageId s0 = (Ok None, s0) /\
            new_calls s0 (snd (processMessage messageId s0)) = []) as Hnoop.
  { intros s0 Hin. apply includes_elem_of in Hin.
    rewrite processMessage_seen by done. split; [done|apply new_calls_refl]. }
  cbv zeta. split_and!; [apply Hnoop..|].
  left. apply processMessage_same_tally_run.
Qed.

(** The loop of a cycle: it returns, its calls are fetches of candidates,
    the ledger grows by candidates only and, when the client is set,
    every candidate that is not in the ledger when the loop starts is
    fetched. *)
Lemma for_each_process_fetches (ids : list string) s :
  exists s' (l : list call),
    for_each ids process_one s = (Ok tt, s') /\
    kept_sync s s' /\
    trace s' = trace s ++ l /\
    Forall (fun c => exists id, id ∈ ids /\ c = GmailGet id) l /\
    (gmail s = true ->
     forall next, next ∈ ids -> next ∉ processedIds s -> GmailGet next ∈ l) /\
    (forall x, x ∈ processedIds s' -> x ∈ processedIds s \/ x ∈ ids).
Proof.
  revert s. induction ids as [|id ids IH]; intros s.
  { exists s, []. split_and!; [done|apply kept_sync_refl|by rewrite app_nil_r|done| |auto].
    intros _ next Hin. by apply elem_of_nil in Hin. }
  destruct (processMessage_summary s id) as (s1 & how & Hrun & Hk & Hhow).
  assert (gmail s1 = gmail s) as Hg1 by (by destruct Hk as (-> & _)).
  destruct (IH s1) as (s' & l & Hloop & Hk' & Htr & Honly & Hfetch & Hgrow).
  assert (exists l1, trace s1 = trace s ++ l1 /\
            (l1 = [] \/ l1 = [GmailGet id]) /\
            (gmail s = true -> id ∉ processedIds s -> GmailGet id ∈ l1) /\
            (forall x, x ∈ processedIds s1 -> x ∈ processedIds s \/ x = id))
    as (l1 & Htr1 & Hl1 & Hfirst & Hgrow1).
  { destruct how.
    - destruct Hhow as (-> & Hin). exists [].
      split_and!; [by rewrite app_nil_r|by left|done|auto].
    - destruct Hhow as (Hids & _ & _ & Htr1).
      exists (if gmail s then [GmailGet id] else []).
      split_and!; [done|destruct (gmail s); auto| |rewrite Hids; auto].
      intros -> _. apply list_elem_of_here.
    - destruct Hhow as (Hids & _ & _ & _ & Htr1).
      exists [GmailGet id]. split_and!; [done|by right| |].
      + intros _ _. apply list_elem_of_here.
      + intros x. rewrite Hids. intros Hx. apply set_add_elem_of in Hx.
        destruct Hx; auto. }
  exists s', (l1 ++ l). split_and!.
  - simpl. unfold process_one at 1. unfold bind at 1 2. rewrite Hrun. exact Hloop.
  - by eapply kept_sync_trans.
  - rewrite Htr, Htr1. by rewrite <- app_assoc.
  - apply Forall_app. split.
    + destruct Hl1 as [-> | ->]; [done|].
      apply Forall_singleton. exists id. split; [apply list_elem_of_here|done].
    + eapply Forall_impl; [exact Honly|]. intros c (x & Hx & ->).
      exists x. split; [by apply list_elem_of_further|done].
  - intros Hg next Hin Hnew. apply elem_of_app.
    destruct (decide (next = id)) as [->|Hne]; [left; by apply Hfirst|].
    right. apply Hfetch.
    + congruence.
    + apply elem_of_cons in Hin as [?|?]; done.
    + intros Hin1. apply Hgrow1 in Hin1 as [?|?]; done.
  - intros x Hx. apply Hgrow in Hx as [Hx|Hx].
    + apply Hgrow1 in Hx as [Hx|Hx]; [by left|].
      right. rewrite Hx. apply list_elem_of_here.
    + right. by apply list_elem_of_further.
Qed.

End Processor.

(** The no-op on a ledger that holds [a]. *)
Lemma processMessage_idempotent_witness :
  "a" ∈ processedIds Cases.seen_a /\
  processMessage "a" Cases.seen_a = (Ok None, Cases.seen_a) /\
  new_calls Cases.seen_a (snd (processMessage "a" Cases.seen_a)) = [].
Proof.
  assert ("a" ∈ processedIds Cases.seen_a) as Hin
    by (apply includes_elem_of; reflexivity).
  split; [exact Hin|].
  exact (proj1 (processMessage_idempotent Cases.seen_a "a") Hin).
Defined.

(** A message skipped in one run is left alone by the next: [b] is out of
    the inbox, the first run marks it, the second does nothing. *)
Example processMessage_twice :
  let s1 := snd (processMessage "b" MoreCases.b_archived) in
  let s2 := snd (processMessage "b" s1) in
  processedIds s1 = ["b"] /\ new_calls MoreCases.b_archived s1 = [GmailGet "b"] /\
  s2 = s1.
Proof. split_and!; vm_compute; reflexivity. Qed.

Section Guards.
Context {W : Type} `{SV : Services W}.
Implicit Types (s : state W) (email : Email.t) (messageId : string).

(** What the guard of lines 450 to 455 stops: a record one of whose label
    ids is, as a string, AI-Important, AI-Review or AI-Junk. *)
Lemma processMessage_guard_on_names s messageId email s1 (label : string) :
  messageId ∉ processedIds s ->
  getMessage messageId s = (Ok email, s1) ->
  label ∈ Email.labelIds email ->
  label ∈ ourLabels ->
  let s' := snd (processMessage messageId s) in
  fst (processMessage messageId s) = Ok None /\
  messageId ∈ processedIds s' /\
  stats s' = stats s /\
  new_calls s s' = [GmailGet messageId].
Proof.
  intros Hnew Hget Hin Hours. cbv zeta.
  apply includes_false in Hnew. rewrite processMessage_unseen by done.
  rewrite Hget.
  assert (existsb (fun id => includes id ourLabels) (Email.labelIds email) = true) as ->.
  { apply existsb_exists. exists label. split; [by apply list_elem_of_In|].
    by apply includes_elem_of. }
  rewrite orb_true_r. simpl.
  pose proof (getMessage_kept _ _ _ _ Hget) as (_&_&_&_&Hids&Hstats&_).
  destruct (getMessage_ok _ _ _ _ Hget) as [w ->].
  split_and!; [done| |done|by apply new_calls_app].
  apply set_add_elem_of. by left.
Qed.

(** C7.  The guard "Skip if already has our labels" compares the label
    ids of the fetched record with the names AI-Important, AI-Review and
    AI-Junk.  A record carries label ids, and the label that
    [applyClassification] puts on a message is the id stored for the
    category, not its name.  So a fetched record in the inbox none of
    whose label ids equals one of the three names, whatever
    classification label it carries, passes the guard: [processMessage]
    does not mark the id processed and goes on to the classification.
    The call of [classifyEmail] raises there, so [errors] is one higher
    and the id stays out of the ledger. *)
Theorem processMessage_reentry_guard_misses_ids s messageId email s1 :
  messageId ∉ processedIds s ->
  getMessage messageId s = (Ok email, s1) ->
  "INBOX" ∈ Email.labelIds email ->
  (forall label, label ∈ Email.labelIds email -> label ∉ ourLabels) ->
  let s' := snd (processMessage messageId s) in
  fst (processMessage messageId s) = Ok None /\
  (messageId ∉ processedIds s') /\
  stats s' = incr_errors (stats s) /\
  errors (stats s') = errors (stats s) + 1 /\
  new_calls s s' = [GmailGet messageId].
Proof.
  intros Hnew Hget Hinbox Hnone. cbv zeta.
  pose proof Hnew as Hinc. apply includes_false in Hinc.
  rewrite processMessage_unseen by done. rewrite Hget.
  apply includes_elem_of in Hinbox. rewrite Hinbox.
  assert (existsb (fun id => includes id ourLabels) (Email.labelIds email) = false) as ->.
  { apply not_true_is_false. intros Hex. apply existsb_exists in Hex as (l & Hl & Hin).
    apply (Hnone l); [by apply list_elem_of_In|by apply includes_elem_of]. }
  simpl.
  pose proof (getMessage_kept _ _ _ _ Hget) as (_&_&_&_&Hids&Hstats&_).
  destruct (getMessage_ok _ _ _ _ Hget) as [w Hs1].
  split_and!; [done|simpl; by rewrite Hids|simpl; by rewrite Hstats
              |simpl; by rewrite Hstats|].
  rewrite Hs1. by apply new_calls_app.
Qed.

End Guards.

(** The guard on a message that carries the name AI-Review. *)
Example processMessage_guard_on_names_example :
  let s := Cases.b_already_labelled in
  let s' := snd (processMessage "b" s) in
  "b" ∈ processedIds s' /\ stats s' = stats s /\ new_calls s s' = [GmailGet "b"].
Proof.
  cbv zeta. split_and!.
  - apply includes_elem_of. vm_compute. reflexivity.
  - vm_compute. reflexivity.
  - vm_compute. reflexivity.
Qed.

(** The label that the IMPORTANT action puts on [a] in the example mailbox
    is the id [Label_1]. *)
Example applyClassification_adds_the_id :
  let s := Sim.booted Sim.three_messages in
  let s' := snd (applyClassification "a" "IMPORTANT" s) in
  new_calls s s' = [GmailModify "a" ["Label_1"] []] /\
  Email.labelIds <$> Sim.find_message "a" (world s')
    = Some ["INBOX"; "UNREAD"; "Label_1"].
Proof. split; vm_compute; reflexivity. Qed.

(** Message [a] in the inbox with the label id stored for IMPORTANT, and
    an empty ledger: the guard lets it through. *)
Lemma processMessage_reentry_guard_misses_ids_witness :
  let s := Cases.a_labelled_by_id in
  let s' := snd (processMessage "a" s) in
  labelIds s !! "IMPORTANT" = Some "Label_1" /\
  Email.labelIds <$> Sim.find_message "a" (world s)
    = Some ["INBOX"; "UNREAD"; "Label_1"] /\
  fst (processMessage "a" s) = Ok None /\
  ("a" ∉ processedIds s') /\
  errors (stats s') = errors (stats s) + 1 /\
  new_calls s s' = [GmailGet "a"].
Proof.
  cbv zeta.
  assert ("a" ∉ processedIds Cases.a_labelled_by_id) as Hnew
    by (apply includes_false; reflexivity).
  assert ("INBOX" ∈ ["INBOX"; "UNREAD"; "Label_1"]) as Hinbox
    by (apply includes_elem_of; reflexivity).
  assert (forall label, label ∈ ["INBOX"; "UNREAD"; "Label_1"] -> label ∉ ourLabels)
    as Hnone.
  { intros label Hin. rewrite !elem_of_cons, elem_of_nil in Hin.
    destruct Hin as [->|[->|[->|[]]]]; apply includes_false; reflexivity. }
  assert (getMessage "a" Cases.a_labelled_by_id =
          (Ok (Sim.message "a" "Invoice" ["INBOX"; "UNREAD"; "Label_1"]),
           snd (getMessage "a" Cases.a_labelled_by_id))) as Hget
    by (vm_compute; reflexivity).
  destruct (processMessage_reentry_guard_misses_ids Cases.a_labelled_by_id "a"
              (Sim.message "a" "Invoice" ["INBOX"; "UNREAD"; "Label_1"])
              (snd (getMessage "a" Cases.a_labelled_by_id))
              Hnew Hget Hinbox Hnone)
    as (Hnull & Hout & _ & Herrors & Hcalls).
  split; [reflexivity|]. split; [reflexivity|].
  split; [exact Hnull|]. split; [exact Hout|]. split; [exact Herrors|exact Hcalls].
Defined.

(** ** The ledger on disk *)

Section Ledger.
Context {W : Type} `{SV : Services W}.
Implicit Types (s : state W).

(** The ids [saveProcessedIds] keeps in memory and writes. *)
Lemma saveProcessedIds_run s :
  let ids :=
    if Z.of_nat (length (processedIds s)) >? 10000
    then set_of_array (slice (-10000) (processedIds s))
    else processedIds s in
  saveProcessedIds s =
    match fs_mkdir (world s) with
    | (Throw e, w1) => (Throw e, set_outside w1 (trace s ++ [FsMkdir]) s)
    | (Ok _, w1) =>
        let '(savedAt, w2) := now w1 in
        let content :=
          {| pf_ids := Some ids; pf_historyId := lastHistoryId s;
             pf_savedAt := savedAt |} in
        let '(r, w3) := fs_writeFile content w2 in
        (r, set_outside w3 (trace s ++ [FsMkdir; FsWriteFile content])
              (set_processedIds ids s))
    end.
Proof.
  cbv zeta. unfold saveProcessedIds, bind, extern, gets, clock, modify, ret. simpl.
  destruct (fs_mkdir (world s)) as [[[]|e] w1]; simpl; [|done].
  destruct (Z.of_nat (length (processedIds s)) >? 10000); simpl;
    destruct (now w1) as [savedAt w2]; simpl;
    destruct (fs_writeFile _ w2) as [r w3]; simpl;
    unfold set_outside; simpl; by rewrite <- app_assoc.
Qed.

(** C3.  When [saveProcessedIds] runs with more than 10,000 ids in the
    ledger, the ids it keeps are the last 10,000 in insertion order, in
    that order; the file content it writes once the directory exists
    holds exactly these ids, and so does the ledger in memory. *)
Theorem saveProcessedIds_trims s :
  NoDup (processedIds s) ->
  10000 < Z.of_nat (length (processedIds s)) ->
  let newest := drop (length (processedIds s) - Z.to_nat 10000) (processedIds s) in
  let s' := snd (saveProcessedIds s) in
  Z.of_nat (length newest) = 10000 /\
  (exists oldest, processedIds s = oldest ++ newest) /\
  ((exists e w, fs_mkdir (world s) = (Throw e, w)) /\ new_calls s s' = [FsMkdir]
   \/
   exists savedAt,
     new_calls s s' =
       [FsMkdir;
        FsWriteFile {| pf_ids := Some newest; pf_historyId := lastHistoryId s;
                       pf_savedAt := savedAt |}] /\
     processedIds s' = newest).
Proof.
  intros Hnd Hlen. cbv zeta.
  set (newest := drop _ _).
  assert (set_of_array (slice (-10000) (processedIds s)) = newest) as Htrim.
  { rewrite (slice_last 10000) by lia.
    apply set_of_array_NoDup. rewrite <- (take_drop (length (processedIds s) - Z.to_nat 10000)) in Hnd.
    by apply NoDup_app in Hnd as (_ & _ & ?). }
  split_and!.
  - unfold newest. rewrite length_drop. lia.
  - exists (take (length (processedIds s) - Z.to_nat 10000) (processedIds s)).
    unfold newest. by rewrite take_drop.
  - pose proof (saveProcessedIds_run s) as Hrun. cbv zeta in Hrun.
    apply Z.gtb_lt in Hlen. rewrite Hlen, Htrim in Hrun.
    destruct (fs_mkdir (world s)) as [[[]|e] w1].
    + destruct (now w1) as [savedAt w2].
      destruct (fs_writeFile _ w2) as [r w3]. rewrite Hrun. simpl.
      right. exists savedAt. split; [by apply new_calls_app|done].
    + rewrite Hrun. simpl. left. split; [by eauto|by apply new_calls_app].
Qed.

(** At or below the cap nothing is evicted. *)
Lemma saveProcessedIds_keeps_small s :
  Z.of_nat (length (processedIds s)) <= 10000 ->
  processedIds (snd (saveProcessedIds s)) = processedIds s.
Proof.
  intros Hlen. pose proof (saveProcessedIds_run s) as Hrun. cbv zeta in Hrun.
  assert ((Z.of_nat (length (processedIds s)) >? 10000) = false) as Hle
    by (rewrite Z.gtb_ltb; apply Z.ltb_ge; lia).
  rewrite Hle in Hrun. rewrite Hrun.
  destruct (fs_mkdir (world s)) as [[[]|e] w1]; [|done].
  destruct (now w1) as [savedAt w2]. by destruct (fs_writeFile _ w2) as [r w3].
Qed.

End Ledger.

Lemma many_ids_NoDup : NoDup Cases.many_ids.
Proof. apply (NoDup_fmap_2 _), NoDup_seq. Qed.

Lemma many_ids_length : length Cases.many_ids = Z.to_nat 10001.
Proof. unfold Cases.many_ids. by rewrite length_fmap, length_seq. Qed.

(** The trimming of a ledger of 10,001 ids. *)
Lemma saveProcessedIds_trims_witness :
  let s := Cases.full_ledger in
  let newest := drop (length (processedIds s) - Z.to_nat 10000) (processedIds s) in
  let s' := snd (saveProcessedIds s) in
  Z.of_nat (length newest) = 10000 /\
  (exists oldest, processedIds s = oldest ++ newest) /\
  ((exists e w, fs_mkdir (world s) = (Throw e, w)) /\ new_calls s s' = [FsMkdir]
   \/
   exists savedAt,
     new_calls s s' =
       [FsMkdir;
        FsWriteFile {| pf_ids := Some newest; pf_historyId := lastHistoryId s;
                       pf_savedAt := savedAt |}] /\
     processedIds s' = newest).
Proof.
  apply (saveProcessedIds_trims Cases.full_ledger).
  - exact many_ids_NoDup.
  - change (processedIds Cases.full_ledger) with Cases.many_ids.
    rewrite many_ids_length. lia.
Defined.

(** ** Relations every step of a computation respects *)

Section Preserves.
Context {W : Type} `{SV : Services W}.
Context (R : relation (state W)) `{!Frame R}.
Implicit Types (s : state W).

Lemma preserves_ret {A} (a : A) : preserves R (ret a).
Proof. intros s r s' [= _ <-]. reflexivity. Qed.

Lemma preserves_throw {A} (e : exn) : preserves R (throw (A := A) e).
Proof. intros s r s' [= _ <-]. reflexivity. Qed.

Lemma preserves_lift {A} (o : outcome A) : preserves R (lift o).
Proof. intros s r s' [= _ <-]. reflexivity. Qed.

Lemma preserves_gets {A} (f : state W -> A) : preserves R (gets f).
Proof. intros s r s' [= _ <-]. reflexivity. Qed.

Lemma preserves_modify (f : state W -> state W) :
  (forall s, R s (f s)) -> preserves R (modify f).
Proof. intros Hf s r s' [= _ <-]. apply Hf. Qed.

Lemma preserves_bind {A B} (m : M W A) (k : A -> M W B) :
  preserves R m -> (forall a, preserves R (k a)) -> preserves R (bind m k).
Proof.
  intros Hm Hk s r s'. unfold bind.
  destruct (m s) as [[a|e] s1] eqn:Em.
  - intros Hka. etransitivity; [by eapply Hm|by eapply Hk].
  - intros [= _ <-]. by eapply Hm.
Qed.

Lemma preserves_try_catch {A} (m : M W A) (handler : exn -> M W A) :
  preserves R m -> (forall e, preserves R (handler e)) ->
  preserves R (try_catch m handler).
Proof.
  intros Hm Hh s r s'. unfold try_catch.
  destruct (m s) as [[a|e] s1] eqn:Em.
  - intros [= _ <-]. by eapply Hm.
  - intros Hhe. etransitivity; [by eapply Hm|by eapply Hh].
Qed.

Lemma preserves_extern {A} (c : call) (op : W -> outcome A * W) :
  preserves R (extern c op).
Proof.
  intros s r s'. unfold extern. destruct (op (world s)) as [r' w].
  intros [= _ <-]. apply frame_outside.
Qed.

Lemma preserves_clock : preserves R clock.
Proof.
  intros s r s'. unfold clock. destruct (now (world s)) as [t w].
  intros [= _ <-]. rewrite <- (app_nil_r (trace s)). apply frame_outside.
Qed.

Lemma preserves_for_each {A} (xs : list A) (body : A -> M W unit) :
  (forall x, preserves R (body x)) -> preserves R (for_each xs body).
Proof.
  intros Hbody. induction xs as [|x xs IH]; simpl.
  - apply preserves_ret.
  - apply preserves_bind; [apply Hbody|intros _; apply IH].
Qed.

Lemma preserves_promise_all {A B} (f : B -> M W A) (xs : list B) :
  (forall x, preserves R (f x)) -> preserves R (promise_all (map f xs)).
Proof.
  intros Hf. induction xs as [|x xs IH]; simpl.
  - apply preserves_ret.
  - intros s r s'. destruct (f x s) as [r1 s1] eqn:Em.
    destruct (promise_all (map f xs) s1) as [rs s2] eqn:Ems.
    intros [= _ <-]. etransitivity; [by eapply Hf|by eapply IH].
Qed.

End Preserves.

(** Breaks a computation into its steps; what remains are the
    assignments to the state. *)
Ltac preserves_step :=
  lazymatch goal with
  | |- Frame _ => apply _
  | |- preserves _ (bind _ _) => apply preserves_bind; [apply _|idtac|intros ?]
  | |- preserves _ (try_catch _ _) =>
      apply preserves_try_catch; [apply _|idtac|intros ?]
  | |- preserves _ (ret _) => apply preserves_ret; apply _
  | |- preserves _ (throw _) => apply preserves_throw; apply _
  | |- preserves _ (lift _) => apply preserves_lift; apply _
  | |- preserves _ (gets _) => apply preserves_gets; apply _
  | |- preserves _ (extern _ _) => apply preserves_extern; apply _
  | |- preserves _ clock => apply preserves_clock; apply _
  | |- preserves _ (modify _) => apply preserves_modify; intros ?
  | |- preserves _ (for_each _ _) => apply preserves_for_each; [apply _|intros ?]
  | |- preserves _ (promise_all (map _ _)) =>
      apply preserves_promise_all; [apply _|intros ?]
  | |- preserves _ (if ?b then _ else _) => destruct b
  | |- preserves _ (match ?x with _ => _ end) => destruct x
  | |- preserves _ (let _ := _ in _) => cbv zeta
  end.

Ltac unfold_program :=
  progress unfold route_watcher_start, startWatcher, stopWatcher, getWatcherStatus,
    isWatcherRunning, setInterval, clearInterval, poll, resolve_candidates,
    poll_process, poll_full, full_sync, poll_incremental, process_one,
    processMessage, watcher_classifyEmail, saveProcessedIds, loadProcessedIds,
    mark_processed,
    update_stats, classifyEmail, classify_attempt, validate_result,
    initializeOpenAI, getRecentMessages, applyClassification, trashMessage,
    modifyLabels, getMessage, listHistory, getHistoryId, require_gmail,
    isAuthenticated, initializeGmail, ensureLabels, store_labelId.

Ltac preserves_known :=
  match goal with
  | H : forall x, preserves _ (_ x) |- preserves _ _ => apply H
  | H : preserves _ _ |- preserves _ _ => exact H
  end.

Ltac preserves_all := repeat first [preserves_known | preserves_step | unfold_program].

(** ** The poll cycle *)

Section Cycle.
Context {W : Type} `{SV : Services W}.
Implicit Types (s : state W) (email : Email.t) (messageId : string).

#[local] Instance extends_frame : Frame (extends (W := W)).
Proof.
  split; [split|].
  - intros s. exists []. by rewrite app_nil_r.
  - intros s1 s2 s3 [l1 H1] [l2 H2]. exists (l1 ++ l2).
    by rewrite H2, H1, app_assoc.
  - intros s w l. by exists l.
Qed.

#[local] Instance same_tally_frame : Frame (same_tally (W := W)).
Proof.
  split; [split|].
  - by intros s.
  - intros s1 s2 s3 H1 H2. unfold same_tally in *. congruence.
  - by intros s w l.
Qed.

#[local] Instance same_cursor_frame : Frame (same_cursor (W := W)).
Proof.
  split; [split|].
  - by intros s.
  - intros s1 s2 s3 H1 H2. unfold same_cursor in *. congruence.
  - by intros s w l.
Qed.

#[local] Instance kept_sync_frame : Frame (kept_sync (W := W)).
Proof.
  split; [split|].
  - intros s. apply kept_sync_refl.
  - intros s1 s2 s3. apply kept_sync_trans.
  - intros s w l. by repeat split.
Qed.

(** No assignment touches the trace. *)
Ltac extends_leaf := unfold extends; simpl; exists []; by rewrite app_nil_r.

Lemma poll_extends : preserves extends (poll (W := W)).
Proof. preserves_all; extends_leaf. Qed.

Lemma loadProcessedIds_extends : preserves extends (loadProcessedIds (W := W)).
Proof. preserves_all; extends_leaf. Qed.

Lemma getRecentMessages_extends (n : Z) : preserves extends (getRecentMessages (W := W) n).
Proof. preserves_all; extends_leaf. Qed.

Lemma startWatcher_extends : preserves extends (startWatcher (W := W)).
Proof. preserves_all; extends_leaf. Qed.

(** *** What leaves the counters alone *)

Ltac same_tally_leaf := unfold same_tally; simpl; done.







Lemma resolve_candidates_same_tally : preserves same_tally (resolve_candidates (W := W)).
Proof. preserves_all; same_tally_leaf. Qed.



(** *** The counters of classified messages never move *)






(** *** What leaves the cursor alone *)

Ltac same_cursor_leaf := unfold same_cursor; simpl; done.

Lemma poll_process_same_cursor (ids : list string) :
  preserves same_cursor (poll_process (W := W) ids).
Proof. preserves_all; same_cursor_leaf. Qed.

Lemma preserves_snd (R : relation (state W)) {A} (m : M W A) s :
  preserves R m -> R s (snd (m s)).
Proof. intros Hm. eapply Hm. apply surjective_pairing. Qed.


(** *** The ledger stays a set *)

#[local] Instance stays_set_frame : Frame (stays_set (W := W)).
Proof.
  split; [split|].
  - intros s Hs. exact Hs.
  - intros s1 s2 s3 H1 H2 Hs. by apply H2, H1.
  - intros s w l Hs. exact Hs.
Qed.

Ltac stays_set_leaf :=
  unfold stays_set; simpl;
  first [done | intros; by apply set_add_NoDup | intros; by apply set_of_array_is_set
        | intros; apply NoDup_nil_2].

(** Whatever operation runs, a ledger without duplicates stays one: the
    list models a [Set]. *)
Lemma run_stays_set (op : operation) s :
  NoDup (processedIds s) -> NoDup (processedIds (run op s)).
Proof.
  revert s. change (forall s, stays_set s (run op s)).
  intros s. destruct op; cbn [run]; apply preserves_snd; preserves_all;
    stays_set_leaf.
Qed.

(** *** One cycle *)

Lemma poll_unauthenticated s : gmail s = false -> poll s = (Ok tt, s).
Proof. intros Hg. unfold poll, isAuthenticated, bind, gets, ret. simpl. by rewrite Hg. Qed.

(** [poll] when authenticated: the clock is read, [lastRun] is set, the
    candidates are resolved and processed; a failure is counted. *)
Lemma poll_run s (t : string) (w0 : W) :
  gmail s = true ->
  now (world s) = (t, w0) ->
  let s0 := set_stats (set_lastRun (Some t) (stats s)) (set_outside w0 (trace s) s) in
  poll s =
    match (messagesToProcess <- resolve_candidates;; poll_process messagesToProcess) s0 with
    | (Ok _, s') => (Ok tt, s')
    | (Throw e, s') => (Ok tt, after_error s')
    end.
Proof.
  intros Hg Hnow. cbv zeta.
  unfold poll, isAuthenticated. unfold bind at 1. unfold gets at 1. simpl.
  rewrite Hg. simpl. unfold try_catch. unfold bind at 1. unfold clock at 1.
  rewrite Hnow. unfold bind at 1. unfold update_stats at 1, modify at 1.
  destruct (bind resolve_candidates _ _) as [[[]|e] s']; done.
Qed.

(** [poll] always returns. *)
Lemma poll_returns s : fst (poll s) = Ok tt.
Proof.
  destruct (gmail s) eqn:Hg; [|by rewrite poll_unauthenticated].
  destruct (now (world s)) as [t w0] eqn:Hnow.
  rewrite (poll_run s t w0 Hg Hnow). cbv zeta.
  by destruct (bind resolve_candidates _ _) as [[[]|e] s'].
Qed.

Lemma loadProcessedIds_run s :
  loadProcessedIds s =
    let '(r, w) := fs_readFile (world s) in
    let s1 := set_outside w (trace s ++ [FsReadFile]) s in
    match r with
    | Ok parsed =>
        (Ok tt,
         set_lastHistoryId
           (if truthy_str (pf_historyId parsed) then pf_historyId parsed else None)
           (set_processedIds (set_of_array (default [] (pf_ids parsed))) s1))
    | Throw e => (Ok tt, set_processedIds [] s1)
    end.
Proof.
  unfold loadProcessedIds, try_catch, bind, extern, modify.
  by destruct (fs_readFile (world s)) as [[parsed|e] w].
Qed.

(** *** The request a cycle opens with *)

#[local] Instance same_lastRun_frame : Frame (same_lastRun (W := W)).
Proof.
  split; [split|].
  - by intros s.
  - intros s1 s2 s3 H1 H2. unfold same_lastRun in *. congruence.
  - by intros s w l.
Qed.

Lemma lastRun_incr_key (key : string) (st : Stats) :
  lastRun (incr_key key st) = lastRun st.
Proof.
  unfold incr_key. by repeat (destruct (String.eqb key _); [done|]).
Qed.

Ltac same_lastRun_leaf :=
  unfold same_lastRun; simpl; rewrite ?lastRun_incr_key; done.

(** Once [lastRun] is set, the rest of the cycle leaves it alone. *)
Lemma cycle_same_lastRun :
  preserves same_lastRun
    (messagesToProcess <- resolve_candidates (W := W);; poll_process messagesToProcess).
Proof. preserves_all; same_lastRun_leaf. Qed.

(** When [m] opens with the call [c], so does [m] followed by [k]. *)
Lemma bind_begins {A B} (m : M W A) (k : A -> M W B) (c : call) s r s' :
  (forall r1 s1, m s = (r1, s1) -> exists rest, trace s1 = trace s ++ c :: rest) ->
  (forall a, preserves extends (k a)) ->
  bind m k s = (r, s') ->
  exists rest, trace s' = trace s ++ c :: rest.
Proof.
  intros Hm Hk. unfold bind. destruct (m s) as [[a|e] s1] eqn:Em;
    destruct (Hm _ _ eq_refl) as [rest Hrest].
  - intros Hrun. destruct (Hk a _ _ _ Hrun) as [l Hl]. exists (rest ++ l).
    rewrite Hl, Hrest. by rewrite <- app_assoc.
  - intros [= _ <-]. by exists rest.
Qed.

Lemma listHistory_trace (h : string) s r s' :
  gmail s = true ->
  listHistory h s = (r, s') ->
  trace s' = trace s ++ [GmailHistoryList h].
Proof.
  intros Hg.
  unfold listHistory, require_gmail, try_catch, bind, gets, extern, ret. simpl.
  rewrite Hg. simpl. destruct (history_list _ _) as [[data|e] w].
  - by intros [= _ <-].
  - destruct (decide (code e = NumCode 404)) as [Hcode|Hcode].
    + rewrite Hcode. by intros [= _ <-].
    + rewrite (not_404 e _ _ Hcode). by intros [= _ <-].
Qed.

Lemma getRecentMessages_begins (n : Z) s r s' :
  gmail s = true ->
  getRecentMessages n s = (r, s') ->
  exists rest, trace s' = trace s ++ GmailList n "in:inbox" :: rest.
Proof.
  intros Hg. unfold getRecentMessages, require_gmail. unfold bind at 1 2.
  unfold gets at 1. simpl. rewrite Hg. simpl.
  apply bind_begins.
  - intros r1 s1. unfold extern. destruct (messages_list _ _ _) as [r2 w].
    intros [= _ <-]. by exists [].
  - intros data. preserves_all.
Qed.

Lemma resolve_candidates_begins s r s' :
  gmail s = true ->
  resolve_candidates s = (r, s') ->
  exists rest, trace s' = trace s ++ first_call s :: rest.
Proof.
  intros Hg. unfold resolve_candidates, first_call.
  destruct (truthy_str (lastHistoryId s)) eqn:Hcur.
  - apply bind_begins.
    + intros r1 s1. unfold poll_incremental. unfold bind at 1. unfold gets at 1.
      simpl. rewrite Hcur. apply bind_begins.
      * intros r2 s2 Hlist. exists []. by apply listHistory_trace in Hlist.
      * intros data. preserves_all; extends_leaf.
    + intros ids. preserves_all; extends_leaf.
  - assert (poll_incremental s = (Ok [], s)) as Hinc
      by (unfold poll_incremental, bind, gets, ret; simpl; by rewrite Hcur).
    unfold bind at 1. rewrite Hinc.
    unfold poll_full. unfold bind at 1. unfold gets at 1. simpl. rewrite Hcur. simpl.
    unfold full_sync. apply bind_begins.
    + intros r1 s1. by apply getRecentMessages_begins.
    + intros messages. preserves_all; extends_leaf.
Qed.

(** A cycle with the client set: [lastRun] is the time read when it
    starts, and its first request is the one the cursor decides. *)
Lemma poll_first_call s (t : string) (w0 : W) :
  gmail s = true ->
  now (world s) = (t, w0) ->
  lastRun (stats (snd (poll s))) = Some t /\
  exists rest, new_calls s (snd (poll s)) = first_call s :: rest.
Proof.
  intros Hg Hnow. rewrite (poll_run s t w0 Hg Hnow). cbv zeta.
  set (s0 := set_stats _ _).
  destruct (bind resolve_candidates _ s0) as [r s1] eqn:Erun.
  pose proof (cycle_same_lastRun _ _ _ Erun) as Hlast. unfold same_lastRun in Hlast.
  apply bind_begins with (c := first_call s0) in Erun as [rest Hrest].
  - change (trace s1 = trace s ++ first_call s :: rest) in Hrest.
    destruct r as [[]|e]; simpl; (split; [by rewrite Hlast|]);
      exists rest; by apply new_calls_app.
  - intros r1 s2. by apply resolve_candidates_begins.
  - intros ids. preserves_all; extends_leaf.
Qed.

(** *** A failing candidate *)

Lemma saveProcessedIds_extends : preserves extends (saveProcessedIds (W := W)).
Proof. preserves_all; extends_leaf. Qed.

(** C5.  When the fetch raises for a candidate, or the classification of
    the fetched record raises, [processMessage] returns [null] with
    [errors] one higher and every other field of [stats] and the ledger as
    they were, after at most one call, the fetch: no step after the one
    that raised is run.  The cycle goes on: the loop of [poll] processes
    the candidates after it from that state and then saves, and every
    later candidate that is not in the ledger is still fetched. *)
Theorem processMessage_error_isolated s messageId (e : exn) sf (rest : list string) :
  messageId ∉ processedIds s ->
  step_raises messageId s e sf ->
  let s' := after_error sf in
  let cycle := snd (poll_process (messageId :: rest) s) in
  processMessage messageId s = (Ok None, s') /\
  stats s' = incr_errors (stats s) /\
  errors (stats s') = errors (stats s) + 1 /\
  processedIds s' = processedIds s /\
  (messageId ∉ processedIds s') /\
  new_calls s s' = (if gmail s then [GmailGet messageId] else []) /\
  poll_process (messageId :: rest) s
    = (for_each rest process_one;;; saveProcessedIds) s' /\
  (gmail s = true ->
   forall next, next ∈ rest -> next ∉ processedIds s ->
     GmailGet next ∈ new_calls s cycle).
Proof.
  intros Hnew Hraise. cbv zeta.
  pose proof Hnew as Hinc. apply includes_false in Hinc.
  assert (processMessage messageId s = (Ok None, after_error sf) /\ kept s sf /\
          trace sf = trace s ++ (if gmail s then [GmailGet messageId] else []))
    as (Hrun & Hkept & Htr).
  { rewrite processMessage_unseen by done.
    destruct Hraise as [Hget|email s1 Hget Hinbox Hours Hcls].
    - rewrite Hget. split_and!; [done|by eapply getMessage_kept|].
      by eapply getMessage_trace.
    - unfold watcher_classifyEmail, throw in Hcls. injection Hcls as _ <-.
      rewrite Hget, Hinbox, Hours. simpl.
      split_and!; [done|by eapply getMessage_kept|by eapply getMessage_trace]. }
  destruct Hkept as (Hg&_&_&_&Hids&Hstats&_).
  assert (poll_process (messageId :: rest) s
          = (for_each rest process_one;;; saveProcessedIds) (after_error sf)) as Hloop.
  { unfold poll_process. simpl length.
    replace (0 <? Z.of_nat (S (length rest))) with true
      by (symmetry; apply Z.ltb_lt; lia).
    simpl. unfold process_one at 1. unfold bind at 1 2 3. by rewrite Hrun. }
  split_and!.
  - exact Hrun.
  - simpl. by rewrite Hstats.
  - simpl. by rewrite Hstats.
  - simpl. exact Hids.
  - simpl. by rewrite Hids.
  - apply new_calls_app. exact Htr.
  - exact Hloop.
  - intros Hgs next Hin Hnext. rewrite Hloop.
    destruct (for_each_process_fetches rest (after_error sf))
      as (s2 & l & Hfor & _ & Htr2 & _ & Hfetch & _).
    unfold bind. rewrite Hfor.
    destruct (saveProcessedIds s2) as [r3 s3] eqn:Esave.
    destruct (saveProcessedIds_extends _ _ _ Esave) as [l3 Htr3]. simpl.
    rewrite (new_calls_app s s3 ([GmailGet messageId] ++ l ++ l3)).
    + apply elem_of_app. right. apply elem_of_app. left.
      apply Hfetch; [simpl; congruence|done|]. simpl. by rewrite Hids.
    + rewrite Htr3, Htr2. simpl. rewrite Htr, Hgs. by rewrite <- !app_assoc.
Qed.

End Cycle.

(** A fetch that fails with 404, then message [a], whose classification
    raises: both are counted, and [b] after them is still fetched. *)
Lemma processMessage_error_isolated_witness :
  let s := Sim.booted Sim.three_messages in
  let s1 := after_error (snd (getMessage Cases.gone s)) in
  let s2 := after_error (snd (getMessage "a" s1)) in
  processMessage Cases.gone s = (Ok None, s1) /\
  errors (stats s1) = errors (stats s) + 1 /\
  processMessage "a" s1 = (Ok None, s2) /\
  errors (stats s2) = errors (stats s1) + 1 /\
  processedIds s2 = processedIds s1 /\
  new_calls s1 s2 = [GmailGet "a"] /\
  GmailGet "b" ∈ new_calls s (snd (poll_process [Cases.gone; "a"; "b"] s)) /\
  GmailGet "b" ∈ new_calls s1 (snd (poll_process ["a"; "b"] s1)).
Proof.
  cbv zeta.
  assert ("b" ∈ ["a"; "b"]) as Hb2 by (apply list_elem_of_further, list_elem_of_here).
  assert ("b" ∈ ["b"]) as Hb1 by apply list_elem_of_here.
  assert (Cases.gone ∉ processedIds (Sim.booted Sim.three_messages)) as Hnew1
    by (apply includes_false; vm_compute; reflexivity).
  assert ("b" ∉ processedIds (Sim.booted Sim.three_messages)) as Hnew1b
    by (apply includes_false; vm_compute; reflexivity).
  assert ("a" ∉ processedIds
                  (after_error
                     (snd (getMessage Cases.gone (Sim.booted Sim.three_messages)))))
    as Hnew2 by (apply includes_false; vm_compute; reflexivity).
  assert ("b" ∉ processedIds
                  (after_error
                     (snd (getMessage Cases.gone (Sim.booted Sim.three_messages)))))
    as Hnew2b by (apply includes_false; vm_compute; reflexivity).
  assert (step_raises Cases.gone (Sim.booted Sim.three_messages) Sim.not_found
            (snd (getMessage Cases.gone (Sim.booted Sim.three_messages)))) as Hstep1
    by (apply fetch_raises; vm_compute; reflexivity).
  assert (step_raises "a"
            (after_error (snd (getMessage Cases.gone (Sim.booted Sim.three_messages))))
            (mkError "classifyEmail is not defined")
            (snd (getMessage "a"
                    (after_error
                       (snd (getMessage Cases.gone (Sim.booted Sim.three_messages)))))))
    as Hstep2
    by (eapply classification_raises with (email := Cases.invoice);
        vm_compute; reflexivity).
  destruct (processMessage_error_isolated (Sim.booted Sim.three_messages) Cases.gone
              Sim.not_found (snd (getMessage Cases.gone (Sim.booted Sim.three_messages)))
              ["a"; "b"] Hnew1 Hstep1)
    as (Hrun1 & _ & Herr1 & _ & _ & _ & _ & Hnext1).
  destruct (processMessage_error_isolated
              (after_error (snd (getMessage Cases.gone (Sim.booted Sim.three_messages))))
              "a" (mkError "classifyEmail is not defined")
              (snd (getMessage "a"
                      (after_error
                         (snd (getMessage Cases.gone (Sim.booted Sim.three_messages))))))
              ["b"] Hnew2 Hstep2)
    as (Hrun2 & _ & Herr2 & Hids2 & _ & Hcalls2 & _ & Hnext2).
  split; [exact Hrun1|]. split; [exact Herr1|]. split; [exact Hrun2|].
  split; [exact Herr2|]. split; [exact Hids2|]. split; [exact Hcalls2|].
  split.
  - exact (Hnext1 eq_refl "b" Hb2 Hnew1b).
  - exact (Hnext2 eq_refl "b" Hb1 Hnew2b).
Defined.


(** ** Expiry of the cursor, and the scheduler *)

Section Scheduler.
Context {W : Type} `{SV : Services W}.
Implicit Types (s : state W).

#[local] Existing Instances extends_frame kept_sync_frame same_cursor_frame.

Lemma getRecentMessages_kept_sync (n : Z) :
  preserves kept_sync (getRecentMessages (W := W) n).
Proof. preserves_all. Qed.

(** A retrieval that returns started with the listing of the inbox. *)
Lemma getRecentMessages_ok (n : Z) s (messages : list Email.t) s' :
  getRecentMessages n s = (Ok messages, s') ->
  exists fetches, trace s' = trace s ++ [GmailList n "in:inbox"] ++ fetches.
Proof.
  unfold getRecentMessages, require_gmail. unfold bind at 1 2. unfold gets at 1. simpl.
  destruct (gmail s); simpl; [|discriminate].
  unfold bind, extern. destruct (messages_list _ _ _) as [[[ids|]|e] w]; simpl.
  - intros Hall.
    assert (preserves extends (promise_all (map (getMessage (W := W)) ids))) as Hext
      by (preserves_all).
    destruct (Hext _ _ _ Hall) as [l Hl]. exists l. rewrite Hl. simpl.
    by rewrite <- app_assoc.
  - intros [= _ <-]. exists []. done.
  - discriminate.
Qed.

(** An expired cursor: the incremental block clears it and hands over no
    candidate, so the block after it runs the full sync. *)
Lemma resolve_candidates_expired s (h : string) (e : exn) (w1 : W) :
  gmail s = true ->
  lastHistoryId s = Some h ->
  h <> "" ->
  history_list h (world s) = (Throw e, w1) ->
  code e = NumCode 404 ->
  let cleared :=
    set_lastHistoryId None (set_outside w1 (trace s ++ [GmailHistoryList h]) s) in
  poll_incremental s = (Ok [], cleared) /\
  resolve_candidates s = full_sync cleared.
Proof.
  intros Hg Hcur Hne Hexp Hcode. cbv zeta.
  assert (poll_incremental s =
          (Ok [], set_lastHistoryId None
                    (set_outside w1 (trace s ++ [GmailHistoryList h]) s))) as Hinc.
  { unfold poll_incremental, listHistory, require_gmail, try_catch, bind, gets,
      extern, modify, ret, throw. simpl.
    rewrite Hcur. simpl. apply String.eqb_neq in Hne. rewrite Hne. simpl.
    rewrite Hg. simpl. rewrite Hexp. simpl. by rewrite Hcode. }
  split; [exact Hinc|].
  unfold resolve_candidates. unfold bind at 1. rewrite Hinc.
  unfold poll_full, bind, gets. simpl. done.
Qed.

(** The full sync when both of its requests are answered. *)
Lemma full_sync_ok s (messages : list Email.t) s2 (token : string) (w3 : W) :
  gmail s = true ->
  getRecentMessages 20 s = (Ok messages, s2) ->
  getProfile_historyId (world s2) = (Ok token, w3) ->
  full_sync s =
    (Ok (map Email.id messages),
     set_lastHistoryId (Some token)
       (set_outside w3 (trace s2 ++ [GmailGetProfile]) s2)).
Proof.
  intros Hg Hrecent Hprofile.
  pose proof (getRecentMessages_kept_sync 20 _ _ _ Hrecent) as (Hg2 & _).
  unfold full_sync. unfold bind at 1. rewrite Hrecent.
  unfold getHistoryId, require_gmail, bind, gets, extern, modify, ret. simpl.
  rewrite Hg2, Hg. simpl. by rewrite Hprofile.
Qed.

(** C4.  In a cycle where [listHistory] finds the cursor expired (404),
    the cursor is cleared and the candidates of that same cycle are those
    of the full sync; when the listing of the 20 most recent inbox
    messages and the profile request that follows it are answered, the
    candidates are the ids of the listed messages and the cursor is the
    history id of that profile, also at the end of the cycle. *)
Theorem poll_expired_cursor s (h t : string) (w0 w1 : W) (e : exn) :
  gmail s = true ->
  lastHistoryId s = Some h ->
  h <> "" ->
  now (world s) = (t, w0) ->
  history_list h w0 = (Throw e, w1) ->
  code e = NumCode 404 ->
  let s0 := set_stats (set_lastRun (Some t) (stats s)) (set_outside w0 (trace s) s) in
  let cleared :=
    set_lastHistoryId None (set_outside w1 (trace s ++ [GmailHistoryList h]) s0) in
  lastHistoryId cleared = None /\
  resolve_candidates s0 = full_sync cleared /\
  forall (messages : list Email.t) s2 (token : string) (w3 : W),
    getRecentMessages 20 cleared = (Ok messages, s2) ->
    getProfile_historyId (world s2) = (Ok token, w3) ->
    fst (resolve_candidates s0) = Ok (map Email.id messages) /\
    (exists fetches,
       trace s2 = trace s ++ [GmailHistoryList h; GmailList 20 "in:inbox"] ++ fetches) /\
    lastHistoryId (snd (resolve_candidates s0)) = Some token /\
    lastHistoryId (snd (poll s)) = Some token.
Proof.
  intros Hg Hcur Hne Hnow Hexp Hcode. cbv zeta.
  set (s0 := set_stats _ _).
  set (cleared := set_lastHistoryId None _).
  destruct (resolve_candidates_expired s0 h e w1 Hg Hcur Hne Hexp Hcode)
    as [_ Hresolve].
  change (set_lastHistoryId None _) with cleared in Hresolve.
  split_and!; [done|exact Hresolve|].
  intros messages s2 token w3 Hrecent Hprofile.
  pose proof (full_sync_ok cleared messages s2 token w3 Hg Hrecent Hprofile) as Hfull.
  rewrite Hresolve, Hfull. simpl. split_and!; [done| |done|].
  - destruct (getRecentMessages_ok _ _ _ _ Hrecent) as [fetches Hfetches].
    exists fetches. rewrite Hfetches. simpl. by rewrite <- app_assoc.
  - rewrite (poll_run s t w0 Hg Hnow). cbv zeta. fold s0.
    unfold bind at 1. rewrite Hresolve, Hfull.
    destruct (poll_process _ _) as [[[]|e'] s4] eqn:Eproc;
      apply poll_process_same_cursor in Eproc; unfold same_cursor in Eproc;
      simpl in *; exact Eproc.
Qed.

(** C8.  [startWatcher] throws "Not authenticated with Gmail" when no
    timer is armed and the Gmail client is missing.  With a timer already
    armed it is a no-op: it returns (the value [false]) without a call and
    without touching the state, and the start route answers
    [success: true].  Otherwise it loads the persisted state, runs one
    cycle, arms the timer and returns [true].  The load reads the ledger
    file: the ledger and the cursor the cycle starts from are those of the
    file, and an unreadable file gives an empty ledger.  The cycle sets
    [lastRun] and opens with the history request for that cursor, or with
    the listing of the inbox when there is none.  The timer is armed
    last; the interval is [POLL_INTERVAL_MS] when that parses to a
    non-zero number and 60,000 when it does not, in particular when it is
    not set. *)
Theorem startWatcher_contract s :
  (watcherInterval s = None -> gmail s = false ->
   startWatcher s = (Throw (mkError "Not authenticated with Gmail"), s)) /\
  (forall handle, watcherInterval s = Some handle ->
   startWatcher s = (Ok false, s) /\
   new_calls s (snd (startWatcher s)) = [] /\
   route_watcher_start s =
     (Ok {| status := 200; success := true; text := "Watcher already running" |}, s)) /\
  (watcherInterval s = None -> gmail s = true ->
   let s1 := snd (loadProcessedIds s) in
   let s2 := snd (poll s1) in
   let intervalMs := num_or (parseInt (POLL_INTERVAL_MS s)) 60000 in
   let s3 :=
     set_stats (set_isRunning true (stats s2))
       (set_watcherInterval (Some (Timer intervalMs))
          (set_outside (world s2) (trace s2 ++ [SetInterval intervalMs]) s2)) in
   startWatcher s = (Ok true, s3) /\
   new_calls s s3 = [FsReadFile] ++ new_calls s1 s2 ++ [SetInterval intervalMs] /\
   (POLL_INTERVAL_MS s = None -> intervalMs = 60000) /\
   (forall parsed w,
      fs_readFile (world s) = (Ok parsed, w) ->
      processedIds s1 = set_of_array (default [] (pf_ids parsed)) /\
      lastHistoryId s1
        = (if truthy_str (pf_historyId parsed) then pf_historyId parsed else None)) /\
   (forall e w,
      fs_readFile (world s) = (Throw e, w) ->
      processedIds s1 = [] /\ lastHistoryId s1 = lastHistoryId s) /\
   (forall t w0,
      now (world s1) = (t, w0) ->
      lastRun (stats s2) = Some t /\
      lastRun (stats s3) = Some t /\
      exists rest, new_calls s1 s2 = first_call s1 :: rest)).
Proof.
  split_and!.
  - intros Hw Hg. unfold startWatcher, isAuthenticated, bind, gets, throw. simpl.
    by rewrite Hw, Hg.
  - intros handle Hw.
    assert (startWatcher s = (Ok false, s)) as Hnoop
      by (unfold startWatcher, bind, gets, ret; simpl; by rewrite Hw).
    split; [exact Hnoop|]. split.
    + rewrite Hnoop. apply new_calls_refl.
    + unfold route_watcher_start, isWatcherRunning, try_catch, bind, gets, ret. simpl.
      by rewrite Hw.
  - intros Hw Hg. cbv zeta.
    pose proof (loadProcessedIds_run s) as Hload.
    assert (exists s1, loadProcessedIds s = (Ok tt, s1) /\
              trace s1 = trace s ++ [FsReadFile] /\
              POLL_INTERVAL_MS s1 = POLL_INTERVAL_MS s /\
              gmail s1 = gmail s) as (s1 & Hs1 & Htr1 & Henv & Hg1).
    { rewrite Hload. destruct (fs_readFile (world s)) as [[parsed|e] w];
        eexists; split_and!; reflexivity. }
    rewrite Hs1 in Hload. rewrite Hs1. simpl.
    pose proof (poll_returns s1) as Hpoll.
    pose proof (poll_first_call s1) as Hfirst.
    destruct (poll s1) as [r s2] eqn:Es2. simpl in Hpoll, Hfirst. subst r. simpl.
    split_and!.
    + unfold startWatcher, isAuthenticated. unfold bind at 1. unfold gets at 1. simpl.
      rewrite Hw. unfold bind at 1. unfold gets at 1. simpl. rewrite Hg. simpl.
      unfold bind at 1. rewrite Hs1. unfold bind at 1. unfold gets at 1. simpl.
      unfold bind at 1. rewrite Es2. rewrite Henv. reflexivity.
    + destruct (poll_extends _ _ _ Es2) as [cycle Hcycle].
      rewrite (new_calls_app s1 s2 cycle Hcycle).
      apply new_calls_app. simpl. rewrite Hcycle, Htr1. by rewrite <- !app_assoc.
    + intros ->. reflexivity.
    + intros parsed w Hread. rewrite Hread in Hload. by injection Hload as ->.
    + intros e w Hread. rewrite Hread in Hload. by injection Hload as ->.
    + intros t w0 Hnow.
      destruct (Hfirst t w0) as (Hlast & Hcall); [congruence|done|].
      split_and!; done.
Qed.

End Scheduler.

(** ** The cycle on the example mailbox *)

(** Scenario A on the code: no cursor, three inbox messages.  Each is
    fetched twice, by the retrieval and by [processMessage]; none is
    classified, labelled or marked, three errors are counted and an empty
    ledger is written. *)
Example poll_first_cycle :
  let s' := snd (poll (Sim.booted Sim.three_messages)) in
  tally (stats s') = (0, 0, 0, 0) /\
  errors (stats s') = 3 /\
  processedIds s' = [] /\
  lastHistoryId s' = Some "1001" /\
  Sim.mailbox (world s') = Sim.mailbox Sim.three_messages /\
  new_calls (Sim.booted Sim.three_messages) s' =
    [GmailList 20 "in:inbox"; GmailGet "a"; GmailGet "b"; GmailGet "c";
     GmailGetProfile; GmailGet "a"; GmailGet "b"; GmailGet "c"; FsMkdir;
     FsWriteFile {| pf_ids := Some []; pf_historyId := Some "1001";
                    pf_savedAt := "2026-11-02T09:00:00.000Z" |}].
Proof. split_and!; vm_compute; reflexivity. Qed.

(** Scenario B on the code: with an expired cursor the cycle ends in the
    same ledger, counters and cursor. *)
Example poll_expired_cycle :
  let s' := snd (poll Cases.stale_cursor) in
  tally (stats s') = (0, 0, 0, 0) /\
  errors (stats s') = 3 /\
  processedIds s' = [] /\
  lastHistoryId s' = Some "1001".
Proof. split_and!; vm_compute; reflexivity. Qed.

(** The fallback on the example mailbox, from the cursor "900". *)
Lemma poll_expired_cursor_witness :
  let s := Cases.stale_cursor in
  let s0 :=
    set_stats (set_lastRun (Some (Sim.time Sim.three_messages)) (stats s))
      (set_outside Sim.three_messages (trace s) s) in
  fst (resolve_candidates s0) = Ok ["a"; "b"; "c"] /\
  lastHistoryId (snd (resolve_candidates s0)) = Some "1001" /\
  lastHistoryId (snd (poll s)) = Some "1001".
Proof.
  destruct (poll_expired_cursor Cases.stale_cursor "900"
              (Sim.time Sim.three_messages) Sim.three_messages Sim.three_messages
              Sim.not_found eq_refl eq_refl ltac:(discriminate) eq_refl eq_refl eq_refl)
    as (_ & _ & Hsync).
  destruct (Hsync (Sim.mailbox Sim.three_messages)
              (snd (getRecentMessages 20
                      (set_lastHistoryId None
                         (set_outside Sim.three_messages
                            (trace Cases.stale_cursor ++ [GmailHistoryList "900"])
                            (set_stats
                               (set_lastRun (Some (Sim.time Sim.three_messages))
                                  (stats Cases.stale_cursor))
                               (set_outside Sim.three_messages
                                  (trace Cases.stale_cursor) Cases.stale_cursor))))))
              "1001" Sim.three_messages)
    as (Hids & _ & Hcur & Hend).
  - vm_compute. reflexivity.
  - vm_compute. reflexivity.
  - split_and!; [exact Hids|exact Hcur|exact Hend].
Defined.

(** The three cases of [startWatcher] on the example mailbox, and a
    restart over the ledger file of an earlier run. *)
Lemma startWatcher_contract_witness :
  startWatcher (Cases.fresh Sim.three_messages)
    = (Throw (mkError "Not authenticated with Gmail"), Cases.fresh Sim.three_messages) /\
  (startWatcher Cases.running = (Ok false, Cases.running) /\
   new_calls Cases.running (snd (startWatcher Cases.running)) = [] /\
   route_watcher_start Cases.running =
     (Ok {| status := 200; success := true; text := "Watcher already running" |},
      Cases.running)) /\
  fst (startWatcher (Sim.booted Sim.three_messages)) = Ok true /\
  num_or (parseInt (POLL_INTERVAL_MS (Sim.booted Sim.three_messages))) 60000 = 60000 /\
  (let s1 := snd (loadProcessedIds Cases.restarted) in
   let s2 := snd (poll s1) in
   processedIds s1 = ["b"] /\
   lastHistoryId s1 = Some "1001" /\
   lastRun (stats s2) = Some "2026-11-02T09:00:00.000Z" /\
   exists rest, new_calls s1 s2 = GmailHistoryList "1001" :: rest).
Proof.
  pose proof (proj1 (startWatcher_contract (Cases.fresh Sim.three_messages))
                eq_refl eq_refl) as Hfails.
  assert (watcherInterval Cases.running = Some (Timer 60000)) as Harmed
    by (vm_compute; reflexivity).
  pose proof (proj1 (proj2 (startWatcher_contract Cases.running))
                (Timer 60000) Harmed) as Hnoop.
  pose proof (proj2 (proj2 (startWatcher_contract (Sim.booted Sim.three_messages)))
                eq_refl eq_refl) as (Hstart & _ & Hms & _).
  pose proof (proj2 (proj2 (startWatcher_contract Cases.restarted))
                eq_refl eq_refl) as (_ & _ & _ & Hfile & _ & Hcycle).
  cbv zeta in Hfile, Hcycle.
  assert (now (world (snd (loadProcessedIds Cases.restarted)))
          = ("2026-11-02T09:00:00.000Z", world Cases.restarted)) as Hnow
    by (vm_compute; reflexivity).
  destruct (Hfile _ _ eq_refl) as (Hids & Hcursor).
  destruct (Hcycle _ _ Hnow) as (Hlast & _ & Hcall).
  split; [exact Hfails|]. split; [exact Hnoop|]. split.
  - rewrite Hstart. reflexivity.
  - split; [apply Hms; reflexivity|].
    cbv zeta. split; [exact Hids|]. split; [exact Hcursor|].
    split; [exact Hlast|exact Hcall].
Defined.

(** What [startWatcher] does on the example mailbox, call by call. *)
Example startWatcher_calls :
  let s := Sim.booted Sim.three_messages in
  let s' := snd (startWatcher s) in
  watcherInterval s' = Some (Timer 60000) /\
  isRunning (stats s') = true /\
  hd_error (trace s') = Some FsReadFile /\
  last (trace s') = Some (SetInterval 60000) /\
  new_calls s' (snd (startWatcher s')) = [].
Proof. split_and!; vm_compute; reflexivity. Qed.

(** * Further properties of the code *)

(** ** Parsing a message *)

(** Induction over a tree of parts. *)
Lemma part_tree_ind (P : part -> Prop)
  (step : forall mimeType data parts,
      match parts with Some children => Forall P children | None => True end ->
      P (Part mimeType data parts)) : forall p, P p.
Proof.
  exact (fix go (p : part) : P p :=
    match p with
    | Part mimeType data parts =>
        step mimeType data parts
          (match parts as o
                 return match o with Some children => Forall P children | None => True end
           with
           | Some children =>
               (fix all (l : list part) : Forall P l :=
                  match l with
                  | [] => @List.Forall_nil part P
                  | q :: rest => @List.Forall_cons part P q rest (go q) (all rest)
                  end) children
           | None => I
           end)
    end).
Qed.

Section ParsingProofs.
Variable base64_utf8 : string -> string.

Lemma first_return_plain (ps : list part) :
  Forall (fun p => forall r, extract_part base64_utf8 p = Some r ->
                   exists d, In d (plain_data p) /\ r = base64_utf8 d) ps ->
  first_return (extract_part base64_utf8) ps = "" \/
  exists d, In d (flat_map plain_data ps) /\
            first_return (extract_part base64_utf8) ps = base64_utf8 d.
Proof.
  induction 1 as [|p ps Hp _ IH]; simpl; [by left|].
  destruct (extract_part base64_utf8 p) as [r|] eqn:Ep.
  - right. destruct (Hp r eq_refl) as (d & Hd & ->).
    exists d. split; [apply in_or_app; by left|done].
  - destruct IH as [->|(d & Hd & ->)]; [by left|right].
    exists d. split; [apply in_or_app; by right|done].
Qed.

(** What a part returns is the decoding of the data of a text/plain part
    of its tree. *)
Lemma extract_part_plain (p : part) :
  forall r, extract_part base64_utf8 p = Some r ->
            exists d, In d (plain_data p) /\ r = base64_utf8 d.
Proof.
  induction p as [mimeType data parts IH] using part_tree_ind.
  intros r. simpl.
  destruct (String.eqb mimeType "text/plain" && truthy_str data).
  - intros [= <-]. exists (default "" data). split; [by left|done].
  - destruct parts as [children|]; [|discriminate]. simpl.
    destruct (first_return_plain children IH) as [->|(d & Hd & ->)];
      [discriminate|].
    destruct (negb _); [|discriminate]. intros [= <-]. by exists d.
Qed.

Lemma extractBody_plain (parts : option (list part)) :
  extractBody base64_utf8 parts = "" \/
  exists d, In d (flat_map plain_data (default [] parts)) /\
            extractBody base64_utf8 parts = base64_utf8 d.
Proof.
  destruct parts as [ps|]; simpl; [|by left].
  apply first_return_plain, Forall_forall. intros p _. apply extract_part_plain.
Qed.

(** X18.  The body [parseMessage] gives: the decoding of the payload's own
    body data when there is some, whatever the parts hold; otherwise the
    empty string or the decoding of the data of some text/plain part of
    the tree of parts, the first part when that one is text/plain with
    data, and the empty string when the tree has no text/plain data. *)
Theorem parseMessage_body (message : raw_message) :
  let body := Email.body (parseMessage base64_utf8 message) in
  (forall d, raw_body_data message = Some d -> d <> "" -> body = base64_utf8 d) /\
  (truthy_str (raw_body_data message) = false ->
   (body = "" \/
    exists d, In d (flat_map plain_data (default [] (raw_parts message))) /\
              body = base64_utf8 d) /\
   (flat_map plain_data (default [] (raw_parts message)) = [] -> body = "") /\
   (forall d children rest,
      raw_parts message = Some (Part "text/plain" (Some d) children :: rest) ->
      d <> "" -> body = base64_utf8 d)).
Proof.
  cbv zeta. unfold parseMessage. simpl. split.
  - intros d -> Hd. simpl. apply String.eqb_neq in Hd. by rewrite Hd.
  - intros ->. pose proof (extractBody_plain (raw_parts message)) as Hplain.
    split_and!.
    + exact Hplain.
    + intros Hnone. destruct Hplain as [->|(d & Hd & _)]; [done|].
      rewrite Hnone in Hd. destruct Hd.
    + intros d children rest -> Hd. simpl.
      apply String.eqb_neq in Hd. by rewrite Hd.
Qed.

(** X17.  The header lookup of [parseMessage] ignores the case of the
    names: the value is that of the first header whose name equals the
    requested one up to case, and the empty string when there is none. *)
Theorem getHeader_first_match (headers : list (string * string)) (name : string) :
  (forall name', toLowerCase name' = toLowerCase name ->
     getHeader headers name' = getHeader headers name) /\
  (forall before n v after,
     headers = before ++ (n, v) :: after ->
     toLowerCase n = toLowerCase name ->
     Forall (fun h => toLowerCase (fst h) <> toLowerCase name) before ->
     getHeader headers name = v) /\
  (Forall (fun h => toLowerCase (fst h) <> toLowerCase name) headers ->
   getHeader headers name = "").
Proof.
  split_and!.
  - intros name' Heq. unfold getHeader. by rewrite Heq.
  - intros before n v after -> Hn Hbefore. unfold getHeader.
    induction Hbefore as [|h before Hh _ IH]; simpl.
    + rewrite Hn, String.eqb_refl. done.
    + apply String.eqb_neq in Hh. rewrite Hh. exact IH.
  - intros Hnone. unfold getHeader.
    induction Hnone as [|h rest Hh _ IH]; simpl; [done|].
    apply String.eqb_neq in Hh. rewrite Hh. exact IH.
Qed.

End ParsingProofs.

(** The body of the multipart example is the first plain text of the
    nested alternative; the identity stands for the decoding. *)
Lemma parseMessage_body_witness :
  Email.body (parseMessage (fun d => d) MoreCases.multipart) = "aGk=" /\
  In (Email.body (parseMessage (fun d => d) MoreCases.multipart))
    (flat_map plain_data (default [] (raw_parts MoreCases.multipart))).
Proof.
  destruct (parseMessage_body (fun d => d) MoreCases.multipart) as (_ & Hparts).
  destruct (Hparts eq_refl) as ([Hempty|(d & Hd & Hbody)] & _).
  - vm_compute in Hempty. discriminate Hempty.
  - split; [reflexivity|]. rewrite Hbody. exact Hd.
Defined.

(** The example has two From headers in different cases: the first one
    is taken. *)
Lemma getHeader_first_match_witness :
  Email.from (parseMessage (fun d => d) MoreCases.multipart) = "bob@example.org" /\
  getHeader (raw_headers MoreCases.multipart) "fRoM" = "bob@example.org" /\
  getHeader (raw_headers MoreCases.multipart) "To" = "".
Proof.
  destruct (getHeader_first_match (raw_headers MoreCases.multipart) "From")
    as (Hcase & Hfirst & _).
  destruct (getHeader_first_match (raw_headers MoreCases.multipart) "To")
    as (_ & _ & Hnone).
  assert (getHeader (raw_headers MoreCases.multipart) "From" = "bob@example.org") as Hfrom.
  { apply (Hfirst [("Subject", "Hello")] "FROM" "bob@example.org"
             [("from", "eve@example.org")]); [reflexivity|reflexivity|].
    constructor; [discriminate|constructor]. }
  split; [exact Hfrom|]. split.
  - rewrite (Hcase "fRoM" eq_refl). exact Hfrom.
  - apply Hnone. repeat constructor; discriminate.
Defined.

(** ** The message sent to the model *)






(** Bodies of 335 euro signs and a letter, 1006 bytes and 336 code units,
    are sent whole: the messages differ when the last letter does. *)
Example buildClassificationMessage_short_body :
  let e1 := MoreCases.message_with_body (MoreCases.euros 335 "a") in
  let e2 := MoreCases.message_with_body (MoreCases.euros 335 "b") in
  utf16_length (Email.body e1) = 336%nat /\
  substring0 1000 (Email.body e1) = Email.body e1 /\
  buildClassificationMessage e1 <> buildClassificationMessage e2.
Proof.
  cbv zeta. split_and!.
  - vm_compute. reflexivity.
  - vm_compute. reflexivity.
  - intros Heq.
    apply (f_equal (fun m => String.get (String.length m - 1) m)) in Heq.
    vm_compute in Heq. discriminate Heq.
Qed.

(** A pair across the cut: after 999 letters the grinning face gives its
    high surrogate D83D, the bytes ED A0 BD, and nothing after it. *)
Example substring0_cuts_a_pair :
  let body := String.string_of_list_ascii (repeat "x"%char 999) +:+ MoreCases.grin +:+ "z" in
  utf16_length body = 1002%nat /\
  substring0 1000 body =
    String.string_of_list_ascii (repeat "x"%char 999) +:+
    String (ascii_of_N 237) (String (ascii_of_N 160) (String (ascii_of_N 189) "")) /\
  utf16_length (substring0 1000 body) = 1000%nat.
Proof. cbv zeta. split_and!; vm_compute; reflexivity. Qed.

(** ** The classifier on a valid answer *)

Section ClassifierMore.
Context {W : Type} `{SV : Services W}.
Implicit Types (s : state W) (email : Email.t).

(** The result of the validation of an answer whose category is known. *)
Lemma validate_result_valid (fields : list (string * json)) (c : string) s :
  assoc "classification" fields = Some (JStr c) ->
  c ∈ CATEGORIES ->
  validate_result (JObj fields) s =
    (Ok {| classification := c;
           confidence :=
             match assoc "confidence" fields with
             | Some (JNum n) =>
                 if num_lt n (JFin 0) || num_lt (JFin 1) n then JFin (1 # 2) else n
             | _ => JFin (1 # 2)
             end;
           reason :=
             match assoc "reason" fields with
             | Some v => if truthy v then v else JStr "No reason provided"
             | None => JStr "No reason provided"
             end |}, s).
Proof.
  intros Hc Hin. apply includes_elem_of in Hin.
  unfold validate_result, bind, lift, ret. simpl. rewrite Hc, Hin. done.
Qed.

(** X22.  When the client exists or the key is set and the model's answer
    carries one of the three categories, [classifyEmail] returns that
    category; a numeric confidence between 0 and 1 is passed on and any
    other confidence becomes 0.5; a non-empty text reason is passed on
    and a missing or falsy reason becomes "No reason provided".  In these
    cases of the reason the result is well-formed. *)
Theorem classifyEmail_valid_answer email s (result : json) (w : W) (c : string) :
  openai s = true \/ truthy_str (OPENAI_API_KEY s) = true ->
  completions_create (buildClassificationMessage email) (world s) = (Ok result, w) ->
  get_prop result "classification" = Ok (Some (JStr c)) ->
  c ∈ CATEGORIES ->
  exists r s',
    classifyEmail email s = (Ok r, s') /\
    classification r = c /\
    (forall q, get_prop result "confidence" = Ok (Some (JNum (JFin q))) ->
       (0 <= q)%Q -> (q <= 1)%Q -> confidence r = JFin q) /\
    (forall n, get_prop result "confidence" = Ok (Some (JNum n)) ->
       num_lt n (JFin 0) = true \/ num_lt (JFin 1) n = true ->
       confidence r = JFin (1 # 2)) /\
    ((forall n, get_prop result "confidence" <> Ok (Some (JNum n))) ->
     confidence r = JFin (1 # 2)) /\
    (forall text, get_prop result "reason" = Ok (Some (JStr text)) -> text <> "" ->
       reason r = JStr text /\ well_formed r) /\
    (get_prop result "reason" = Ok None ->
     reason r = JStr "No reason provided" /\ well_formed r) /\
    (forall v, get_prop result "reason" = Ok (Some v) -> truthy v = false ->
       reason r = JStr "No reason provided" /\ well_formed r).
Proof.
  intros Hready Hcreate Hcls Hin.
  destruct result as [| | | | |fields]; try discriminate Hcls.
  simpl in Hcls. injection Hcls as Hcls.
  rewrite (classifyEmail_configured email s Hready). cbv zeta.
  set (s0 := if openai s then s else set_openai true s).
  assert (world s0 = world s) as Hworld by (unfold s0; by destruct (openai s)).
  unfold classify_attempt, bind, extern. rewrite Hworld, Hcreate.
  pose proof (validate_result_valid fields c
                (set_outside w
                   (trace s0 ++ [OpenAICreate (buildClassificationMessage email)]) s0)
                Hcls Hin) as Hvalid.
  rewrite Hvalid.
  destruct (validate_result_checked _ _ _ _ Hvalid) as [Hknown Hrange].
  eexists _, _. split; [reflexivity|]. simpl.
  assert (forall v, reason_is_text
            {| classification := c;
               confidence :=
                 match assoc "confidence" fields with
                 | Some (JNum n) =>
                     if num_lt n (JFin 0) || num_lt (JFin 1) n then JFin (1 # 2) else n
                 | _ => JFin (1 # 2)
                 end;
               reason := v |} <-> exists text, v = JStr text /\ text <> "") as Htext
    by (intros v; reflexivity).
  split_and!.
  - done.
  - intros q [= ->] H0 H1. unfold num_lt.
    apply Qle_bool_iff in H0, H1. by rewrite H0, H1.
  - intros n [= ->] Hout. by destruct Hout as [-> | ->]; rewrite ?orb_true_r.
  - intros Hnot. destruct (assoc "confidence" fields) as [[| |n| | |]|]; try done.
    by destruct (Hnot n).
  - intros text [= Hr] Hne. rewrite Hr in *. simpl.
    apply String.eqb_neq in Hne. rewrite Hne in *. simpl.
    split; [done|]. split_and!; [exact Hknown|exact Hrange|].
    exists text. split; [done|]. by apply String.eqb_neq.
  - intros [= Hr]. rewrite Hr in *. split; [done|].
    split_and!; [exact Hknown|exact Hrange|]. by eexists.
  - intros v [= Hr] Hv. rewrite Hr in *. rewrite Hv in *. split; [done|].
    split_and!; [exact Hknown|exact Hrange|]. by eexists.
Qed.

(** X21.  [isOpenAIReady] changes nothing and tells whether the
    classifier can run: when it answers [true], [classifyEmail] returns
    for every email; when it answers [false], [classifyEmail] raises
    "OPENAI_API_KEY not set" for every email, before any request. *)
Theorem isOpenAIReady_tells_classifyEmail s :
  exists ready : bool,
    isOpenAIReady s = (Ok ready, s) /\
    (ready = true ->
     forall email, exists r s', classifyEmail email s = (Ok r, s')) /\
    (ready = false ->
     forall email,
       classifyEmail email s = (Throw (mkError "OPENAI_API_KEY not set"), s)).
Proof.
  exists (openai s || truthy_str (OPENAI_API_KEY s)). split; [done|]. split.
  - intros Hready email. apply orb_true_iff in Hready.
    rewrite (classifyEmail_configured email s Hready). cbv zeta.
    destruct (classify_attempt _ _) as [[r|e] s1]; by eexists _, _.
  - intros Hnot email. apply orb_false_iff in Hnot as [Ho Hk].
    by apply classifyEmail_unconfigured.
Qed.

End ClassifierMore.

(** The answer IMPORTANT with confidence 0.9 and the reason "bill". *)
Lemma classifyEmail_valid_answer_witness :
  exists r s',
    classifyEmail Cases.invoice (Sim.booted Sim.three_messages) = (Ok r, s') /\
    classification r = "IMPORTANT" /\
    confidence r = JFin (9 # 10) /\
    reason r = JStr "bill" /\
    well_formed r.
Proof.
  destruct (classifyEmail_valid_answer (SV := Sim.sim_services)
              Cases.invoice (Sim.booted Sim.three_messages)
              (JObj [("classification", JStr "IMPORTANT");
                     ("confidence", JNum (JFin (9 # 10))); ("reason", JStr "bill")])
              (Sim.with_replies
                 [Sim.answer "REVIEW" (7 # 10) (JStr "newsletter");
                  Sim.answer "JUNK" (99 # 100) (JStr "scam")] Sim.three_messages)
              "IMPORTANT" (or_introl eq_refl) eq_refl eq_refl)
    as (r & s' & Hrun & Hc & Hconf & _ & _ & Hreason & _).
  - apply includes_elem_of. reflexivity.
  - exists r, s'. split; [exact Hrun|]. split; [exact Hc|]. split.
    + apply Hconf; [reflexivity|discriminate|discriminate].
    + apply (Hreason "bill"); [reflexivity|discriminate].
Defined.

(** With the key set the classifier is ready and returns; without a
    client and a key it is not and raises. *)
Lemma isOpenAIReady_tells_classifyEmail_witness :
  (exists r s', classifyEmail Cases.invoice (Sim.booted Sim.three_messages) = (Ok r, s')) /\
  classifyEmail Cases.invoice Cases.no_api_key
    = (Throw (mkError "OPENAI_API_KEY not set"), Cases.no_api_key).
Proof.
  split.
  - destruct (isOpenAIReady_tells_classifyEmail (Sim.booted Sim.three_messages))
      as (ready & Hready & Hyes & _).
    apply Hyes. by injection Hready as <-.
  - destruct (isOpenAIReady_tells_classifyEmail Cases.no_api_key)
      as (ready & Hready & _ & Hno).
    apply Hno. by injection Hready as <-.
Defined.

(** ** The watcher beyond one cycle *)

Ltac preserves_more_step :=
  lazymatch goal with
  | |- preserves _ (outside _) =>
      let s := fresh "s" in let r := fresh "r" in let s' := fresh "s'" in
      let w := fresh "w" in
      intros s r s'; unfold outside;
      lazymatch goal with
      | |- context [?op (world s)] => destruct (op (world s)) as [? w]
      end;
      intros [= _ <-]; rewrite <- (app_nil_r (trace s)); apply frame_outside
  end.

Ltac unfold_more :=
  progress unfold initialize, route_emails_recent, route_watcher_poll, api_poll,
    route_watcher_stop, route_logout, route_auth_callback, handleAuthCallback,
    clearTokens.

(** The callers of [startWatcher] and [stopWatcher], which stay folded. *)
Ltac unfold_callers :=
  progress unfold initialize, route_watcher_poll, api_poll, route_watcher_stop,
    route_watcher_start, isWatcherRunning, getWatcherStatus, initializeOpenAI,
    initializeGmail, ensureLabels, store_labelId.

Ltac preserves_everything :=
  repeat first [preserves_known | preserves_step | preserves_more_step
               | unfold_more | unfold_program].

Ltac preserves_callers :=
  repeat first [preserves_known | preserves_step | preserves_more_step
               | unfold_callers].

Section WatcherMore.
Context {W : Type} `{SV : Services W} `{AV : AuthServices W}.
Implicit Types (s : state W) (messageId : string).

(** [startWatcher], case by case. *)
Lemma startWatcher_run s :
  startWatcher s =
    match watcherInterval s with
    | Some _ => (Ok false, s)
    | None =>
        if gmail s then
          (Ok true,
           armed (num_or (parseInt (POLL_INTERVAL_MS s)) 60000)
             (snd (poll (snd (loadProcessedIds s)))))
        else (Throw (mkError "Not authenticated with Gmail"), s)
    end.
Proof.
  unfold startWatcher, isAuthenticated. unfold bind at 1. unfold gets at 1. simpl.
  destruct (watcherInterval s) as [handle|]; [done|].
  unfold bind at 1. unfold gets at 1. simpl.
  destruct (gmail s); simpl; [|done].
  pose proof (loadProcessedIds_run s) as Hload.
  assert (exists s1, loadProcessedIds s = (Ok tt, s1) /\
            POLL_INTERVAL_MS s1 = POLL_INTERVAL_MS s) as (s1 & Hs1 & Henv).
  { rewrite Hload. destruct (fs_readFile (world s)) as [[parsed|e] w];
      eexists; split; reflexivity. }
  unfold bind at 1. rewrite Hs1. simpl.
  unfold bind at 1. unfold gets at 1. simpl.
  pose proof (poll_returns s1) as Hpoll.
  unfold bind at 1. destruct (poll s1) as [r s2] eqn:Es2. simpl in Hpoll. subst r.
  rewrite Henv. reflexivity.
Qed.

Lemma stopWatcher_run s :
  stopWatcher s =
    match watcherInterval s with
    | Some handle => (Ok true, disarmed handle s)
    | None => (Ok false, s)
    end.
Proof.
  unfold stopWatcher, bind, gets. simpl. by destruct (watcherInterval s).
Qed.

#[local] Instance keeps_running_consistent_frame :
  Frame (keeps_running_consistent (W := W)).
Proof.
  split; [split|].
  - intros s Hs. exact Hs.
  - intros s1 s2 s3 H1 H2 Hs. by apply H2, H1.
  - intros s w l Hs. exact Hs.
Qed.

Lemma counters_le_refl (st : Stats) : counters_le st st.
Proof. unfold counters_le. lia. Qed.

Lemma counters_le_trans (a b c : Stats) :
  counters_le a b -> counters_le b c -> counters_le a c.
Proof. unfold counters_le. lia. Qed.

#[local] Instance counters_grow_frame : Frame (counters_grow (W := W)).
Proof.
  split; [split|].
  - intros s. apply counters_le_refl.
  - intros s1 s2 s3. apply counters_le_trans.
  - intros s w l. apply counters_le_refl.
Qed.

Lemma isRunning_incr_key (key : string) (st : Stats) :
  isRunning (incr_key key st) = isRunning st.
Proof.
  unfold incr_key. by repeat (destruct (String.eqb key _); [done|]).
Qed.

Lemma counters_le_incr_key (key : string) (st : Stats) :
  counters_le st (incr_key key st).
Proof.
  unfold incr_key, counters_le.
  repeat (destruct (String.eqb key _); [simpl; lia|]). lia.
Qed.

Lemma startWatcher_keeps_running_consistent :
  preserves keeps_running_consistent (startWatcher (W := W)).
Proof.
  intros s r s'. rewrite startWatcher_run.
  destruct (watcherInterval s); [by intros [= _ <-]|].
  destruct (gmail s); intros [= _ <-]; [|done]. intros _. reflexivity.
Qed.

Lemma stopWatcher_keeps_running_consistent :
  preserves keeps_running_consistent (stopWatcher (W := W)).
Proof.
  intros s r s'. rewrite stopWatcher_run.
  destruct (watcherInterval s); intros [= _ <-]; [|done]. intros _. reflexivity.
Qed.

Ltac running_leaf :=
  unfold keeps_running_consistent, running_consistent; simpl;
  rewrite ?isRunning_incr_key; done.

Lemma run_keeps_running_consistent (op : operation) s :
  keeps_running_consistent s (run op s).
Proof.
  pose proof startWatcher_keeps_running_consistent as Hstart.
  pose proof stopWatcher_keeps_running_consistent as Hstop.
  destruct op; cbn [run]; apply preserves_snd;
    first [exact Hstart | exact Hstop | idtac];
    first [ solve [preserves_callers; running_leaf]
          | solve [preserves_all; running_leaf] ].
Qed.

Lemma run_more_keeps_running_consistent (op : more_operation) s :
  keeps_running_consistent s (run_more op s).
Proof.
  pose proof startWatcher_keeps_running_consistent as Hstart.
  pose proof stopWatcher_keeps_running_consistent as Hstop.
  destruct op; cbn [run_more]; apply preserves_snd;
    first [ solve [preserves_callers; running_leaf]
          | solve [preserves_everything; running_leaf] ].
Qed.

(** X1.  [stats.isRunning] and the timer handle change together: once
    [stats.isRunning] says what [isWatcherRunning()] says, it does so
    after every function and route, and the status then reports the flag
    [isWatcherRunning] returns and the size of the ledger. *)
Theorem running_flag_consistent :
  (forall (op : operation) s,
     running_consistent s -> running_consistent (run op s)) /\
  (forall (op : more_operation) s,
     running_consistent s -> running_consistent (run_more op s)) /\
  (forall s,
     running_consistent s ->
     exists (st : Stats) (running : bool),
       getWatcherStatus s = (Ok (st, Z.of_nat (length (processedIds s))), s) /\
       isWatcherRunning s = (Ok running, s) /\
       isRunning st = running).
Proof.
  split_and!.
  - intros op s. apply run_keeps_running_consistent.
  - intros op s. apply run_more_keeps_running_consistent.
  - intros s Hs. exists (stats s), (isRunning (stats s)). split_and!; [done| |done].
    unfold isWatcherRunning, bind, gets, ret. simpl. by rewrite Hs.
Qed.

(** X2.  Stopping a watcher that [startWatcher] started clears exactly
    the timer that was armed, with one call, and resets [isRunning]; the
    ledger, the cursor and the counters stay as the first cycle left
    them.  A second stop returns [false] and changes nothing.  The stop
    route answers 200 with [success: true] both times and tells which
    case it was. *)
Theorem start_then_stop s :
  watcherInterval s = None ->
  gmail s = true ->
  let intervalMs := num_or (parseInt (POLL_INTERVAL_MS s)) 60000 in
  let s1 := snd (startWatcher s) in
  let s2 := snd (stopWatcher s1) in
  watcherInterval s1 = Some (Timer intervalMs) /\
  isRunning (stats s1) = true /\
  stopWatcher s1 = (Ok true, s2) /\
  new_calls s1 s2 = [ClearInterval (Timer intervalMs)] /\
  watcherInterval s2 = None /\
  isRunning (stats s2) = false /\
  processedIds s2 = processedIds s1 /\
  lastHistoryId s2 = lastHistoryId s1 /\
  tally (stats s2) = tally (stats s1) /\
  errors (stats s2) = errors (stats s1) /\
  stopWatcher s2 = (Ok false, s2) /\
  route_watcher_stop s1 =
    (Ok {| status := 200; success := true; text := "Watcher stopped" |}, s2) /\
  route_watcher_stop s2 =
    (Ok {| status := 200; success := true; text := "Watcher was not running" |}, s2).
Proof.
  intros Hw Hg. cbv zeta.
  rewrite (startWatcher_run s), Hw, Hg. simpl.
  set (s1 := armed _ _).
  assert (stopWatcher s1 = (Ok true, disarmed (Timer (num_or (parseInt (POLL_INTERVAL_MS s)) 60000)) s1))
    as Hstop by (by rewrite stopWatcher_run).
  rewrite Hstop. simpl.
  set (s2 := disarmed _ _).
  assert (stopWatcher s2 = (Ok false, s2)) as Hstop2 by (by rewrite stopWatcher_run).
  split_and!; try done;
    first [ by apply new_calls_app
          | unfold route_watcher_stop, try_catch, bind; by rewrite ?Hstop, ?Hstop2 ].
Qed.

Ltac counters_leaf :=
  unfold counters_grow; simpl;
  first [ apply counters_le_refl | apply counters_le_incr_key
        | unfold counters_le; simpl; lia ].

(** X8.  No function and no route ever lowers a counter of [stats]:
    [totalProcessed], [important], [review], [junk] and [errors] after a
    run are at least what they were before it. *)
Theorem counters_never_decrease :
  (forall (op : operation) s, counters_le (stats s) (stats (run op s))) /\
  (forall (op : more_operation) s, counters_le (stats s) (stats (run_more op s))).
Proof.
  split.
  - intros op s. change (counters_grow s (run op s)).
    destruct op; cbn [run]; apply preserves_snd; preserves_all; counters_leaf.
  - intros op s. change (counters_grow s (run_more op s)).
    destruct op; cbn [run_more]; apply preserves_snd; preserves_everything;
      counters_leaf.
Qed.

End WatcherMore.

(** ** The ledger file *)

Section LedgerMore.
Context {W : Type} `{SV : Services W}.
Implicit Types (s : state W).

(** X4.  [loadProcessedIds] never raises and makes one call, the read.
    The ledger it leaves has no duplicate, whatever the file holds.  When
    the read or the parsing fails the ledger is emptied and the cursor is
    left as it was; when the file has no [ids] the ledger is empty; when
    the file's [historyId] is missing, [null] or empty the cursor becomes
    [null]. *)
Theorem loadProcessedIds_edge_cases s :
  let s' := snd (loadProcessedIds s) in
  fst (loadProcessedIds s) = Ok tt /\
  new_calls s s' = [FsReadFile] /\
  NoDup (processedIds s') /\
  (forall e w, fs_readFile (world s) = (Throw e, w) ->
     processedIds s' = [] /\ lastHistoryId s' = lastHistoryId s) /\
  (forall parsed w, fs_readFile (world s) = (Ok parsed, w) ->
     (pf_ids parsed = None -> processedIds s' = []) /\
     (forall ids, pf_ids parsed = Some ids -> NoDup ids -> processedIds s' = ids) /\
     (truthy_str (pf_historyId parsed) = false -> lastHistoryId s' = None) /\
     (truthy_str (pf_historyId parsed) = true ->
      lastHistoryId s' = pf_historyId parsed)).
Proof.
  cbv zeta. rewrite loadProcessedIds_run.
  destruct (fs_readFile (world s)) as [[parsed|e] w]; simpl.
  - split_and!; try done.
    + by apply new_calls_app.
    + apply set_of_array_is_set.
    + intros parsed' w' [= <- _]. split_and!.
      * by intros ->.
      * intros ids -> Hnd. simpl. by apply set_of_array_NoDup.
      * by intros ->.
      * by intros ->.
  - split_and!; try done.
    + by apply new_calls_app.
    + apply NoDup_nil_2.
Qed.

(** X3.  What [saveProcessedIds] writes, [loadProcessedIds] reads back:
    when the save wrote [content] and a later read of the file returns
    that content, the load, from any state of the process, restores the
    ledger the save left in memory, in the same order, and the cursor
    that was saved (an empty cursor comes back as [null]). *)
Theorem save_then_load s (content : processed_file) (later : state W) (w : W) :
  NoDup (processedIds s) ->
  let s1 := snd (saveProcessedIds s) in
  new_calls s s1 = [FsMkdir; FsWriteFile content] ->
  fs_readFile (world later) = (Ok content, w) ->
  let s2 := snd (loadProcessedIds later) in
  processedIds s2 = processedIds s1 /\
  lastHistoryId s2 =
    (if truthy_str (lastHistoryId s) then lastHistoryId s else None).
Proof.
  intros Hnd. cbv zeta. rewrite saveProcessedIds_run. cbv zeta.
  destruct (fs_mkdir (world s)) as [[[]|e] w1]; simpl.
  2: { rewrite (new_calls_app s _ [FsMkdir]) by done. discriminate. }
  destruct (now w1) as [savedAt w2].
  destruct (fs_writeFile _ w2) as [r w3]. simpl.
  erewrite new_calls_app by (simpl; reflexivity). intros [= <-] Hread.
  rewrite loadProcessedIds_run, Hread. simpl. split; [|done].
  apply set_of_array_NoDup.
  destruct (Z.of_nat (length (processedIds s)) >? 10000);
    [apply set_of_array_is_set|done].
Qed.

(** X13.  At or below 10,000 ids [saveProcessedIds] evicts nothing: the
    ledger in memory is unchanged and what is written, once the directory
    exists, is the whole ledger in insertion order with the current
    cursor. *)
Theorem saveProcessedIds_small_ledger s :
  Z.of_nat (length (processedIds s)) <= 10000 ->
  let s' := snd (saveProcessedIds s) in
  processedIds s' = processedIds s /\
  lastHistoryId s' = lastHistoryId s /\
  stats s' = stats s /\
  ((exists e w, fs_mkdir (world s) = (Throw e, w)) /\ new_calls s s' = [FsMkdir]
   \/
   exists savedAt,
     new_calls s s' =
       [FsMkdir;
        FsWriteFile {| pf_ids := Some (processedIds s);
                       pf_historyId := lastHistoryId s;
                       pf_savedAt := savedAt |}]).
Proof.
  intros Hlen. cbv zeta. rewrite saveProcessedIds_run. cbv zeta.
  assert ((Z.of_nat (length (processedIds s)) >? 10000) = false) as ->
    by (rewrite Z.gtb_ltb; apply Z.ltb_ge; lia).
  destruct (fs_mkdir (world s)) as [[[]|e] w1]; simpl.
  - destruct (now w1) as [savedAt w2]. destruct (fs_writeFile _ w2) as [r w3]. simpl.
    split_and!; try done. right. exists savedAt. by apply new_calls_app.
  - split_and!; try done. left. split; [by eauto|by apply new_calls_app].
Qed.

End LedgerMore.

(** A ledger that holds [a] and the cursor "1001", saved, then loaded by
    a process that starts with empty memory. *)
Lemma save_then_load_witness :
  let s := set_lastHistoryId (Some "1001") Cases.seen_a in
  let s1 := snd (saveProcessedIds s) in
  let restarted := Sim.booted (world s1) in
  processedIds (snd (loadProcessedIds restarted)) = processedIds s1 /\
  lastHistoryId (snd (loadProcessedIds restarted)) = Some "1001".
Proof.
  cbv zeta.
  set (s := set_lastHistoryId (Some "1001") Cases.seen_a).
  assert (processedIds s = ["a"]) as Hids by (vm_compute; reflexivity).
  assert (lastHistoryId s = Some "1001") as Hcur by (vm_compute; reflexivity).
  destruct (save_then_load s
              {| pf_ids := Some ["a"]; pf_historyId := Some "1001";
                 pf_savedAt := "2026-11-02T09:00:00.000Z" |}
              (Sim.booted (world (snd (saveProcessedIds s))))
              (world (snd (saveProcessedIds s)))) as [Hledger Hcursor].
  - rewrite Hids. by apply (bool_decide_unpack _).
  - vm_compute. reflexivity.
  - vm_compute. reflexivity.
  - split; [exact Hledger|]. rewrite Hcursor, Hcur. reflexivity.
Defined.

(** With no file to read, the load ends with an empty ledger and the
    cursor it found. *)
Lemma loadProcessedIds_edge_cases_witness :
  processedIds (snd (loadProcessedIds Cases.stale_cursor)) = [] /\
  lastHistoryId (snd (loadProcessedIds Cases.stale_cursor)) = Some "900".
Proof.
  destruct (loadProcessedIds_edge_cases Cases.stale_cursor) as (_ & _ & _ & Hfail & _).
  exact (Hfail (Error "ENOENT: no such file or directory" (StrCode "ENOENT"))
           Sim.three_messages eq_refl).
Defined.

(** A ledger of exactly 10,000 ids is written whole. *)
Lemma saveProcessedIds_small_ledger_witness :
  let s := set_processedIds (pretty <$> seq 0 (Z.to_nat 10000))
             (Sim.booted Sim.three_messages) in
  processedIds (snd (saveProcessedIds s)) = processedIds s.
Proof.
  cbv zeta.
  refine (proj1 (saveProcessedIds_small_ledger _ _)).
  change (Z.of_nat (length (pretty <$> seq 0 (Z.to_nat 10000))) <= 10000).
  rewrite length_fmap, length_seq. lia.
Defined.

(** ** Resolving the candidates *)

Section PollMore.
Context {W : Type} `{SV : Services W}.
Implicit Types (s : state W) (messageId : string).

#[local] Instance same_books_frame : Frame (same_books (W := W)).
Proof.
  split; [split|].
  - by intros s.
  - intros s1 s2 s3 [H1 H1'] [H2 H2']. split; congruence.
  - by intros s w l.
Qed.

#[local] Instance same_setup_frame : Frame (same_setup (W := W)).
Proof.
  split; [split|].
  - by intros s.
  - intros s1 s2 s3 (?&?&?&?&?) (?&?&?&?&?). repeat split; congruence.
  - by intros s w l.
Qed.

(** [Promise.all] over the fetches: every fetch is made, in the order of
    the ids, whether or not one of them fails. *)
Lemma promise_all_getMessage (ids : list string) s r s' :
  gmail s = true ->
  promise_all (map getMessage ids) s = (r, s') ->
  trace s' = trace s ++ map GmailGet ids /\
  gmail s' = true /\
  (forall messages, r = Ok messages -> length messages = length ids).
Proof.
  revert s r s'. induction ids as [|id ids IH]; intros s r s' Hg; simpl.
  - intros [= <- <-]. rewrite app_nil_r. split_and!; [done..|].
    by intros messages [= <-].
  - rewrite (getMessage_run id s Hg).
    destruct (messages_get id (world s)) as [r1 w1].
    destruct (promise_all _ _) as [rs s2] eqn:Erest.
    apply IH in Erest as (Htr & Hg2 & Hlen); [|done].
    intros [= <- <-]. split_and!.
    + rewrite Htr. simpl. by rewrite <- app_assoc.
    + done.
    + intros messages. destruct r1 as [m|e]; [|discriminate].
      destruct rs as [l|e]; [|discriminate].
      intros [= <-]. simpl. by rewrite (Hlen l eq_refl).
Qed.

Lemma getRecentMessages_run (maxResults : Z) s :
  gmail s = true ->
  getRecentMessages maxResults s =
    let '(r, w) := messages_list maxResults "in:inbox" (world s) in
    let s1 := set_outside w (trace s ++ [GmailList maxResults "in:inbox"]) s in
    match r with
    | Ok (Some ids) => promise_all (map getMessage ids) s1
    | Ok None => (Ok [], s1)
    | Throw e => (Throw e, s1)
    end.
Proof.
  intros Hg. unfold getRecentMessages, require_gmail. unfold bind at 1 2.
  unfold gets at 1. simpl. rewrite Hg. simpl. unfold bind, extern.
  by destruct (messages_list _ _ _) as [[[ids|]|e] w].
Qed.

(** [Promise.all] over the fetches fails when one of them does, wherever
    it stands in the list, and returns when all of them do. *)
Lemma promise_all_getMessage_fails (ids : list string) (id : string) s :
  gmail s = true ->
  id ∈ ids ->
  (forall w, exists e w', messages_get id w = (Throw e, w')) ->
  exists e, fst (promise_all (map getMessage ids) s) = Throw e.
Proof.
  intros Hg Hin Hfail. revert s Hg.
  induction ids as [|id0 ids IH]; intros s Hg; [by apply elem_of_nil in Hin|].
  simpl. rewrite (getMessage_run id0 s Hg).
  destruct (messages_get id0 (world s)) as [r1 w1] eqn:Eget.
  destruct (promise_all _ _) as [rs s2] eqn:Erest. simpl.
  destruct (decide (id = id0)) as [->|Hne].
  - destruct (Hfail (world s)) as (e & w' & Hthrow). rewrite Hthrow in Eget.
    injection Eget as <- _. by exists e.
  - apply elem_of_cons in Hin as [?|Hin]; [done|].
    destruct (IH Hin (set_outside w1 (trace s ++ [GmailGet id0]) s) Hg) as [e He].
    rewrite Erest in He. simpl in He. subst rs.
    destruct r1 as [m|e1]; by eexists.
Qed.

Lemma promise_all_getMessage_returns (ids : list string) s :
  gmail s = true ->
  (forall id, id ∈ ids -> forall w, exists m w', messages_get id w = (Ok m, w')) ->
  exists messages, fst (promise_all (map getMessage ids) s) = Ok messages.
Proof.
  intros Hg Hok. revert s Hg.
  induction ids as [|id0 ids IH]; intros s Hg; [by exists []|].
  simpl. rewrite (getMessage_run id0 s Hg).
  destruct (Hok id0 (list_elem_of_here _ _) (world s)) as (m & w1 & ->).
  destruct (IH (fun id Hid => Hok id (list_elem_of_further _ _ _ Hid))
              (set_outside w1 (trace s ++ [GmailGet id0]) s) Hg) as [l Hl].
  destruct (promise_all _ _) as [rs s2]. simpl in *. subst rs. by eexists.
Qed.

(** X16.  [getRecentMessages] with the client initialised lists the inbox
    once and then fetches every listed id, in the order of the listing,
    even when one of the fetches fails.  A result holds as many messages
    as ids were listed; the retrieval returns when every listed message
    can be fetched, and it fails when one listed message cannot,
    wherever it stands in the listing.  A listing without messages gives
    the empty list with no fetch. *)
Theorem getRecentMessages_all_or_nothing (maxResults : Z) s :
  gmail s = true ->
  let s' := snd (getRecentMessages maxResults s) in
  (forall ids w,
     messages_list maxResults "in:inbox" (world s) = (Ok (Some ids), w) ->
     new_calls s s' = GmailList maxResults "in:inbox" :: map GmailGet ids /\
     (forall messages, fst (getRecentMessages maxResults s) = Ok messages ->
        length messages = length ids) /\
     ((forall id, id ∈ ids -> forall w0, exists m w', messages_get id w0 = (Ok m, w')) ->
      exists messages, fst (getRecentMessages maxResults s) = Ok messages) /\
     (forall id,
        id ∈ ids ->
        (forall w0, exists e w', messages_get id w0 = (Throw e, w')) ->
        exists e, fst (getRecentMessages maxResults s) = Throw e)) /\
  (forall w,
     messages_list maxResults "in:inbox" (world s) = (Ok None, w) ->
     getRecentMessages maxResults s
       = (Ok [], set_outside w (trace s ++ [GmailList maxResults "in:inbox"]) s)) /\
  (forall e w,
     messages_list maxResults "in:inbox" (world s) = (Throw e, w) ->
     getRecentMessages maxResults s
       = (Throw e, set_outside w (trace s ++ [GmailList maxResults "in:inbox"]) s)).
Proof.
  intros Hg. cbv zeta.
  rewrite (getRecentMessages_run maxResults s Hg). split_and!.
  - intros ids w ->. cbv zeta.
    destruct (promise_all _ _) as [r s'] eqn:Eall.
    pose proof Eall as Hall.
    apply promise_all_getMessage in Eall as (Htr & _ & Hlen); [|done].
    simpl. split_and!.
    + apply new_calls_app. rewrite Htr. simpl. by rewrite <- app_assoc.
    + exact Hlen.
    + intros Hok.
      destruct (promise_all_getMessage_returns ids
                  (set_outside w (trace s ++ [GmailList maxResults "in:inbox"]) s)
                  Hg Hok) as [l Hl].
      rewrite Hall in Hl. by exists l.
    + intros id Hin Hfail.
      destruct (promise_all_getMessage_fails ids id
                  (set_outside w (trace s ++ [GmailList maxResults "in:inbox"]) s)
                  Hg Hin Hfail) as [e He].
      rewrite Hall in He. by exists e.
  - by intros w ->.
  - by intros e w ->.
Qed.

(** [listHistory] passes on every failure but the 404. *)
Lemma listHistory_rethrows (h : string) s (e : exn) (w1 : W) :
  gmail s = true ->
  history_list h (world s) = (Throw e, w1) ->
  code e <> NumCode 404 ->
  listHistory h s = (Throw e, set_outside w1 (trace s ++ [GmailHistoryList h]) s).
Proof.
  intros Hg Hfail Hcode.
  unfold listHistory, require_gmail, try_catch, bind, gets, extern, ret. simpl.
  rewrite Hg. simpl. rewrite Hfail.
  by rewrite (not_404 e _ _ Hcode).
Qed.

Lemma listHistory_ok (h : string) s (data : history_data) (w1 : W) :
  gmail s = true ->
  history_list h (world s) = (Ok data, w1) ->
  listHistory h s = (Ok (Some data), set_outside w1 (trace s ++ [GmailHistoryList h]) s).
Proof.
  intros Hg Hok.
  unfold listHistory, require_gmail, try_catch, bind, gets, extern, ret. simpl.
  rewrite Hg. simpl. by rewrite Hok.
Qed.

(** X5.  The incremental sync.  With a cursor, when the history request
    is answered with a non-empty history id, the candidates are the ids
    of the [messagesAdded] of the history entries, in the order of the
    entries and with their repetitions, none when there is no history;
    the cursor becomes the returned history id and the only call is the
    history request.  When the returned history id is empty the full sync
    runs in the same cycle. *)
Theorem resolve_candidates_incremental s (h : string) (data : history_data) (w1 : W) :
  gmail s = true ->
  lastHistoryId s = Some h ->
  h <> "" ->
  history_list h (world s) = (Ok data, w1) ->
  let advanced :=
    set_lastHistoryId (Some (historyId data))
      (set_outside w1 (trace s ++ [GmailHistoryList h]) s) in
  (historyId data <> "" ->
   resolve_candidates s =
     (Ok (match history data with
          | Some items => flat_map (fun item => default [] (messagesAdded item)) items
          | None => []
          end), advanced) /\
   new_calls s advanced = [GmailHistoryList h]) /\
  (historyId data = "" -> resolve_candidates s = full_sync advanced).
Proof.
  intros Hg Hcur Hne Hok. cbv zeta.
  assert (poll_incremental s =
          (Ok (match history data with
               | Some items => added_ids items
               | None => []
               end),
           set_lastHistoryId (Some (historyId data))
             (set_outside w1 (trace s ++ [GmailHistoryList h]) s))) as Hinc.
  { unfold poll_incremental. unfold bind at 1. unfold gets at 1. simpl.
    rewrite Hcur. simpl. apply String.eqb_neq in Hne. rewrite Hne. simpl.
    unfold bind at 1. rewrite (listHistory_ok h s data w1 Hg Hok).
    by destruct (history data). }
  assert (forall advanced,
            poll_incremental s =
              (Ok (match history data with
                   | Some items => added_ids items
                   | None => []
                   end), advanced) ->
            resolve_candidates s =
              poll_full (match history data with
                         | Some items => added_ids items
                         | None => []
                         end) advanced) as Hres.
  { intros advanced Hadv. unfold resolve_candidates, bind. by rewrite Hadv. }
  rewrite (Hres _ Hinc). unfold poll_full, bind, gets. simpl. split.
  - intros Hid. apply String.eqb_neq in Hid. rewrite Hid. simpl.
    split; [reflexivity|]. apply new_calls_app. reflexivity.
  - intros Hempty. rewrite Hempty. simpl. reflexivity.
Qed.

(** X6.  A cycle whose resolution gives no candidate ends there: [poll]
    returns the state the resolution left, so nothing is fetched,
    classified or written to the ledger file after it, also when the
    resolution moved the cursor; the ledger and the counters are as
    before the cycle and [lastRun] is the time of the cycle. *)
Theorem poll_without_candidates s (t : string) (w0 : W) s1 :
  gmail s = true ->
  now (world s) = (t, w0) ->
  let s0 := set_stats (set_lastRun (Some t) (stats s)) (set_outside w0 (trace s) s) in
  resolve_candidates s0 = (Ok [], s1) ->
  poll s = (Ok tt, s1) /\
  processedIds s1 = processedIds s /\
  tally (stats s1) = tally (stats s) /\
  errors (stats s1) = errors (stats s) /\
  lastRun (stats s1) = Some t.
Proof.
  intros Hg Hnow. cbv zeta. intros Hres.
  assert (preserves same_books (resolve_candidates (W := W))) as Hbooks
    by (preserves_all; done).
  destruct (Hbooks _ _ _ Hres) as [Hids Hstats].
  assert (poll s = (Ok tt, s1)) as Hpoll.
  { rewrite (poll_run s t w0 Hg Hnow). cbv zeta. unfold bind at 1. by rewrite Hres. }
  split_and!; [exact Hpoll|done|by rewrite Hstats..].
Qed.

(** X7.  A failure of the history request other than the 404 ends the
    cycle: [poll] returns, [errors] is one higher, the only call is the
    history request, and the cursor, the ledger and the counters of
    classified messages are as they were, so the next cycle asks again
    from the same cursor. *)
Theorem poll_history_failure s (h t : string) (w0 w1 : W) (e : exn) :
  gmail s = true ->
  lastHistoryId s = Some h ->
  h <> "" ->
  now (world s) = (t, w0) ->
  history_list h w0 = (Throw e, w1) ->
  code e <> NumCode 404 ->
  let s' := snd (poll s) in
  fst (poll s) = Ok tt /\
  new_calls s s' = [GmailHistoryList h] /\
  lastHistoryId s' = Some h /\
  processedIds s' = processedIds s /\
  errors (stats s') = errors (stats s) + 1 /\
  tally (stats s') = tally (stats s) /\
  lastRun (stats s') = Some t.
Proof.
  intros Hg Hcur Hne Hnow Hfail Hcode. cbv zeta.
  set (s0 := set_stats (set_lastRun (Some t) (stats s)) (set_outside w0 (trace s) s)).
  assert (resolve_candidates s0 =
          (Throw e, set_outside w1 (trace s0 ++ [GmailHistoryList h]) s0)) as Hres.
  { unfold resolve_candidates, poll_incremental. unfold bind at 1 2. unfold gets at 1.
    simpl. rewrite Hcur. simpl. apply String.eqb_neq in Hne. rewrite Hne. simpl.
    unfold bind at 1. by rewrite (listHistory_rethrows h s0 e w1 Hg Hfail Hcode). }
  assert (poll s =
          (Ok tt, after_error (set_outside w1 (trace s0 ++ [GmailHistoryList h]) s0)))
    as Hpoll.
  { rewrite (poll_run s t w0 Hg Hnow). cbv zeta. fold s0.
    unfold bind at 1. by rewrite Hres. }
  rewrite Hpoll. simpl.
  split_and!; try done. by apply new_calls_app.
Qed.

(** X10.  [poll] never raises and never touches the Gmail client, the
    label ids, the timer or the environment; the ledger stays free of
    duplicates.  Without authentication it does nothing at all: no call,
    no counter, not even [lastRun]. *)
Theorem poll_is_contained s :
  fst (poll s) = Ok tt /\
  same_setup s (snd (poll s)) /\
  (NoDup (processedIds s) -> NoDup (processedIds (snd (poll s)))) /\
  (gmail s = false -> poll s = (Ok tt, s)).
Proof.
  split_and!.
  - apply poll_returns.
  - apply preserves_snd. preserves_all; done.
  - apply (run_stays_set OpPoll).
  - apply poll_unauthenticated.
Qed.

End PollMore.

(** The retrieval on the example mailbox: one listing, three fetches;
    and on the mailbox where [b], the second of the three, can no longer
    be fetched: the three fetches are made and the retrieval fails. *)
Lemma getRecentMessages_all_or_nothing_witness :
  let s := Sim.booted Sim.three_messages in
  let g := SimGap.booted in
  new_calls s (snd (getRecentMessages 20 s))
    = [GmailList 20 "in:inbox"; GmailGet "a"; GmailGet "b"; GmailGet "c"] /\
  (forall messages, fst (getRecentMessages 20 s) = Ok messages -> length messages = 3%nat) /\
  new_calls g (snd (getRecentMessages 20 g))
    = [GmailList 20 "in:inbox"; GmailGet "a"; GmailGet "b"; GmailGet "c"] /\
  exists e, fst (getRecentMessages 20 g) = Throw e.
Proof.
  cbv zeta.
  destruct (getRecentMessages_all_or_nothing (SV := Sim.sim_services) 20
              (Sim.booted Sim.three_messages) eq_refl)
    as (Hlisted & _ & _).
  destruct (Hlisted ["a"; "b"; "c"] Sim.three_messages eq_refl) as (Hcalls & Hlen & _).
  destruct (getRecentMessages_all_or_nothing (SV := SimGap.gap_services) 20
              SimGap.booted eq_refl)
    as (Hgap & _ & _).
  destruct (Hgap ["a"; "b"; "c"] (world SimGap.booted) eq_refl)
    as (Hcalls' & _ & _ & Hfails).
  assert ("b" ∈ ["a"; "b"; "c"]) as Hb
    by (apply list_elem_of_further, list_elem_of_here).
  split; [exact Hcalls|]. split; [exact Hlen|]. split; [exact Hcalls'|].
  apply (Hfails "b" Hb).
  intros w0. exists Sim.not_found, w0. reflexivity.
Defined.

(** Two history entries add [b], then [c] and [b] again: the candidates
    keep the order and the repetition, and the cursor moves to "1002". *)
Lemma resolve_candidates_incremental_witness :
  let s := SimFeed.booted (Ok SimFeed.two_events) in
  fst (resolve_candidates s) = Ok ["b"; "c"; "b"] /\
  lastHistoryId (snd (resolve_candidates s)) = Some "1002" /\
  new_calls s (snd (resolve_candidates s)) = [GmailHistoryList "1001"].
Proof.
  cbv zeta.
  destruct (resolve_candidates_incremental (SV := SimFeed.feed_services) (SimFeed.booted (Ok SimFeed.two_events))
              "1001" SimFeed.two_events
              {| SimFeed.base := Sim.three_messages; SimFeed.changes := Ok SimFeed.two_events |}
              eq_refl eq_refl ltac:(discriminate) eq_refl) as (Hmoves & _).
  destruct (Hmoves ltac:(discriminate)) as [Hres Hcalls].
  rewrite Hres. split; [reflexivity|]. split; [reflexivity|exact Hcalls].
Defined.

(** The mailbox has not moved since the cursor: the cycle ends after the
    history request and the ledger file is not written. *)
Lemma poll_without_candidates_witness :
  let s := MoreCases.up_to_date in
  fst (poll s) = Ok tt /\
  new_calls s (snd (poll s)) = [GmailHistoryList "1001"] /\
  Sim.file (world (snd (poll s))) = None /\
  processedIds (snd (poll s)) = processedIds s.
Proof.
  cbv zeta.
  destruct (poll_without_candidates (SV := Sim.sim_services) MoreCases.up_to_date
              "2026-11-02T09:00:00.000Z" Sim.three_messages
              (snd (resolve_candidates
                      (set_stats (set_lastRun (Some "2026-11-02T09:00:00.000Z")
                                    (stats MoreCases.up_to_date))
                         (set_outside Sim.three_messages (trace MoreCases.up_to_date)
                            MoreCases.up_to_date))))
              eq_refl eq_refl) as (Hpoll & Hids & _).
  - vm_compute. reflexivity.
  - rewrite Hpoll. simpl. split; [reflexivity|]. split; [|split].
    + vm_compute. reflexivity.
    + vm_compute. reflexivity.
    + exact Hids.
Defined.

(** A server error on the history request, on the scripted mailbox. *)
Lemma poll_history_failure_witness :
  let s := SimFeed.booted (Throw MoreCases.history_fails) in
  fst (poll s) = Ok tt /\
  new_calls s (snd (poll s)) = [GmailHistoryList "1001"] /\
  lastHistoryId (snd (poll s)) = Some "1001" /\
  processedIds (snd (poll s)) = ["a"] /\
  errors (stats (snd (poll s))) = 1.
Proof.
  cbv zeta.
  destruct (poll_history_failure (SV := SimFeed.feed_services) (SimFeed.booted (Throw MoreCases.history_fails))
              "1001" "2026-11-02T09:00:00.000Z"
              {| SimFeed.base := Sim.three_messages;
                 SimFeed.changes := Throw MoreCases.history_fails |}
              {| SimFeed.base := Sim.three_messages;
                 SimFeed.changes := Throw MoreCases.history_fails |}
              MoreCases.history_fails
              eq_refl eq_refl ltac:(discriminate) eq_refl eq_refl ltac:(discriminate))
    as (Hret & Hcalls & Hcur & Hids & Herr & _).
  split; [exact Hret|]. split; [exact Hcalls|]. split; [exact Hcur|].
  split; [exact Hids|exact Herr].
Defined.

(** An unauthenticated process: the poll is a no-op. *)
Lemma poll_is_contained_witness :
  poll (Cases.fresh Sim.three_messages) = (Ok tt, Cases.fresh Sim.three_messages) /\
  NoDup (processedIds (snd (poll (Sim.booted Sim.three_messages)))).
Proof.
  split.
  - apply (proj2 (proj2 (proj2 (poll_is_contained (Cases.fresh Sim.three_messages))))).
    reflexivity.
  - apply (proj1 (proj2 (proj2 (poll_is_contained (Sim.booted Sim.three_messages))))).
    apply NoDup_nil_2.
Defined.

(** ** Processing the candidates of a cycle *)

Section ProcessingMore.
Context {W : Type} `{SV : Services W}.
Implicit Types (s : state W) (messageId : string) (email : Email.t).

#[local] Existing Instance extends_frame.



(** X11.  A fetched record that is not in the inbox is marked processed
    and skipped: [processMessage] returns [null], the only call is the
    fetch, the classifier is not asked, the mailbox is not changed and
    [stats] is as it was. *)
Theorem processMessage_not_in_inbox s messageId email s1 :
  messageId ∉ processedIds s ->
  getMessage messageId s = (Ok email, s1) ->
  "INBOX" ∉ Email.labelIds email ->
  let s' := snd (processMessage messageId s) in
  fst (processMessage messageId s) = Ok None /\
  messageId ∈ processedIds s' /\
  stats s' = stats s /\
  new_calls s s' = [GmailGet messageId].
Proof.
  intros Hnew Hget Hinbox. cbv zeta.
  apply includes_false in Hnew. rewrite processMessage_unseen by done.
  rewrite Hget. apply includes_false in Hinbox. rewrite Hinbox. simpl.
  pose proof (getMessage_kept _ _ _ _ Hget) as (_&_&_&_&Hids&Hstats&_).
  destruct (getMessage_ok _ _ _ _ Hget) as [w ->].
  split_and!; [done| |done|by apply new_calls_app].
  apply set_add_elem_of. by left.
Qed.

(** X12.  The watcher never asks the classifier and never changes the
    mailbox.  [processMessage] never returns a record and makes at most
    one call, the fetch of its message: none when the id is in the ledger
    or the client is missing.  So the calls of the loop of a cycle are
    fetches of candidates, and a fetched record in the inbox that carries
    none of the three names is left as it is, unmarked, with an error
    counted. *)
Theorem processMessage_never_classifies s messageId (ids : list string) :
  let s' := snd (processMessage messageId s) in
  fst (processMessage messageId s) = Ok None /\
  new_calls s s' =
    (if includes messageId (processedIds s) || negb (gmail s) then []
     else [GmailGet messageId]) /\
  Forall (fun c => exists id, id ∈ ids /\ c = GmailGet id)
    (new_calls s (snd (for_each ids process_one s))) /\
  (forall email s1,
     messageId ∉ processedIds s ->
     getMessage messageId s = (Ok email, s1) ->
     "INBOX" ∈ Email.labelIds email ->
     existsb (fun id => includes id ourLabels) (Email.labelIds email) = false ->
     s' = after_error s1 /\ world s' = world s1).
Proof.
  cbv zeta. split_and!.
  - apply processMessage_returns_null.
  - apply processMessage_calls.
  - destruct (for_each_process_fetches ids s) as (s' & l & -> & _ & Htr & Honly & _).
    simpl. by rewrite (new_calls_app _ _ _ Htr).
  - intros email s1 Hnew Hget Hinbox Hours.
    apply includes_false in Hnew. apply includes_elem_of in Hinbox.
    rewrite processMessage_unseen by done. rewrite Hget, Hinbox, Hours. done.
Qed.

End ProcessingMore.

(** Message [b] is out of the inbox: marked, not classified. *)
Lemma processMessage_not_in_inbox_witness :
  let s := MoreCases.b_archived in
  fst (processMessage "b" s) = Ok None /\
  "b" ∈ processedIds (snd (processMessage "b" s)) /\
  stats (snd (processMessage "b" s)) = stats s /\
  new_calls s (snd (processMessage "b" s)) = [GmailGet "b"].
Proof.
  apply (processMessage_not_in_inbox (SV := Sim.sim_services) MoreCases.b_archived "b"
           (Sim.message "b" "Newsletter" ["Label_2"])
           (snd (getMessage "b" MoreCases.b_archived))).
  - apply includes_false. reflexivity.
  - vm_compute. reflexivity.
  - apply includes_false. reflexivity.
Defined.

(** Message [a] of the example mailbox: fetched, then left in the inbox
    as it was. *)
Lemma processMessage_never_classifies_witness :
  let s := Sim.booted Sim.three_messages in
  let s' := snd (processMessage "a" s) in
  new_calls s s' = [GmailGet "a"] /\
  Sim.mailbox (world s') = Sim.mailbox (world s) /\
  errors (stats s') = 1.
Proof.
  cbv zeta.
  destruct (processMessage_never_classifies (SV := Sim.sim_services)
              (Sim.booted Sim.three_messages) "a" [])
    as (_ & Hcalls & _ & Hleft).
  assert ("a" ∉ processedIds (Sim.booted Sim.three_messages)) as Hnew
    by (apply includes_false; reflexivity).
  assert ("INBOX" ∈ Email.labelIds Cases.invoice) as Hinbox
    by (apply includes_elem_of; reflexivity).
  assert (getMessage "a" (Sim.booted Sim.three_messages) =
          (Ok Cases.invoice, snd (getMessage "a" (Sim.booted Sim.three_messages))))
    as Hget by (vm_compute; reflexivity).
  destruct (Hleft Cases.invoice (snd (getMessage "a" (Sim.booted Sim.three_messages)))
              Hnew Hget Hinbox eq_refl) as (Hstate & Hworld).
  split; [exact Hcalls|]. split.
  - rewrite Hworld. reflexivity.
  - rewrite Hstate. reflexivity.
Defined.

(** ** The Gmail module *)

Section GmailMore.
Context {W : Type} `{SV : Services W}.
Implicit Types (s : state W).

#[local] Instance same_client_frame : Frame (same_client (W := W)).
Proof.
  split; [split|].
  - by intros s.
  - intros s1 s2 s3 H1 H2. unfold same_client in *. congruence.
  - by intros s w l.
Qed.

Lemma ensureLabels_same_client : preserves same_client (ensureLabels (W := W)).
Proof. preserves_all; done. Qed.

(** One turn of the loop of [ensureLabels]. *)
Lemma ensureLabels_turn (existing : list (string * string)) (key labelName : string) s :
  (fun '(key, labelName) =>
     match find (fun l : string * string => String.eqb (snd l) labelName) existing with
     | Some l => store_labelId key (fst l)
     | None =>
         newLabel <- extern (GmailLabelsCreate labelName) (labels_create labelName);;
         store_labelId key newLabel
     end) (key, labelName) s =
  match find (fun l : string * string => String.eqb (snd l) labelName) existing with
  | Some l => (Ok tt, set_labelIds (<[key := fst l]> (labelIds s)) s)
  | None =>
      let '(r, w) := labels_create labelName (world s) in
      let s1 := set_outside w (trace s ++ [GmailLabelsCreate labelName]) s in
      match r with
      | Ok newLabel => (Ok tt, set_labelIds (<[key := newLabel]> (labelIds s)) s1)
      | Throw e => (Throw e, s1)
      end
  end.
Proof.
  cbv beta iota. destruct (find _ existing) as [l|]; [done|].
  unfold bind, extern, store_labelId, modify.
  by destruct (labels_create _ _) as [[newLabel|e] w].
Qed.

(** What the three turns of the loop left in [labelIds], for each of the
    three categories, once the goal holds the state after them. *)
Ltac stored_leaf E1 E2 E3 :=
  let key := fresh "key" in
  let labelName := fresh "labelName" in
  let Hin := fresh "Hin" in
  intros key labelName Hin;
  repeat (apply elem_of_cons in Hin as [[= -> ->]|Hin]);
    [..|by apply elem_of_nil in Hin];
    (split_and!;
     [ by simplify_map_eq
     | let l := fresh "l" in
       intros l; rewrite ?E1, ?E2, ?E3; intros [= <-]; by simplify_map_eq
     | let Hnone := fresh "Hnone" in
       intros Hnone; rewrite ?E1, ?E2, ?E3 in Hnone;
       first [ discriminate Hnone
             | eexists _, _, _; split; [eassumption|by simplify_map_eq] ] ]).

(** X14.  When [ensureLabels] returns, an id is stored for each of
    IMPORTANT, REVIEW and JUNK: the id of the first listed label with the
    category's name when there is one, and otherwise the id that the
    creation request for that name returned.  A label is created only for
    the names that the listing lacks, in the order IMPORTANT, REVIEW,
    JUNK, and the other keys of [labelIds] are untouched. *)
Theorem ensureLabels_stores_all s (existing : list (string * string)) (w1 : W) s' :
  gmail s = true ->
  labels_list (world s) = (Ok existing, w1) ->
  ensureLabels s = (Ok tt, s') ->
  new_calls s s' = GmailLabelsList :: missing_labels existing /\
  (forall key labelName,
     (key, labelName) ∈ LABELS ->
     is_Some (labelIds s' !! key) /\
     (forall l,
        find (fun l : string * string => String.eqb (snd l) labelName) existing = Some l ->
        labelIds s' !! key = Some (fst l)) /\
     (find (fun l : string * string => String.eqb (snd l) labelName) existing = None ->
      exists w w' newLabel,
        labels_create labelName w = (Ok newLabel, w') /\
        labelIds s' !! key = Some newLabel)) /\
  (forall key,
     key <> "IMPORTANT" -> key <> "REVIEW" -> key <> "JUNK" ->
     labelIds s' !! key = labelIds s !! key).
Proof.
  intros Hg Hlist. unfold ensureLabels. unfold bind at 1. unfold gets at 1. simpl.
  rewrite Hg. simpl. unfold try_catch. unfold bind at 1. unfold extern at 1.
  rewrite Hlist. unfold LABELS, missing_labels. simpl.
  unfold bind at 1. rewrite ensureLabels_turn.
  destruct (find (fun l : string * string => String.eqb (snd l) "AI-Important") existing)
    as [l1|] eqn:E1;
    [|destruct (labels_create "AI-Important" _) as [[id1|e] w1'] eqn:C1; [|discriminate]];
    (unfold bind at 1; rewrite ensureLabels_turn;
     destruct (find (fun l : string * string => String.eqb (snd l) "AI-Review") existing)
       as [l2|] eqn:E2;
     [|destruct (labels_create "AI-Review" _) as [[id2|e] w2] eqn:C2; [|discriminate]]);
    (unfold bind at 1; rewrite ensureLabels_turn;
     destruct (find (fun l : string * string => String.eqb (snd l) "AI-Junk") existing)
       as [l3|] eqn:E3;
     [|destruct (labels_create "AI-Junk" _) as [[id3|e] w3] eqn:C3; [|discriminate]]);
    intros [= <-]; simpl;
    (split_and!;
     [ apply new_calls_app; simpl; by rewrite <- ?app_assoc
     | stored_leaf E1 E2 E3
     | intros key ? ? ?; by simplify_map_eq ]).
Qed.

(** X15.  [initializeGmail] assigns the Gmail client before it ensures
    the labels.  Without stored tokens it returns [false] after the one
    read and leaves the client as it was; with tokens the client is set
    whatever happens next, so when the listing of the labels fails the
    function raises and yet [isAuthenticated] answers [true], with the
    label ids as they were. *)
Theorem initializeGmail_sets_client_first s :
  (forall w,
     loadTokens (world s) = (Ok false, w) ->
     initializeGmail s = (Ok false, set_outside w (trace s ++ [LoadTokens]) s)) /\
  (forall e w,
     loadTokens (world s) = (Throw e, w) ->
     initializeGmail s = (Throw e, set_outside w (trace s ++ [LoadTokens]) s)) /\
  (forall w,
     loadTokens (world s) = (Ok true, w) ->
     isAuthenticated (snd (initializeGmail s))
       = (Ok true, snd (initializeGmail s))) /\
  (forall w e w2,
     loadTokens (world s) = (Ok true, w) ->
     labels_list w = (Throw e, w2) ->
     initializeGmail s =
       (Throw e,
        set_gmail true (set_outside w2 (trace s ++ [LoadTokens; GmailLabelsList]) s))).
Proof.
  split_and!.
  - intros w Hload. unfold initializeGmail, bind, extern, ret. by rewrite Hload.
  - intros e w Hload. unfold initializeGmail, bind, extern. by rewrite Hload.
  - intros w Hload.
    assert (gmail (snd (initializeGmail s)) = true) as Hclient.
    { unfold initializeGmail. unfold bind at 1. unfold extern at 1.
      rewrite Hload. simpl. unfold bind at 1. unfold modify at 1.
      set (s1 := set_gmail true _).
      unfold bind. destruct (ensureLabels s1) as [r s2] eqn:Eensure.
      apply ensureLabels_same_client in Eensure. unfold same_client in Eensure.
      by destruct r; simpl; rewrite Eensure. }
    unfold isAuthenticated, gets. by rewrite Hclient.
  - intros w e w2 Hload Hlist.
    unfold initializeGmail, ensureLabels, try_catch, bind, extern, modify, gets, throw.
    rewrite Hload. simpl. rewrite Hlist. simpl.
    unfold set_gmail, set_outside. simpl. by rewrite <- app_assoc.
Qed.

End GmailMore.

(** Gmail has AI-Review only: the two other labels are created, the
    listed id is stored for REVIEW. *)
Lemma ensureLabels_stores_all_witness :
  let s := MoreCases.one_label in
  new_calls s (snd (ensureLabels s))
    = [GmailLabelsList; GmailLabelsCreate "AI-Important"; GmailLabelsCreate "AI-Junk"] /\
  labelIds (snd (ensureLabels s)) !! "REVIEW" = Some "Label_9" /\
  (exists (w w' : Sim.sim) (newLabel : string),
     labels_create "AI-Important" w = (Ok newLabel, w') /\
     labelIds (snd (ensureLabels s)) !! "IMPORTANT" = Some newLabel) /\
  labelIds (snd (ensureLabels s)) !! "IMPORTANT" = Some "Label_AI-Important".
Proof.
  cbv zeta.
  destruct (ensureLabels_stores_all (SV := Sim.sim_services) MoreCases.one_label
              [("Label_9", "AI-Review")]
              (Sim.with_remote_labels (Ok [("Label_9", "AI-Review")]) Sim.three_messages)
              (snd (ensureLabels MoreCases.one_label)) eq_refl eq_refl)
    as (Hcalls & Hstored & _).
  - vm_compute. reflexivity.
  - assert (("REVIEW", "AI-Review") ∈ LABELS) as Hreview
      by (apply list_elem_of_further, list_elem_of_here).
    assert (("IMPORTANT", "AI-Important") ∈ LABELS) as Himportant
      by apply list_elem_of_here.
    split; [exact Hcalls|]. split.
    + apply (proj1 (proj2 (Hstored "REVIEW" "AI-Review" Hreview))
               ("Label_9", "AI-Review")).
      reflexivity.
    + split; [|vm_compute; reflexivity].
      apply (proj2 (proj2 (Hstored "IMPORTANT" "AI-Important" Himportant))).
      reflexivity.
Defined.

(** The listing of the labels fails after the tokens were found. *)
Lemma initializeGmail_sets_client_first_witness :
  let s := Cases.fresh (Sim.with_remote_labels (Throw (mkError "socket hang up"))
                          Sim.three_messages) in
  fst (initializeGmail s) = Throw (mkError "socket hang up") /\
  isAuthenticated (snd (initializeGmail s)) = (Ok true, snd (initializeGmail s)).
Proof.
  cbv zeta.
  destruct (initializeGmail_sets_client_first (SV := Sim.sim_services)
              (Cases.fresh (Sim.with_remote_labels (Throw (mkError "socket hang up"))
                              Sim.three_messages)))
    as (_ & _ & Hclient & Hfails).
  split.
  - rewrite (Hfails _ (mkError "socket hang up") _ eq_refl eq_refl). reflexivity.
  - exact (Hclient _ eq_refl).
Defined.

(** ** The routes and the start of the server *)

Section RoutesMore.
Context {W : Type} `{SV : Services W} `{AV : AuthServices W}.
Implicit Types (s : state W).

#[local] Instance same_timer_frame : Frame (same_timer (W := W)).
Proof.
  split; [split|].
  - by intros s.
  - intros s1 s2 s3 H1 H2. unfold same_timer in *. congruence.
  - by intros s w l.
Qed.

#[local] Existing Instance same_client_frame.

Lemma recent_count_bound (count : option string) : recent_count count <= 50.
Proof. unfold recent_count. lia. Qed.

(** X23.  [GET /emails/recent] never asks Gmail for more than 50
    messages: the requested count is capped at 50, and it is 10 when the
    parameter is missing, has no leading number or is 0.  Without
    authentication the answer is 401 and no call is made; otherwise the
    inbox is listed once, with the capped count, before the fetches, and
    the route answers whether or not the retrieval raised. *)
Theorem route_emails_recent_bounded (count : option string) s :
  let s' := snd (route_emails_recent count s) in
  recent_count count <= 50 /\
  (parseInt count = None \/ parseInt count = Some 0 -> recent_count count = 10) /\
  (forall n, parseInt count = Some n -> n <> 0 -> recent_count count = Z.min n 50) /\
  (exists r, fst (route_emails_recent count s) = Ok r) /\
  (gmail s = false ->
   route_emails_recent count s = (Ok (RecentError 401 "Not authenticated"), s)) /\
  (gmail s = true ->
   exists ids,
     new_calls s s' = GmailList (recent_count count) "in:inbox" :: map GmailGet ids).
Proof.
  cbv zeta. split_and!.
  - apply recent_count_bound.
  - unfold recent_count. intros [Hn | Hn]; by rewrite Hn.
  - intros n Hn Hn0. unfold recent_count. rewrite Hn. unfold num_or.
    apply Z.eqb_neq in Hn0. by rewrite Hn0.
  - unfold route_emails_recent, try_catch, bind, isAuthenticated, gets, ret. simpl.
    destruct (gmail s); simpl; [|by eexists].
    destruct (getRecentMessages _ s) as [[messages|e] s1]; by eexists.
  - intros Hg. unfold route_emails_recent, try_catch, bind, isAuthenticated, gets, ret.
    simpl. by rewrite Hg.
  - intros Hg.
    assert (snd (route_emails_recent count s)
            = snd (getRecentMessages (recent_count count) s)) as ->.
    { unfold route_emails_recent, try_catch, bind, isAuthenticated, gets, ret. simpl.
      rewrite Hg. simpl. by destruct (getRecentMessages _ s) as [[messages|e] s1]. }
    rewrite (getRecentMessages_run _ s Hg).
    destruct (messages_list _ _ _) as [[[ids|]|e] w]; cbv zeta.
    + exists ids. destruct (promise_all _ _) as [r s1] eqn:Eall.
      apply promise_all_getMessage in Eall as (Htr & _); [|done].
      apply new_calls_app. simpl. rewrite Htr. simpl. by rewrite <- app_assoc.
    + exists []. by apply new_calls_app.
    + exists []. by apply new_calls_app.
Qed.

(** X24.  [GET /watcher/poll] never runs a cycle.  [routes/api.js] does
    not import [poll], so when no timer is armed the route answers 500
    with "poll is not defined"; when a timer is armed it answers that the
    watcher is already running.  In both cases the state is untouched and
    no call is made. *)
Theorem route_watcher_poll_never_polls s :
  route_watcher_poll s =
    (Ok (match watcherInterval s with
         | Some _ =>
             {| status := 200; success := true; text := "Watcher already running" |}
         | None =>
             {| status := 500; success := false; text := "poll is not defined" |}
         end), s) /\
  new_calls s (snd (route_watcher_poll s)) = [] /\
  stats (snd (route_watcher_poll s)) = stats s.
Proof.
  assert (route_watcher_poll s =
          (Ok (match watcherInterval s with
               | Some _ =>
                   {| status := 200; success := true; text := "Watcher already running" |}
               | None =>
                   {| status := 500; success := false; text := "poll is not defined" |}
               end), s)) as Hrun.
  { unfold route_watcher_poll, api_poll, isWatcherRunning, try_catch, bind, gets, ret,
      throw. simpl. by destruct (watcherInterval s). }
  rewrite Hrun. simpl. split_and!; [done|apply new_calls_refl|done].
Qed.

(** X25.  [POST /watcher/start] always answers.  It answers 200 with
    [success: true] when a timer is armed, without touching anything, and
    when the Gmail client is set, after [startWatcher] armed the timer;
    it answers 500 with "Not authenticated with Gmail", and changes
    nothing, when neither holds. *)
Theorem route_watcher_start_answers s :
  (forall handle,
     watcherInterval s = Some handle ->
     route_watcher_start s =
       (Ok {| status := 200; success := true; text := "Watcher already running" |}, s)) /\
  (watcherInterval s = None -> gmail s = true ->
   exists s',
     route_watcher_start s =
       (Ok {| status := 200; success := true; text := "Watcher started" |}, s') /\
     watcherInterval s' =
       Some (Timer (num_or (parseInt (POLL_INTERVAL_MS s)) 60000)) /\
     isRunning (stats s') = true) /\
  (watcherInterval s = None -> gmail s = false ->
   route_watcher_start s =
     (Ok {| status := 500; success := false; text := "Not authenticated with Gmail" |},
      s)).
Proof.
  split_and!.
  - intros handle Hw.
    unfold route_watcher_start, isWatcherRunning, try_catch, bind, gets, ret. simpl.
    by rewrite Hw.
  - intros Hw Hg. eexists. split.
    + unfold route_watcher_start, isWatcherRunning, try_catch. unfold bind at 1 2.
      unfold gets at 1. simpl. rewrite Hw. simpl.
      unfold bind. rewrite startWatcher_run, Hw, Hg. reflexivity.
    + done.
  - intros Hw Hg.
    unfold route_watcher_start, isWatcherRunning, try_catch. unfold bind at 1 2.
    unfold gets at 1. simpl. rewrite Hw. simpl.
    unfold bind. by rewrite startWatcher_run, Hw, Hg.
Qed.

Lemma match_ENOENT {A} (c : errcode) (a b : A) :
  match c with StrCode "ENOENT" => a | _ => b end
  = if bool_decide (c = StrCode "ENOENT") then a else b.
Proof.
  case_bool_decide as Hc; [by subst|].
  destruct c as [|n|c]; try done.
  do 6 (destruct c as [|[[] [] [] [] [] [] [] []] c]; try done).
  by destruct c.
Qed.

Lemma clearTokens_run s :
  clearTokens s =
    let '(r, w) := tokens_unlink (world s) in
    let s1 := set_outside w (trace s) s in
    match r with
    | Ok u => (Ok u, s1)
    | Throw e => if bool_decide (code e = StrCode "ENOENT") then (Ok tt, s1)
                 else (Throw e, s1)
    end.
Proof.
  unfold clearTokens, try_catch, outside.
  destruct (tokens_unlink (world s)) as [[u|e] w]; [done|].
  rewrite (match_ENOENT (code e) (ret tt) (throw e)).
  by case_bool_decide.
Qed.

(** X27.  [POST /auth/logout] only removes the token file.  It always
    answers: success when the file was removed or was not there
    (ENOENT), 500 with the message of the error otherwise.  The Gmail
    client, the label ids, the timer, the ledger, the cursor and [stats]
    are as they were and no recorded call is made: after a logout
    [isAuthenticated] and [isWatcherRunning] answer as before. *)
Theorem route_logout_keeps_session s :
  let '(r, w) := tokens_unlink (world s) in
  let s' := set_outside w (trace s) s in
  route_logout s =
    (Ok (match r with
         | Ok _ =>
             {| status := 200; success := true; text := "Logged out successfully" |}
         | Throw e =>
             if bool_decide (code e = StrCode "ENOENT")
             then {| status := 200; success := true; text := "Logged out successfully" |}
             else {| status := 500; success := false; text := message e |}
         end), s') /\
  fst (isAuthenticated s') = fst (isAuthenticated s) /\
  fst (isWatcherRunning s') = fst (isWatcherRunning s) /\
  new_calls s s' = [].
Proof.
  pose proof (clearTokens_run s) as Hrun.
  destruct (tokens_unlink (world s)) as [r w]. cbv zeta in *.
  split_and!; [|done|done|apply new_calls_app; simpl; by rewrite app_nil_r].
  unfold route_logout, try_catch, bind. rewrite Hrun.
  destruct r as [u|e]; [done|]. by case_bool_decide.
Qed.


Lemma initializeGmail_ready s s' :
  initializeGmail s = (Ok true, s') -> gmail s' = true.
Proof.
  unfold initializeGmail. unfold bind at 1. unfold extern.
  destruct (loadTokens (world s)) as [[tokens|e] w]; [|done].
  destruct tokens; simpl; [|done].
  unfold bind at 1. unfold modify at 1. unfold bind.
  destruct (ensureLabels _) as [[u|e] s1] eqn:Elabels; [|done].
  intros [= <-]. by apply ensureLabels_same_client in Elabels.
Qed.

Lemma initializeOpenAI_same_timer :
  preserves same_timer (initializeOpenAI (W := W)).
Proof. preserves_all; done. Qed.

Lemma initializeGmail_same_timer :
  preserves same_timer (initializeGmail (W := W)).
Proof. preserves_all; done. Qed.

Lemma initialize_openai_step (key : option string) s :
  exists s0,
    (if truthy_str key then try_catch initializeOpenAI (fun error => ret tt)
     else ret tt) s = (Ok tt, s0) /\
    same_timer s s0.
Proof.
  destruct (truthy_str key); [|by eexists].
  unfold try_catch, ret.
  destruct (initializeOpenAI s) as [[[]|e] s0] eqn:Eopen; eexists;
    (split; [reflexivity|]); by eapply initializeOpenAI_same_timer.
Qed.

Lemma poll_same_client : preserves same_client (poll (W := W)).
Proof. preserves_all; done. Qed.

Lemma loadProcessedIds_same_client :
  preserves same_client (loadProcessedIds (W := W)).
Proof. preserves_all; done. Qed.

(** X26.  The start of the server never fails: [initialize] returns with
    the flag set whatever OpenAI, the token file and Gmail answer, and
    does nothing when the flag was set.  The timer changes only when the
    flag was not set, [AUTO_START_WATCHER] is exactly "true", [VERCEL] is
    unset or empty and the stored tokens gave a client; the watcher then
    runs. *)
Theorem initialize_never_fails (AUTO_START_WATCHER VERCEL : option string)
  (initialized : bool) s :
  let s' := snd (initialize AUTO_START_WATCHER VERCEL initialized s) in
  fst (initialize AUTO_START_WATCHER VERCEL initialized s) = Ok true /\
  (initialized = true -> s' = s) /\
  (watcherInterval s' <> watcherInterval s ->
   initialized = false /\
   AUTO_START_WATCHER = Some "true" /\
   truthy_str VERCEL = false /\
   gmail s' = true /\
   (exists handle, watcherInterval s' = Some handle) /\
   isRunning (stats s') = true).
Proof.
  cbv zeta. destruct initialized; [by split_and!|].
  assert (exists s',
            initialize AUTO_START_WATCHER VERCEL false s = (Ok true, s') /\
            (watcherInterval s' <> watcherInterval s ->
             AUTO_START_WATCHER = Some "true" /\
             truthy_str VERCEL = false /\
             gmail s' = true /\
             (exists handle, watcherInterval s' = Some handle) /\
             isRunning (stats s') = true)) as (s' & -> & Hs').
  { unfold initialize. unfold bind at 1. unfold gets at 1. cbv beta iota. simpl.
    destruct (initialize_openai_step (OPENAI_API_KEY s) s) as (s0 & E0 & Ht0).
    unfold bind at 1. rewrite E0.
    unfold bind at 1. unfold try_catch at 1. unfold bind at 1.
    unfold same_timer in Ht0.
    destruct (initializeGmail s0) as [[isReady|e] s1] eqn:Egmail;
      pose proof (initializeGmail_same_timer _ _ _ Egmail) as Ht1;
      unfold same_timer in Ht1;
      [|eexists; split; [reflexivity|]; simpl; congruence].
    destruct isReady; [|eexists; split; [reflexivity|]; simpl; congruence].
    pose proof (initializeGmail_ready _ _ Egmail) as Hg1.
    case_bool_decide as Hauto; destruct (truthy_str VERCEL) eqn:Hvercel; simpl;
      try (eexists; split; [reflexivity|]; simpl; congruence).
    unfold bind at 1. rewrite startWatcher_run, Hg1.
    destruct (watcherInterval s1) as [handle|] eqn:Hw1;
      [eexists; split; [reflexivity|]; simpl; congruence|].
    eexists; split; [reflexivity|]. simpl. intros _.
    split_and!; [done|done| |by eexists|done].
    unfold armed. simpl.
    destruct (loadProcessedIds s1) as [r2 s2] eqn:Eload. simpl.
    destruct (poll s2) as [r3 s3] eqn:Epoll. simpl.
    apply loadProcessedIds_same_client in Eload.
    apply poll_same_client in Epoll.
    unfold same_client in *. congruence. }
  simpl. split_and!; [done|done|]. intros Hw. split; [done|]. by apply Hs'.
Qed.

End RoutesMore.

(** The watcher started on the example mailbox: the flag and the timer
    agree before and after. *)
Lemma running_flag_consistent_witness :
  running_consistent (Sim.booted Sim.three_messages) /\
  running_consistent (run OpStartWatcher (Sim.booted Sim.three_messages)) /\
  running_consistent (run_more OpRouteWatcherStop Cases.running).
Proof.
  destruct (running_flag_consistent (SV := Sim.sim_services)
              (AV := SimAuth.sim_auth_services)) as (Hrun & Hmore & _).
  split; [reflexivity|]. split.
  - apply (Hrun OpStartWatcher). reflexivity.
  - apply (Hmore OpRouteWatcherStop). vm_compute. reflexivity.
Defined.

(** Start, stop and stop again on the example mailbox; the interval is the
    default of 60000 ms. *)
Lemma start_then_stop_witness :
  let s := Sim.booted Sim.three_messages in
  let s1 := snd (startWatcher s) in
  let s2 := snd (stopWatcher s1) in
  watcherInterval s = None /\
  gmail s = true /\
  new_calls s1 s2 = [ClearInterval (Timer 60000)] /\
  fst (route_watcher_stop s2)
    = Ok {| status := 200; success := true; text := "Watcher was not running" |}.
Proof.
  cbv zeta.
  destruct (start_then_stop (SV := Sim.sim_services) (Sim.booted Sim.three_messages)
              eq_refl eq_refl)
    as (_ & _ & _ & Hcalls & _ & _ & _ & _ & _ & _ & _ & _ & Hagain).
  split; [reflexivity|]. split; [reflexivity|]. split.
  - exact Hcalls.
  - cbv zeta in Hagain. rewrite Hagain. reflexivity.
Defined.

(** A request for 500 messages lists 50; a request without a count, or
    for "0" or "abc", lists 10. *)
Lemma route_emails_recent_bounded_witness :
  recent_count (Some "500") = 50 /\
  recent_count None = 10 /\
  recent_count (Some "0") = 10 /\
  recent_count (Some "abc") = 10 /\
  exists ids,
    new_calls (Sim.booted Sim.three_messages)
      (snd (route_emails_recent (Some "500") (Sim.booted Sim.three_messages)))
    = GmailList 50 "in:inbox" :: map GmailGet ids.
Proof.
  destruct (route_emails_recent_bounded (SV := Sim.sim_services) (Some "500")
              (Sim.booted Sim.three_messages))
    as (_ & _ & Hcap & _ & _ & Hcalls).
  destruct (route_emails_recent_bounded (SV := Sim.sim_services) None
              (Sim.booted Sim.three_messages))
    as (_ & Hnone & _).
  destruct (route_emails_recent_bounded (SV := Sim.sim_services) (Some "0")
              (Sim.booted Sim.three_messages))
    as (_ & Hzero & _).
  destruct (route_emails_recent_bounded (SV := Sim.sim_services) (Some "abc")
              (Sim.booted Sim.three_messages))
    as (_ & Htext & _).
  split; [exact (Hcap 500 eq_refl ltac:(discriminate))|].
  split; [exact (Hnone (or_introl eq_refl))|].
  split; [exact (Hzero (or_intror eq_refl))|].
  split; [exact (Htext (or_introl eq_refl))|].
  exact (Hcalls eq_refl).
Defined.

(** The start route on the example mailbox, before and after the watcher
    runs, and without a client. *)
Lemma route_watcher_start_answers_witness :
  (exists s',
     route_watcher_start (Sim.booted Sim.three_messages) =
       (Ok {| status := 200; success := true; text := "Watcher started" |}, s') /\
     watcherInterval s' = Some (Timer 60000) /\
     isRunning (stats s') = true) /\
  route_watcher_start Cases.running =
    (Ok {| status := 200; success := true; text := "Watcher already running" |},
     Cases.running) /\
  fst (route_watcher_start (Cases.fresh Sim.three_messages)) =
    Ok {| status := 500; success := false; text := "Not authenticated with Gmail" |}.
Proof.
  destruct (route_watcher_start_answers (SV := Sim.sim_services)
              (Sim.booted Sim.three_messages)) as (_ & Hstart & _).
  destruct (route_watcher_start_answers (SV := Sim.sim_services) Cases.running)
    as (Halready & _ & _).
  destruct (route_watcher_start_answers (SV := Sim.sim_services)
              (Cases.fresh Sim.three_messages)) as (_ & _ & Hfail).
  split; [exact (Hstart eq_refl eq_refl)|]. split.
  - apply (Halready (Timer 60000)). vm_compute. reflexivity.
  - rewrite (Hfail eq_refl eq_refl). reflexivity.
Defined.


(** The server started with stored tokens and AUTO_START_WATCHER=true,
    outside Vercel: the watcher runs. *)
Lemma initialize_never_fails_witness :
  let s := Cases.fresh Sim.three_messages in
  let s' := snd (initialize (Some "true") None false s) in
  watcherInterval s' <> watcherInterval s /\
  gmail s' = true /\
  isRunning (stats s') = true.
Proof.
  cbv zeta.
  destruct (initialize_never_fails (SV := Sim.sim_services) (Some "true") None false
              (Cases.fresh Sim.three_messages)) as (_ & _ & Harmed).
  assert (watcherInterval
            (snd (initialize (Some "true") None false (Cases.fresh Sim.three_messages)))
          <> watcherInterval (Cases.fresh Sim.three_messages)) as Hw.
  { intros Hsame. vm_compute in Hsame. discriminate Hsame. }
  destruct (Harmed Hw) as (_ & _ & _ & Hg & _ & Hr).
  split; [exact Hw|]. split; [exact Hg|exact Hr].
Defined.
